(** * gcn.py: graph splitter, partitioner, model and training loop

    A shallow embedding of [src/gcn.py].  Python values are modelled as the
    script has them: integer tensors as lists of [Z], the two-row edge index
    as a list of (source, destination) columns, Python exceptions as the
    [Raise] case of an error monad, and the script's loops as recursive
    functions that thread the mutated variables explicitly. *)

From Stdlib Require Import String Ascii.
From Stdlib Require Import List ZArith Lia Bool Permutation.
From Stdlib Require Import Floats.SpecFloat.
From Stdlib Require Import Reals Lra.
Import ListNotations.

Set Implicit Arguments.

(** ** Python runtime: exceptions, indexing, slicing *)

Module Py.

Inductive exn : Type :=
| IndexError
| AttributeError
| RuntimeError
| ValueError
| OverflowError.

Inductive result (A : Type) : Type :=
| Ok (a : A)
| Raise (e : exn).

Arguments Ok {A} a.
Arguments Raise {A} e.

Definition bind {A B : Type} (c : result A) (k : A -> result B) : result B :=
  match c with
  | Ok a => k a
  | Raise e => Raise e
  end.

(** [for x in xs: acc = body(acc, x)] where the body may raise. *)
Fixpoint foldM {A S : Type} (body : S -> A -> result S) (xs : list A) (s : S)
  : result S :=
  match xs with
  | [] => Ok s
  | x :: xs' => bind (body s x) (foldM body xs')
  end.

(** [[f(x) for x in xs]] where [f] may raise. *)
Fixpoint mapM {A B : Type} (f : A -> result B) (xs : list A) : result (list B) :=
  match xs with
  | [] => Ok []
  | x :: xs' =>
      bind (f x) (fun y => bind (mapM f xs') (fun ys => Ok (y :: ys)))
  end.

(** [enumerate(xs)], counting from [i]. *)
Fixpoint enumerate_from {A : Type} (i : nat) (xs : list A) : list (nat * A) :=
  match xs with
  | [] => []
  | x :: xs' => (i, x) :: enumerate_from (S i) xs'
  end.

Definition enumerate {A : Type} (xs : list A) : list (nat * A) :=
  enumerate_from 0 xs.

(** A slice bound as Python normalises it against a length: a negative
    bound counts from the end, and the result is clamped to [0, len]. *)
Definition slice_bound (len : nat) (i : Z) : nat :=
  if (i <? 0)%Z
  then Z.to_nat (Z.max 0 (i + Z.of_nat len))
  else Nat.min (Z.to_nat i) len.

(** [l[a:b]] *)
Definition slice {A : Type} (a b : Z) (l : list A) : list A :=
  let lo := slice_bound (length l) a in
  let hi := slice_bound (length l) b in
  firstn (hi - lo) (skipn lo l).

(** [l[:-1]] *)
Definition drop_last {A : Type} (l : list A) : list A := removelast l.

(** [l[i]] for a non-negative position taken from [enumerate] or [range]. *)
Definition getitem {A : Type} (l : list A) (i : nat) : result A :=
  match nth_error l i with
  | Some a => Ok a
  | None => Raise IndexError
  end.

(** The value of a call that did not raise, transformed. *)
Definition map_result {A B : Type} (f : A -> B) (c : result A) : result B :=
  match c with
  | Ok a => Ok (f a)
  | Raise e => Raise e
  end.

End Py.

Import Py.

Declare Scope py_scope.
Notation "x <- c ;; k" := (Py.bind c (fun x => k))
  (at level 61, c at next level, right associativity) : py_scope.
Open Scope py_scope.

(** ** The graph splitter (gcn.py, lines 103-116) *)

Module Splitter.

(** A [2 x E] edge index, kept as its [E] columns: row 0 holds the sources
    and row 1 the destinations. *)
Definition EdgeIndex := list (Z * Z).

Definition row0 (ei : EdgeIndex) : list Z := map fst ei.
Definition row1 (ei : EdgeIndex) : list Z := map snd ei.

Section WithFeatures.

(** The entries of the node-feature matrix are only moved around here. *)
Variable F : Type.

(** [dataset.data]: the concatenated store of all graphs. *)
Record Collated : Type := {
  c_x : list (list F);
  c_edge_index : EdgeIndex;
  c_y : list Z;
  c_num_nodes : list Z
}.

(** [dataset.slices]. *)
Record Slices : Type := {
  edge_slices : list Z;
  node_slices : list Z
}.

(** One graph record, as appended to [graph_list]. *)
Record Data : Type := {
  x : list (list F);
  edge_index : EdgeIndex;
  y : Z;
  num_nodes : Z
}.

(** [edge_index[0, :] == edge_index[1, :]] *)
Definition self_loop_mask (ei : EdgeIndex) : list bool :=
  map (fun c => Z.eqb (fst c) (snd c)) ei.

(** The entries of one row picked out by a mask of the same length. *)
Fixpoint select (mask : list bool) (row : list Z) : list Z :=
  match mask, row with
  | m :: mask', v :: row' =>
      if m then v :: select mask' row' else select mask' row'
  | _, _ => []
  end.

(** [torch.masked_select(edge_index, mask)]: the mask is broadcast over both
    rows, and the selected entries come out flat, in row-major order. *)
Definition masked_select (ei : EdgeIndex) (mask : list bool) : list Z :=
  select mask (row0 ei) ++ select mask (row1 ei).

(** [flat.reshape(2, -1)]: fails unless the number of entries is even. *)
Definition reshape_2 (flat : list Z) : result EdgeIndex :=
  let n := length flat in
  if Nat.even n
  then Ok (combine (firstn (Nat.div2 n) flat) (skipn (Nat.div2 n) flat))
  else Raise RuntimeError.

(** Lines 110-111. *)
Definition extract_self_loops (ei : EdgeIndex) : result EdgeIndex :=
  let mask := self_loop_mask ei in
  reshape_2 (masked_select ei mask).

(** The body of the loop, lines 107-116, for graph number [index]. *)
Definition split_one (d : Collated) (s : Slices)
    (index : nat) (edge_slice node_slice : Z) : result Data :=
  edge_end <- getitem (edge_slices s) (index + 1) ;;
  let ei := slice edge_slice edge_end (c_edge_index d) in
  ei' <- extract_self_loops ei ;;
  n <- getitem (c_num_nodes d) index ;;
  node_end <- getitem (node_slices s) (index + 1) ;;
  let xs := slice node_slice node_end (c_x d) in
  lbl <- getitem (c_y d) index ;;
  Ok {| x := xs; edge_index := ei'; y := lbl; num_nodes := n |}.

(** Lines 105-116: the loop that fills [graph_list]. *)
Definition graph_list (d : Collated) (s : Slices) : result (list Data) :=
  mapM (fun '(index, (edge_slice, node_slice)) =>
          split_one d s index edge_slice node_slice)
       (enumerate (combine (drop_last (edge_slices s))
                           (drop_last (node_slices s)))).

(** The edges of graph [index] before the mask is applied (line 108). *)
Definition edge_slice_of (d : Collated) (s : Slices) (index : nat) : EdgeIndex :=
  slice (nth index (edge_slices s) 0%Z) (nth (index + 1) (edge_slices s) 0%Z)
        (c_edge_index d).

Definition is_self_loop (c : Z * Z) : bool := Z.eqb (fst c) (snd c).

End WithFeatures.

(** The number of passes of the loop of lines 106-116: [zip] stops at the
    shorter of the two boundary sequences, each without its last entry. *)
Definition num_graphs (s : Slices) : nat :=
  Nat.min (length (edge_slices s) - 1) (length (node_slices s) - 1).

(** Boundaries that cut a store of [len] rows into consecutive pieces: they
    start at 0, never decrease, and end at [len]. *)
Fixpoint consecutive (from : Z) (bounds : list Z) (len : Z) : Prop :=
  match bounds with
  | [] => from = len
  | b :: bounds' => (from <= b)%Z /\ consecutive b bounds' len
  end.

Definition cuts (bounds : list Z) (len : nat) : Prop :=
  match bounds with
  | [] => False
  | b :: bounds' => b = 0%Z /\ consecutive b bounds' (Z.of_nat len)
  end.

(** Two graphs in one store: three nodes with the edges [0 -> 1], [1 -> 0]
    and the self-loop [2 -> 2], then two nodes with the edge [0 -> 1]. *)
Definition two_graphs : Collated Z :=
  {| c_x := [[1]; [2]; [3]; [4]; [5]]%Z;
     c_edge_index := [(0, 1); (1, 0); (2, 2); (0, 1)]%Z;
     c_y := [0; 1]%Z;
     c_num_nodes := [3; 2]%Z |}.

Definition two_graphs_slices : Slices :=
  {| edge_slices := [0; 3; 4]%Z; node_slices := [0; 3; 5]%Z |}.

End Splitter.

(** ** IEEE 754 binary64, the arithmetic of Python's [float] *)

Module Float64.

Definition prec : Z := 53.
Definition emax : Z := 1024.

Definition float : Type := spec_float.

(** [float(n)] for a Python integer: correctly rounded, and an
    [OverflowError] when the integer is beyond the largest double. *)
Definition of_int (n : Z) : result float :=
  match binary_normalize prec emax n 0 false with
  | S754_infinity _ => Raise OverflowError
  | f => Ok f
  end.

Definition mul (a b : float) : float := SFmul prec emax a b.
Definition add (a b : float) : float := SFadd prec emax a b.

(** [int(f)]: truncation towards zero. *)
Definition to_int (f : float) : result Z :=
  match f with
  | S754_zero _ => Ok 0%Z
  | S754_infinity _ => Raise OverflowError
  | S754_nan => Raise ValueError
  | S754_finite s m e =>
      Ok (cond_Zopp s (if (0 <=? e)%Z
                       then (Zpos m * 2 ^ e)%Z
                       else (Zpos m / 2 ^ (- e))%Z))
  end.

(** The literals [0.2], [0.1], [0.0] and [1e10] as the doubles Python reads
    them as. *)
Definition lit_0_2 : float := S754_finite false 7205759403792794 (-55).
Definition lit_0_1 : float := S754_finite false 7205759403792794 (-56).
Definition lit_0_0 : float := S754_zero false.
Definition lit_1e10 : float := S754_finite false 5242880000000000 (-19).

(** The defaults [0.001] and [0.01] of lines 77-78, likewise. *)
Definition lit_0_001 : float := S754_finite false 4611686018427388 (-62).
Definition lit_0_01 : float := S754_finite false 5764607523034235 (-59).

Definition b2z (b : bool) : Z := if b then 1%Z else 0%Z.

(** What [k + 1] right shifts of [m0] leave in the record of the rounding
    step: the quotient, the bit just below it, and whether any lower bit is
    set. *)
Definition shifted (m0 : Z) (k : nat) (r : shr_record) : Prop :=
  (0 <= shr_m r)%Z /\
  exists low,
    (0 <= low < 2 ^ Z.of_nat k)%Z /\
    (m0 = shr_m r * 2 ^ Z.of_nat (S k) + b2z (shr_r r) * 2 ^ Z.of_nat k + low)%Z /\
    (shr_s r = true <-> low <> 0%Z).

End Float64.

(** ** The dataset partitioner (gcn.py, lines 118-121) *)

Module Partitioner.

(** [torch.utils.data.Subset]: the positions of its items in the dataset it
    was cut from. *)
Record Subset : Type := { indices : list nat }.

(** [itertools.accumulate(lengths)], from the running total [acc]. *)
Fixpoint accumulate_from (acc : Z) (lengths : list Z) : list Z :=
  match lengths with
  | [] => []
  | l :: ls => (acc + l)%Z :: accumulate_from (acc + l)%Z ls
  end.

Definition accumulate (lengths : list Z) : list Z := accumulate_from 0%Z lengths.

Definition sum (lengths : list Z) : Z := fold_left Z.add lengths 0%Z.

Section WithGenerator.

(** [torch.randperm(n)] under the generator seeded at line 89. *)
Variable randperm : nat -> list nat.

(** [torch.utils.data.random_split(dataset, lengths)], on the length of the
    dataset. *)
Definition random_split (dataset_len : nat) (lengths : list Z)
  : result (list Subset) :=
  if (sum lengths =? Z.of_nat dataset_len)%Z
  then
    let indices := randperm (Z.to_nat (sum lengths)) in
    Ok (map (fun '(offset, length) =>
               {| indices := slice (offset - length) offset indices |})
            (combine (accumulate lengths) lengths))
  else Raise ValueError.

(** Line 118: [int(len(dataset) * 0.2)]. *)
Definition num_training (dataset_len : Z) : result Z :=
  n <- Float64.of_int dataset_len ;;
  Float64.to_int (Float64.mul n Float64.lit_0_2).

(** Line 119: [int(len(dataset) * 0.1)]. *)
Definition num_val (dataset_len : Z) : result Z :=
  n <- Float64.of_int dataset_len ;;
  Float64.to_int (Float64.mul n Float64.lit_0_1).

(** Line 120. *)
Definition num_test (dataset_len : Z) (num_training num_val : Z) : Z :=
  (dataset_len - (num_training + num_val))%Z.

(** Lines 118-121: the three subsets, in the order the script unpacks them. *)
Definition partition (dataset_len : nat) : result (Subset * Subset * Subset) :=
  let n := Z.of_nat dataset_len in
  tr <- num_training n ;;
  va <- num_val n ;;
  let te := num_test n tr va in
  parts <- random_split dataset_len [tr; va; te] ;;
  match parts with
  | [training_set; validation_set; test_set] =>
      Ok (training_set, validation_set, test_set)
  | _ => Raise ValueError
  end.

End WithGenerator.

(** One possible outcome of the generator: the positions in reverse. *)
Definition reversed (n : nat) : list nat := rev (seq 0 n).

End Partitioner.


(** ** The model (gcn.py, lines 25-67) *)

Module Net.

(** A float tensor of two dimensions, as its rows.  Entries are real
    numbers: rounding inside the layers is not modelled. *)
Definition Matrix : Type := list (list R).

(** A tensor of positions, with its shape ([[]] for a 0-dim tensor). *)
Record LongTensor : Type := { shape : list nat; data : list nat }.

(** A graph-convolution layer of torch_geometric, called as
    [conv(x, edge_index, edge_attr)]. *)
Definition ConvLayer : Type :=
  Matrix -> Splitter.EdgeIndex -> option Matrix -> result Matrix.

(** [torch.nn.Linear]. *)
Record Linear : Type := {
  in_features : nat;
  out_features : nat;
  weight : nat -> nat -> R;
  bias : nat -> R
}.

(** The fields of [args] that [Model] reads. *)
Record Args : Type := {
  a_num_features : nat;
  a_nhid : nat;
  a_num_classes : nat;
  a_dropout_ratio : Float64.float;
  a_model : string
}.

Record Model : Type := {
  args : Args;
  num_features : nat;
  nhid : nat;
  num_classes : nat;
  dropout_ratio : Float64.float;
  model : string;
  concat : bool;
  conv1 : option ConvLayer;
  lin0 : option Linear;
  lin1 : Linear
}.

(** A batch in merged-graph form. *)
Record Batch : Type := {
  x : Matrix;
  edge_index : Splitter.EdgeIndex;
  batch : list nat;
  num_graphs : nat;
  y : list Z
}.

(** Reading an attribute that [__init__] may have left unset. *)
Definition getattr {A : Type} (field : option A) : result A :=
  match field with
  | Some a => Ok a
  | None => Raise AttributeError
  end.

(** *** Tensor operations *)

Definition relu (m : Matrix) : Matrix := map (map (Rmax 0)) m.

Definition dot (w : nat -> R) (row : list R) : R :=
  fold_right Rplus 0%R (map (fun '(i, v) => (w i * v)%R) (enumerate row)).

Definition linear_row (l : Linear) (row : list R) : result (list R) :=
  if length row =? in_features l
  then Ok (map (fun j => (dot (weight l j) row + bias l j)%R)
               (seq 0 (out_features l)))
  else Raise RuntimeError.

(** [lin(m)]: every row must be [in_features] wide. *)
Definition linear (l : Linear) (m : Matrix) : result Matrix :=
  mapM (linear_row l) m.

Definition sum_exp (row : list R) : R :=
  fold_right Rplus 0%R (map exp row).

(** [F.log_softmax(m, dim=-1)] *)
Definition log_softmax (m : Matrix) : Matrix :=
  map (fun row => map (fun v => (v - ln (sum_exp row))%R) row) m.

(** [torch.cat([a, b], dim=1)] *)
Definition cat1 (a b : Matrix) : result Matrix :=
  if length a =? length b
  then Ok (map (fun '(r1, r2) => r1 ++ r2) (combine a b))
  else Raise RuntimeError.

(** [torch.stack(rows)] *)
Definition stack (rows : list (list R)) : result Matrix :=
  match rows with
  | [] => Raise RuntimeError
  | r :: rs =>
      if forallb (fun r' => length r' =? length r) rs
      then Ok rows
      else Raise RuntimeError
  end.

Definition list_max (l : list nat) : nat := fold_right Nat.max 0 l.

(** The rows of [m] that belong to graph [g]. *)
Definition group_rows (m : Matrix) (batch : list nat) (g : nat) : Matrix :=
  map fst (filter (fun p => snd p =? g) (combine m batch)).

Fixpoint zip_max (a b : list R) : list R :=
  match a, b with
  | u :: a', v :: b' => Rmax u v :: zip_max a' b'
  | _, _ => []
  end.

(** The element-wise maximum of a group of rows; a group without rows is
    filled with zeros. *)
Definition max_rows (width : nat) (rows : Matrix) : list R :=
  match rows with
  | [] => repeat 0%R width
  | r :: rs => fold_left zip_max rs r
  end.

(** The number of groups [scatter] makes when it is given no size: one per
    id up to the largest in the index, none for an empty index. *)
Definition num_ids (index : list nat) : nat :=
  match index with
  | [] => 0
  | _ => S (list_max index)
  end.

(** [broadcast(index, m, 0)]: an index of a single entry is expanded over
    all rows of [m]; any other index is taken as it is. *)
Definition broadcast (index : list nat) (m : Matrix) : list nat :=
  match index with
  | [g] => repeat g (length m)
  | _ => index
  end.

(** [global_max_pool(m, batch)], a [scatter] of the rows of [m] with the
    maximum as reduction: the index must cover the rows of [m] once it is
    broadcast, and the result has one row per group. *)
Definition gmp (m : Matrix) (batch : list nat) : result Matrix :=
  let size := num_ids batch in
  let index := broadcast batch m in
  if negb (length m =? length index) then Raise RuntimeError
  else
    let width := match m with r :: _ => length r | [] => 0 end in
    Ok (map (fun g => max_rows width (group_rows m index g)) (seq 0 size)).

(** [data.batch == idx] *)
Definition eq_mask (batch : list nat) (idx : nat) : list bool :=
  map (fun b => b =? idx) batch.

Fixpoint positions_from (i : nat) (mask : list bool) : list nat :=
  match mask with
  | [] => []
  | b :: mask' =>
      if b then i :: positions_from (S i) mask'
      else positions_from (S i) mask'
  end.

(** [mask.nonzero()]: a [k x 1] tensor of the positions that are set. *)
Definition nonzero (mask : list bool) : LongTensor :=
  let pos := positions_from 0 mask in
  {| shape := [length pos; 1]; data := pos |}.

(** [t.squeeze()]: every dimension of size one is dropped. *)
Definition squeeze (t : LongTensor) : LongTensor :=
  {| shape := filter (fun d => negb (d =? 1)) (shape t); data := data t |}.

(** [t[0]]: a 0-dim tensor cannot be indexed, nor can an empty dimension. *)
Definition index0 (t : LongTensor) : result LongTensor :=
  match shape t with
  | [] => Raise IndexError
  | d :: rest =>
      if d =? 0 then Raise IndexError
      else Ok {| shape := rest;
                 data := firstn (fold_right Nat.mul 1 rest) (data t) |}
  end.

(** [m[t]] for a 0-dim position tensor [t]: one row of [m]. *)
Definition row_at (m : Matrix) (t : LongTensor) : result (list R) :=
  match shape t, data t with
  | [], [p] => getitem m p
  | _, _ => Raise IndexError
  end.

(** Line 59, the body of the comprehension:
    [data.x[(data.batch == idx).nonzero().squeeze()[0]]]. *)
Definition first_node_features (d : Batch) (idx : nat) : result (list R) :=
  pos <- index0 (squeeze (nonzero (eq_mask (batch d) idx))) ;;
  row_at (x d) pos.

Section WithLayers.

(** The layer constructors of torch_geometric. *)
Variables GCNConv SAGEConv GATConv : nat -> nat -> ConvLayer.

(** The initial parameters of a [torch.nn.Linear] called [name]. *)
Variable init_weight : string -> nat -> nat -> R.
Variable init_bias : string -> nat -> R.

Definition new_Linear (name : string) (fan_in fan_out : nat) : Linear :=
  {| in_features := fan_in; out_features := fan_out;
     weight := init_weight name; bias := init_bias name |}.

(** [Model.__init__], lines 26-47. *)
Definition init (a : Args) (concat : bool) : Model :=
  let num_features := a_num_features a in
  let nhid := a_nhid a in
  let num_classes := a_num_classes a in
  let model := a_model a in
  let conv1 :=
    if String.eqb model "gcn" then Some (GCNConv num_features nhid)
    else if String.eqb model "sage" then Some (SAGEConv num_features nhid)
    else if String.eqb model "gat" then Some (GATConv num_features nhid)
    else None in
  let lins :=
    if concat
    then (Some (new_Linear "lin0" num_features nhid),
          new_Linear "lin1" (nhid * 2) num_classes)
    else (None, new_Linear "lin1" nhid num_classes) in
  {| args := a; num_features := num_features; nhid := nhid;
     num_classes := num_classes; dropout_ratio := a_dropout_ratio a;
     model := model; concat := concat;
     conv1 := conv1; lin0 := fst lins; lin1 := snd lins |}.

End WithLayers.

(** Lines 51-61: the embedding that reaches [lin1], in either branch. *)
Definition embedding (self : Model) (d : Batch) : result Matrix :=
  let edge_attr : option Matrix := None in
  conv <- getattr (conv1 self) ;;
  h <- conv (x d) (edge_index d) edge_attr ;;
  let h := relu h in
  pooled <- gmp h (batch d) ;;
  if concat self then
    rows <- mapM (first_node_features d) (seq 0 (num_graphs d)) ;;
    news <- stack rows ;;
    l0 <- getattr (lin0 self) ;;
    news <- linear l0 news ;;
    let news := relu news in
    cat1 pooled news
  else Ok pooled.

(** [Model.forward], lines 49-67: both branches end with
    [F.log_softmax(self.lin1(x), dim=-1)]. *)
Definition forward (self : Model) (d : Batch) : result Matrix :=
  e <- embedding self d ;;
  z <- linear (lin1 self) e ;;
  Ok (log_softmax z).

(** [m] has [r] rows of [c] entries each. *)
Definition has_shape (m : Matrix) (r c : nat) : Prop :=
  length m = r /\ Forall (fun row => length row = c) m.

(** The number of nodes of graph [g] in a batch-assignment vector. *)
Definition node_count (batch : list nat) (g : nat) : nat :=
  count_occ Nat.eq_dec batch g.

(** Every edge joins two of the [n] nodes. *)
Definition edges_in_range (ei : Splitter.EdgeIndex) (n : nat) : Prop :=
  forall s t, In (s, t) ei ->
    (0 <= s < Z.of_nat n)%Z /\ (0 <= t < Z.of_nat n)%Z.

(** What the script relies on from a convolution layer built for [fan_in]
    input and [fan_out] output channels: one output row per node. *)
Definition conv_contract (conv : ConvLayer) (fan_in fan_out : nat) : Prop :=
  forall m ei n,
    has_shape m n fan_in -> edges_in_range ei n ->
    exists h, conv m ei None = Ok h /\ has_shape h n fan_out.

(** A batch as the loader merges it: one feature row per entry of the batch
    vector, graph ids below [num_graphs], edges between nodes of the batch,
    and at least [min_nodes] nodes in every graph. *)
Definition well_formed (num_features min_nodes : nat) (d : Batch) : Prop :=
  has_shape (x d) (length (batch d)) num_features /\
  edges_in_range (edge_index d) (length (batch d)) /\
  1 <= num_graphs d /\
  (forall g, In g (batch d) -> g < num_graphs d) /\
  (forall g, g < num_graphs d -> min_nodes <= node_count (batch d) g).

(** No entry of [m] is negative. *)
Definition non_negative (m : Matrix) : Prop :=
  forall row v, In row m -> In v row -> (0 <= v)%R.

(** The model types for which [__init__] builds a layer. *)
Definition supported (name : string) : Prop :=
  name = "gcn"%string \/ name = "sage"%string \/ name = "gat"%string.

(** A stand-in for the three layer constructors: every node is projected
    on its own, with all weights one. *)
Definition sample_conv (fan_in fan_out : nat) : ConvLayer :=
  fun m _ _ =>
    linear {| in_features := fan_in; out_features := fan_out;
              weight := fun _ _ => 1%R; bias := fun _ => 0%R |} m.

Definition sample_weight (name : string) (j i : nat) : R := 1%R.
Definition sample_bias (name : string) (j : nat) : R := 0%R.

Definition sample_args (name : string) : Args :=
  {| a_num_features := 8; a_nhid := 4; a_num_classes := 2;
     a_dropout_ratio := Float64.lit_0_0; a_model := name |}.

(** [Model(args, concat)] with the stand-in layers. *)
Definition sample_model (name : string) (concat : bool) : Model :=
  init sample_conv sample_conv sample_conv sample_weight sample_bias
       (sample_args name) concat.

(** Two graphs of three and four nodes, eight features per node. *)
Definition sample_batch : Batch :=
  {| x := repeat (repeat 1%R 8) 7;
     edge_index := [(0, 1); (1, 2); (3, 4); (4, 5); (5, 6)]%Z;
     batch := [0; 0; 0; 1; 1; 1; 1];
     num_graphs := 2;
     y := [0; 1]%Z |}.

(** One graph that consists of a single node. *)
Definition single_node_batch : Batch :=
  {| x := [repeat 1%R 8];
     edge_index := [];
     batch := [0];
     num_graphs := 1;
     y := [1%Z] |}.

End Net.

(** ** Command-line flags (gcn.py, lines 69-88) *)

Module Cli.

Local Open Scope string_scope.

(** The [type=] of an argument. *)
Inductive arg_type : Type := TInt | TFloat | TBool | TStr.

Inductive value : Type :=
| VInt (n : Z)
| VFloat (f : Float64.float)
| VBool (b : bool)
| VStr (s : string).

(** One [parser.add_argument('--dest', type=..., default=...)]. *)
Record argument : Type := {
  dest : string;
  type : arg_type;
  default : value
}.

(** The arguments of lines 71-86, in source order. *)
Definition parser : list argument :=
  [ {| dest := "seed"; type := TInt; default := VInt 777 |};
    {| dest := "device"; type := TStr; default := VStr "cuda:0" |};
    {| dest := "dataset"; type := TStr; default := VStr "politifact" |};
    {| dest := "batch_size"; type := TInt; default := VInt 128 |};
    {| dest := "lr"; type := TFloat; default := VFloat Float64.lit_0_001 |};
    {| dest := "weight_decay"; type := TFloat;
       default := VFloat Float64.lit_0_01 |};
    {| dest := "nhid"; type := TInt; default := VInt 128 |};
    {| dest := "dropout_ratio"; type := TFloat;
       default := VFloat Float64.lit_0_0 |};
    {| dest := "epochs"; type := TInt; default := VInt 80 |};
    {| dest := "concat"; type := TBool; default := VBool true |};
    {| dest := "no_feature"; type := TBool; default := VBool false |};
    {| dest := "multi_gpu"; type := TBool; default := VBool true |};
    {| dest := "feature"; type := TStr; default := VStr "bert" |};
    {| dest := "model"; type := TStr; default := VStr "sage" |} ].

(** Python's [bool(s)] on a string: true unless the string is empty. *)
Definition py_bool (s : string) : bool :=
  match s with
  | EmptyString => false
  | String _ _ => true
  end.

(** The namespace returned by [parse_args]. *)
Definition Namespace : Type := list (string * value).

Definition setattr (ns : Namespace) (name : string) (v : value) : Namespace :=
  map (fun kv => if String.eqb (fst kv) name then (fst kv, v) else kv) ns.

Definition getattr (ns : Namespace) (name : string) : option value :=
  option_map snd (find (fun kv => String.eqb (fst kv) name) ns).

Definition find_argument (name : string) : option argument :=
  find (fun a => String.eqb (dest a) name) parser.

(** An option as it occurs on the command line: its destination and the
    string passed for it ([--concat False] is [("concat", "False")], and
    [--concat=] is [("concat", "")]). *)
Definition occurrence : Type := (string * string)%type.

Section WithConversions.

(** Python's [int(s)] and [float(s)] on a string; [None] when they raise
    ValueError. *)
Variable py_int : string -> option Z.
Variable py_float : string -> option Float64.float.

(** The conversion argparse applies to the string given for an argument;
    [None] when the [type] callable raises. *)
Definition convert (t : arg_type) (s : string) : option value :=
  match t with
  | TInt => option_map VInt (py_int s)
  | TFloat => option_map VFloat (py_float s)
  | TBool => Some (VBool (py_bool s))
  | TStr => Some (VStr s)
  end.

(** [parse_args]: every argument starts at its default, and each occurrence
    stores the converted string, later ones overwriting earlier ones; an
    unknown option or a string its [type] refuses makes argparse exit. *)
Definition parse_args (occs : list occurrence) : option Namespace :=
  fold_left
    (fun ns occ =>
       match ns, find_argument (fst occ) with
       | Some ns, Some a =>
           match convert (type a) (snd occ) with
           | Some v => Some (setattr ns (dest a) v)
           | None => None
           end
       | _, _ => None
       end)
    occs
    (Some (map (fun a => (dest a, default a)) parser)).

End WithConversions.

(** The string given by the last occurrence of [name], if there is one. *)
Definition last_given (occs : list occurrence) (name : string) : option string :=
  option_map snd (find (fun occ => String.eqb (fst occ) name) (rev occs)).

Definition bool_flags : list string := ["concat"; "no_feature"; "multi_gpu"].

Definition str_flags : list string := ["device"; "dataset"; "feature"; "model"].

(** The [default=] of an argument. *)
Definition default_of (name : string) : option value :=
  option_map default (find_argument name).

(** A stand-in for [int] on strings of decimal digits. *)
Definition digit (c : ascii) : option Z :=
  let n := Z.of_nat (nat_of_ascii c) in
  if ((48 <=? n) && (n <=? 57))%Z then Some (n - 48)%Z else None.

Fixpoint decimal_from (acc : Z) (s : string) : option Z :=
  match s with
  | EmptyString => Some acc
  | String c s' =>
      match digit c with
      | Some d => decimal_from (10 * acc + d)%Z s'
      | None => None
      end
  end.

Definition decimal (s : string) : option Z :=
  match s with
  | EmptyString => None
  | _ => decimal_from 0%Z s
  end.

(** A stand-in for [float] that reads no string. *)
Definition no_float (s : string) : option Float64.float := None.

End Cli.

(** ** Loading and partitioning the dataset (gcn.py, lines 93-121) *)

Module Script.

Section WithProvider.

Variable F : Type.

(** The constant that [torch.ones] fills a tensor with. *)
Variable one : F.

(** The [transform=ToUndirected()] the provider applies to every record it
    hands out. *)
Variable transform : Splitter.Data F -> Splitter.Data F.

Variable randperm : nat -> list nat.

(** [dataset]: the concatenated store and its slice boundaries. *)
Record Dataset : Type := {
  data : Splitter.Collated F;
  slices : Splitter.Slices
}.

(** Modelled from the spec: [len(dataset)] of the dataset provider
    (data_loader.py), the number of graphs delimited by the slice
    boundaries. *)
Definition dataset_len (ds : Dataset) : nat :=
  length (Splitter.edge_slices (slices ds)) - 1.

(** Modelled from the spec: [dataset[i]] of the dataset provider
    (data_loader.py): node features and edges sliced at the boundaries of
    graph [i], with its label, passed through the transform. *)
Definition dataset_getitem (ds : Dataset) (i : nat) : result (Splitter.Data F) :=
  let d := data ds in
  let s := slices ds in
  e0 <- getitem (Splitter.edge_slices s) i ;;
  e1 <- getitem (Splitter.edge_slices s) (i + 1) ;;
  n0 <- getitem (Splitter.node_slices s) i ;;
  n1 <- getitem (Splitter.node_slices s) (i + 1) ;;
  lbl <- getitem (Splitter.c_y d) i ;;
  n <- getitem (Splitter.c_num_nodes d) i ;;
  Ok (transform
        {| Splitter.x := slice n0 n1 (Splitter.c_x d);
           Splitter.edge_index := slice e0 e1 (Splitter.c_edge_index d);
           Splitter.y := lbl;
           Splitter.num_nodes := n |}).

(** [subset[i]] is [dataset[subset.indices[i]]]; all items of a subset. *)
Definition subset_items (ds : Dataset) (sub : Partitioner.Subset)
  : result (list (Splitter.Data F)) :=
  mapM (dataset_getitem ds) (Partitioner.indices sub).

(** Lines 95-96: [dataset.data.x = torch.ones(dataset.data.x.shape)]. *)
Definition apply_no_feature (no_feature : bool) (ds : Dataset) : Dataset :=
  if no_feature
  then {| data := {| Splitter.c_x := map (map (fun _ => one)) (Splitter.c_x (data ds));
                     Splitter.c_edge_index := Splitter.c_edge_index (data ds);
                     Splitter.c_y := Splitter.c_y (data ds);
                     Splitter.c_num_nodes := Splitter.c_num_nodes (data ds) |};
          slices := slices ds |}
  else ds.

(** A record whose node features are all [one], everything else as in [g]. *)
Definition featureless (g : Splitter.Data F) : Splitter.Data F :=
  {| Splitter.x := map (map (fun _ => one)) (Splitter.x g);
     Splitter.edge_index := Splitter.edge_index g;
     Splitter.y := Splitter.y g;
     Splitter.num_nodes := Splitter.num_nodes g |}.

(** The variables bound by lines 93-121. *)
Record Loaded : Type := {
  dataset : Dataset;
  graph_list : list (Splitter.Data F);
  training_set : Partitioner.Subset;
  validation_set : Partitioner.Subset;
  test_set : Partitioner.Subset
}.

(** Lines 93-121.  Each pass of the splitter loop works on [cp.copy] of
    [dataset.data], a fresh record whose attributes are rebound, so [dataset]
    is the same after the loop; line 121 splits [dataset]. *)
Definition load (no_feature : bool) (ds : Dataset) : result Loaded :=
  let dataset := apply_no_feature no_feature ds in
  gl <- Splitter.graph_list (data dataset) (slices dataset) ;;
  parts <- Partitioner.partition randperm (dataset_len dataset) ;;
  let '(tr, va, te) := parts in
  Ok {| dataset := dataset; graph_list := gl;
        training_set := tr; validation_set := va; test_set := te |}.

(** The records a loader draws from a subset of the loaded dataset. *)
Definition records (l : Loaded) (sub : Partitioner.Subset)
  : result (list (Splitter.Data F)) :=
  subset_items (dataset l) sub.

End WithProvider.

(** Every edge of a record is a self-loop. *)
Definition only_self_loops {F : Type} (g : Splitter.Data F) : Prop :=
  forall s d, In (s, d) (Splitter.edge_index g) -> s = d.

(** A transform that adds the reverse of every edge. *)
Definition symmetrise {F : Type} (g : Splitter.Data F) : Splitter.Data F :=
  {| Splitter.x := Splitter.x g;
     Splitter.edge_index :=
       Splitter.edge_index g
       ++ map (fun c => (snd c, fst c)) (Splitter.edge_index g);
     Splitter.y := Splitter.y g;
     Splitter.num_nodes := Splitter.num_nodes g |}.

(** A dataset of one graph with two nodes and the edge [0 -> 1]. *)
Definition one_edge : Dataset Z :=
  {| data := {| Splitter.c_x := [[1]; [2]]%Z;
                Splitter.c_edge_index := [(0, 1)]%Z;
                Splitter.c_y := [1]%Z;
                Splitter.c_num_nodes := [2]%Z |};
     slices := {| Splitter.edge_slices := [0; 1]%Z;
                  Splitter.node_slices := [0; 2]%Z |} |}.

End Script.

(** ** Training and evaluation (gcn.py, lines 141-197) *)

Module Train.

(** What the main block takes from its surroundings: the two flags it
    reads, the library calls it makes on the model, and the three loaders.
    [M] is the model with its parameters and optimizer state, [Batch] what a
    loader yields, [Out] the output of the model, [Label] a label tensor,
    [Metrics] the tuple computed by [eval_deep]. *)
Record Env (M Batch Out Label Metrics : Type) : Type := {
  (** [args.multi_gpu], [args.epochs] *)
  multi_gpu : bool;
  epochs : Z;
  (** [model(data)], in training mode or in evaluation mode *)
  call : M -> bool -> Batch -> result Out;
  (** [data.to(args.device)] *)
  to_device : Batch -> Batch;
  (** [torch.cat([d.y.unsqueeze(0) for d in data]).squeeze().to(out.device)] *)
  y_of_list : Batch -> Out -> result Label;
  (** [data.y] *)
  y_of_batch : Batch -> result Label;
  (** [F.nll_loss(out, y)], read with [.item()] *)
  nll_loss : Out -> Label -> result Float64.float;
  (** [loss.backward()] followed by [optimizer.step()] *)
  backward_step : M -> Batch -> Out -> Label -> M;
  (** [F.softmax(out, dim=1)] *)
  softmax : Out -> Out;
  (** [eval_deep] of eval_helper *)
  eval_deep : list (Out * Label) -> result Metrics;
  (** the batches [train_loader] yields in a given epoch (it reshuffles),
      and those of the two loaders that do not shuffle *)
  train_loader : nat -> list Batch;
  val_loader : list Batch;
  test_loader : list Batch
}.

(** What the script prints. *)
Inductive Line (Metrics : Type) : Type :=
| EpochLine (loss_train : Float64.float) (train : Metrics)
            (loss_val : Float64.float) (val : Metrics)
| TestLine (test : Metrics).

(** The variables of the main block. *)
Record Vars (M Out Label Metrics : Type) : Type := {
  model : M;
  training : bool;
  min_loss : Float64.float;
  val_loss_values : list Float64.float;
  best_epoch : Z;
  out_log : list (Out * Label);
  loss_train : Float64.float;
  correct : Z;
  stdout : list (Line Metrics)
}.

(** The local variables of [compute_test]. *)
Record TestVars (Out Label : Type) : Type := {
  t_out_log : list (Out * Label);
  t_loss_test : Float64.float
}.

(** The control points of the main block. *)
Inductive point : Type :=
| LoopHead (epoch : nat)
| InEpoch (epoch : nat) (batches_done : nat)
| Done.

Section Loop.

Variables M Batch Out Label Metrics : Type.
Variable env : Env M Batch Out Label Metrics.

Definition labels (data : Batch) (out : Out) : result Label :=
  if multi_gpu env then y_of_list env data out else y_of_batch env data.

Definition place (data : Batch) : Batch :=
  if negb (multi_gpu env) then to_device env data else data.

(** Lines 146-157: one pass of the loop of [compute_test]. *)
Definition test_batch (m : M) (t : TestVars Out Label) (data : Batch)
  : result (TestVars Out Label) :=
  let data := place data in
  out <- call env m false data ;;
  y <- labels data out ;;
  let log := t_out_log t ++ [(softmax env out, y)] in
  loss <- nll_loss env out y ;;
  Ok {| t_out_log := log; t_loss_test := Float64.add (t_loss_test t) loss |}.

(** [compute_test(loader)], lines 141-158: its [out_log] is a local list,
    and [model.eval()] leaves the model in evaluation mode. *)
Definition compute_test (v : Vars M Out Label Metrics) (loader : list Batch)
  : result (Vars M Out Label Metrics * (Metrics * Float64.float)) :=
  let t0 := {| t_out_log := []; t_loss_test := Float64.lit_0_0 |} in
  let v := {| model := model v; training := false; min_loss := min_loss v;
              val_loss_values := val_loss_values v; best_epoch := best_epoch v;
              out_log := out_log v; loss_train := loss_train v;
              correct := correct v; stdout := stdout v |} in
  t <- foldM (test_batch (model v)) loader t0 ;;
  metrics <- eval_deep env (t_out_log t) ;;
  Ok (v, (metrics, t_loss_test t)).

(** Lines 164-170: the state in which the epoch loop is entered.
    [loss_train] and [correct] are bound at the head of the first epoch. *)
Definition init_vars (m : M) : Vars M Out Label Metrics :=
  {| model := m; training := true; min_loss := Float64.lit_1e10;
     val_loss_values := []; best_epoch := 0%Z; out_log := [];
     loss_train := Float64.lit_0_0; correct := 0%Z; stdout := [] |}.

(** Lines 172-173. *)
Definition epoch_head (v : Vars M Out Label Metrics) : Vars M Out Label Metrics :=
  {| model := model v; training := training v; min_loss := min_loss v;
     val_loss_values := val_loss_values v; best_epoch := best_epoch v;
     out_log := out_log v; loss_train := Float64.lit_0_0; correct := 0%Z;
     stdout := stdout v |}.

(** Lines 175-187: one training step. *)
Definition train_batch (v : Vars M Out Label Metrics) (data : Batch)
  : result (Vars M Out Label Metrics) :=
  let data := place data in
  out <- call env (model v) (training v) data ;;
  y <- labels data out ;;
  loss <- nll_loss env out y ;;
  let m := backward_step env (model v) data out y in
  Ok {| model := m; training := training v; min_loss := min_loss v;
        val_loss_values := val_loss_values v; best_epoch := best_epoch v;
        out_log := out_log v ++ [(softmax env out, y)];
        loss_train := Float64.add (loss_train v) loss;
        correct := correct v; stdout := stdout v |}.

(** Lines 188-193: the metrics on the training log, the validation pass,
    and the line printed for the epoch. *)
Definition epoch_tail (v : Vars M Out Label Metrics)
  : result (Vars M Out Label Metrics) :=
  train_metrics <- eval_deep env (out_log v) ;;
  r <- compute_test v (val_loader env) ;;
  let '(v, (val_metrics, loss_val)) := r in
  Ok {| model := model v; training := training v; min_loss := min_loss v;
        val_loss_values := val_loss_values v; best_epoch := best_epoch v;
        out_log := out_log v; loss_train := loss_train v;
        correct := correct v;
        stdout := stdout v
                  ++ [EpochLine (loss_train v) train_metrics loss_val val_metrics] |}.

(** Lines 171-193: the body of the epoch loop. *)
Definition train_epoch (v : Vars M Out Label Metrics) (epoch : nat)
  : result (Vars M Out Label Metrics) :=
  v <- foldM train_batch (train_loader env epoch) (epoch_head v) ;;
  epoch_tail v.

(** Lines 195-197. *)
Definition final_test (v : Vars M Out Label Metrics)
  : result (Vars M Out Label Metrics) :=
  r <- compute_test v (test_loader env) ;;
  let '(v, (metrics, test_loss)) := r in
  Ok {| model := model v; training := training v; min_loss := min_loss v;
        val_loss_values := val_loss_values v; best_epoch := best_epoch v;
        out_log := out_log v; loss_train := loss_train v;
        correct := correct v;
        stdout := stdout v ++ [TestLine metrics] |}.

(** [range(args.epochs)] *)
Definition epoch_range : list nat := seq 0 (Z.to_nat (epochs env)).

(** Lines 161-197. *)
Definition main (m : M) : result (Vars M Out Label Metrics) :=
  v <- foldM train_epoch epoch_range (init_vars m) ;;
  final_test v.

(** [at_point m p v]: started on model [m], the main block can be at
    control point [p] with its variables equal to [v]. *)
Inductive at_point (m : M) : point -> Vars M Out Label Metrics -> Prop :=
| at_start : at_point m (LoopHead 0) (init_vars m)
| at_enter : forall epoch v,
    at_point m (LoopHead epoch) v ->
    In epoch epoch_range ->
    at_point m (InEpoch epoch 0) (epoch_head v)
| at_batch : forall epoch i v data v',
    at_point m (InEpoch epoch i) v ->
    nth_error (train_loader env epoch) i = Some data ->
    train_batch v data = Ok v' ->
    at_point m (InEpoch epoch (S i)) v'
| at_tail : forall epoch v v',
    at_point m (InEpoch epoch (length (train_loader env epoch))) v ->
    epoch_tail v = Ok v' ->
    at_point m (LoopHead (S epoch)) v'
| at_exit : forall v v',
    at_point m (LoopHead (Z.to_nat (epochs env))) v ->
    final_test v = Ok v' ->
    at_point m Done v'.

Definition is_epoch_line (l : Line Metrics) : bool :=
  match l with EpochLine _ _ _ _ => true | TestLine _ => false end.

(** A statement leaves the trackers of lines 164-166 as they were. *)
Definition same_trackers (v v' : Vars M Out Label Metrics) : Prop :=
  min_loss v' = min_loss v /\ best_epoch v' = best_epoch v /\
  val_loss_values v' = val_loss_values v.

(** The trackers still hold what lines 164-166 put there. *)
Definition trackers_initial (v : Vars M Out Label Metrics) : Prop :=
  min_loss v = Float64.lit_1e10 /\ best_epoch v = 0%Z /\ val_loss_values v = [].

(** [e] lines have been printed, one per finished epoch. *)
Definition printed (e : nat) (v : Vars M Out Label Metrics) : Prop :=
  length (stdout v) = e /\ forallb is_epoch_line (stdout v) = true.

(** The number of pairs the training steps of the epochs before [e] log. *)
Definition pairs_before (e : nat) : nat :=
  fold_right Nat.add 0 (map (fun i => length (train_loader env i)) (seq 0 e)).

(** [pair] is what one pass of the loop of [compute_test] appends to its
    log for the batch [data], with the model [m] in evaluation mode. *)
Definition logged (m : M) (data : Batch) (pair : Out * Label) : Prop :=
  exists out y,
    call env m false (place data) = Ok out /\
    labels (place data) out = Ok y /\
    pair = (softmax env out, y).

(** Two states of the main block that differ at most in what has been
    printed and in the unused [correct]. *)
Definition same_training_state (v v' : Vars M Out Label Metrics) : Prop :=
  model v' = model v /\ training v' = training v /\
  out_log v' = out_log v /\ loss_train v' = loss_train v.

(** No call of the main block raises. *)
Definition never_raises : Prop :=
  (forall m mode d, exists out, call env m mode d = Ok out) /\
  (forall d out, exists y, y_of_list env d out = Ok y) /\
  (forall d, exists y, y_of_batch env d = Ok y) /\
  (forall out y, exists l, nll_loss env out y = Ok l) /\
  (forall log, exists ms, eval_deep env log = Ok ms).

End Loop.

Arguments init_vars {M Out Label Metrics} m.

(** A small instance: batches, outputs and labels are numbers, the model
    counts its optimizer steps, and the evaluator hands back the log it is
    given. *)
Definition sample_env : Env nat nat nat nat (list (nat * nat)) :=
  {| multi_gpu := true;
     epochs := 2;
     call := fun _ _ d => Ok d;
     to_device := fun d => d;
     y_of_list := fun d _ => Ok d;
     y_of_batch := fun d => Ok d;
     nll_loss := fun _ _ => Ok Float64.lit_0_0;
     backward_step := fun m _ _ _ => S m;
     softmax := fun out => out;
     eval_deep := fun log => Ok log;
     train_loader := fun e => [10 * e + 1; 10 * e + 2];
     val_loader := [3];
     test_loader := [4] |}.

(** The same surroundings with other batches behind [val_loader]. *)
Definition with_val_loader {M Batch Out Label Metrics : Type}
    (env : Env M Batch Out Label Metrics) (loader : list Batch)
  : Env M Batch Out Label Metrics :=
  {| multi_gpu := multi_gpu env; epochs := epochs env; call := call env;
     to_device := to_device env; y_of_list := y_of_list env;
     y_of_batch := y_of_batch env; nll_loss := nll_loss env;
     backward_step := backward_step env; softmax := softmax env;
     eval_deep := eval_deep env; train_loader := train_loader env;
     val_loader := loader; test_loader := test_loader env |}.

(** The small instance with a model that fails on batch 11, the first
    batch of the second epoch. *)
Definition failing_env : Env nat nat nat nat (list (nat * nat)) :=
  {| multi_gpu := multi_gpu sample_env;
     epochs := epochs sample_env;
     call := fun _ _ d => if d =? 11 then Raise RuntimeError else Ok d;
     to_device := to_device sample_env;
     y_of_list := y_of_list sample_env;
     y_of_batch := y_of_batch sample_env;
     nll_loss := nll_loss sample_env;
     backward_step := backward_step sample_env;
     softmax := softmax sample_env;
     eval_deep := eval_deep sample_env;
     train_loader := train_loader sample_env;
     val_loader := val_loader sample_env;
     test_loader := test_loader sample_env |}.

End Train.

(** * Properties *)

Module PyFacts.

Lemma bind_ok {A B} (c : result A) (k : A -> result B) (b : B) :
  Py.bind c k = Ok b -> exists a, c = Ok a /\ k a = Ok b.
Proof. destruct c as [a|e]; simpl; intros H; [eauto | discriminate]. Qed.

Lemma mapM_nth {A B} (f : A -> result B) :
  forall xs ys, mapM f xs = Ok ys ->
  forall i y, nth_error ys i = Some y ->
  exists x, nth_error xs i = Some x /\ f x = Ok y.
Proof.
  induction xs as [|x xs IH]; intros ys H i y Hy; simpl in H.
  - inversion H; subst. destruct i; discriminate.
  - apply bind_ok in H as (y0 & Hy0 & H).
    apply bind_ok in H as (ys0 & Hys0 & H). inversion H; subst; clear H.
    destruct i as [|i]; simpl in *.
    + inversion Hy; subst. eauto.
    + eauto.
Qed.

Lemma mapM_length {A B} (f : A -> result B) :
  forall xs ys, mapM f xs = Ok ys -> length ys = length xs.
Proof.
  induction xs as [|x xs IH]; intros ys H; simpl in H.
  - inversion H; reflexivity.
  - apply bind_ok in H as (y0 & Hy0 & H).
    apply bind_ok in H as (ys0 & Hys0 & H). inversion H; subst; simpl.
    f_equal; auto.
Qed.

Lemma enumerate_from_nth {A} (xs : list A) :
  forall k i p, nth_error (enumerate_from k xs) i = Some p ->
  fst p = k + i /\ nth_error xs i = Some (snd p).
Proof.
  induction xs as [|x xs IH]; intros k i p H; simpl in H.
  - destruct i; discriminate.
  - destruct i as [|i]; simpl in *.
    + inversion H; subst; simpl. split; [lia | reflexivity].
    + apply IH in H as [H1 H2]. split; [lia | assumption].
Qed.

Lemma nth_error_removelast {A} (l : list A) i a :
  nth_error (removelast l) i = Some a -> nth_error l i = Some a.
Proof.
  revert i; induction l as [|x l IH]; intros i H; simpl in H.
  - destruct i; discriminate.
  - destruct l as [|x' l'].
    + destruct i; discriminate.
    + destruct i as [|i]; simpl in *; auto.
Qed.

(** [mapM] returns when every call returns, and otherwise raises what the
    first failing call raises. *)
Lemma mapM_ok {A B} (f : A -> result B) (xs : list A) :
  (forall x, In x xs -> exists y, f x = Ok y) ->
  exists ys, mapM f xs = Ok ys.
Proof.
  induction xs as [|x xs IH]; intros H; simpl; [eauto|].
  destruct (H x (or_introl eq_refl)) as (y & ->). simpl.
  destruct IH as (ys & ->); [intros; apply H; now right|]. simpl. eauto.
Qed.

Lemma mapM_raise {A B} (f : A -> result B) (xs : list A) (e : exn) :
  (forall x, In x xs -> forall e', f x = Raise e' -> e' = e) ->
  (exists x, In x xs /\ exists e', f x = Raise e') ->
  mapM f xs = Raise e.
Proof.
  induction xs as [|x xs IH]; intros Hall (x0 & Hin & e' & He'); [contradiction|].
  simpl. destruct (f x) as [y|e1] eqn:Ef; simpl.
  - destruct Hin as [<-|Hin]; [congruence|].
    rewrite IH; [reflexivity| |eauto]. intros; eapply Hall; eauto. now right.
  - f_equal. eapply Hall; [now left | exact Ef].
Qed.

End PyFacts.

Module SplitterFacts.
Import PyFacts Splitter.

Lemma select_row0 (ei : EdgeIndex) :
  select (self_loop_mask ei) (row0 ei) = map fst (filter is_self_loop ei).
Proof.
  induction ei as [|[s d] ei IH]; simpl; [reflexivity|].
  unfold is_self_loop at 1; simpl. destruct (s =? d)%Z; simpl; now rewrite <- IH.
Qed.

Lemma select_row1 (ei : EdgeIndex) :
  select (self_loop_mask ei) (row1 ei) = map snd (filter is_self_loop ei).
Proof.
  induction ei as [|[s d] ei IH]; simpl; [reflexivity|].
  unfold is_self_loop at 1; simpl. destruct (s =? d)%Z; simpl; now rewrite <- IH.
Qed.

Lemma combine_fst_snd {A B} (l : list (A * B)) :
  combine (map fst l) (map snd l) = l.
Proof. induction l as [|[a b] l IH]; simpl; congruence. Qed.

Lemma even_double n : Nat.even (n + n) = true.
Proof. replace (n + n) with (2 * n) by lia. apply Nat.even_spec. now exists n. Qed.

Lemma div2_double n : Nat.div2 (n + n) = n.
Proof. replace (n + n) with (2 * n) by lia. apply Nat.div2_double. Qed.

(** The mask and the reshape together keep exactly the self-loop columns. *)
Lemma extract_self_loops_filter (ei : EdgeIndex) :
  extract_self_loops ei = Ok (filter is_self_loop ei).
Proof.
  unfold extract_self_loops, reshape_2, masked_select.
  rewrite select_row0, select_row1.
  set (l := filter is_self_loop ei).
  rewrite length_app, !length_map, even_double, div2_double.
  rewrite firstn_app, firstn_all2 by (rewrite length_map; lia).
  rewrite length_map, Nat.sub_diag; simpl. rewrite app_nil_r.
  rewrite skipn_app, skipn_all2 by (rewrite length_map; lia).
  rewrite length_map, Nat.sub_diag; simpl.
  now rewrite combine_fst_snd.
Qed.

Section WithFeatures.
Variable F : Type.

Lemma split_one_edges (d : Collated F) s index es ns g :
  split_one d s index es ns = Ok g ->
  exists e1, nth_error (edge_slices s) (index + 1) = Some e1 /\
  edge_index g = filter is_self_loop (slice es e1 (c_edge_index d)).
Proof.
  unfold split_one, getitem. intros H.
  destruct (nth_error (edge_slices s) (index + 1)) as [e1|] eqn:E1; simpl in H; [|discriminate].
  rewrite extract_self_loops_filter in H; simpl in H.
  destruct (nth_error (c_num_nodes d) index); simpl in H; [|discriminate].
  destruct (nth_error (node_slices s) (index + 1)); simpl in H; [|discriminate].
  destruct (nth_error (c_y d) index); simpl in H; [|discriminate].
  inversion H; subst; simpl. eauto.
Qed.

Lemma graph_list_edges (d : Collated F) s gl i g :
  graph_list d s = Ok gl -> nth_error gl i = Some g ->
  edge_index g = filter is_self_loop (edge_slice_of d s i).
Proof.
  unfold graph_list. intros H Hg.
  destruct (mapM_nth _ _ H _ Hg) as ([k [es ns]] & Hx & Hf).
  apply enumerate_from_nth in Hx as [Hk Hx]. simpl in Hk, Hx. subst k.
  apply split_one_edges in Hf as (e1 & He1 & ->).
  unfold edge_slice_of.
  destruct (nth_error (combine (drop_last (edge_slices s)) (drop_last (node_slices s))) i)
    as [[a b]|] eqn:E; [|discriminate].
  inversion Hx; subst a b.
  assert (Hes : nth_error (edge_slices s) i = Some es).
  { apply nth_error_removelast.
    revert E. unfold drop_last.
    generalize (removelast (edge_slices s)) (removelast (node_slices s)) i.
    induction l as [|u l IH]; intros l' j; destruct l' as [|u' l']; destruct j; simpl; try discriminate.
    - intros Hq; inversion Hq; reflexivity.
    - apply IH. }
  rewrite (nth_error_nth _ _ 0%Z Hes), (nth_error_nth _ _ 0%Z He1). reflexivity.
Qed.

(** C1: every record the splitter appends to [graph_list] keeps exactly the
    self-loop columns of its edge slice: every retained edge has its source
    equal to its destination, and a graph whose slice has no self-loop is
    left with an empty edge index. *)
Theorem splitter_keeps_only_self_loops (d : Collated F) (s : Slices) gl :
  graph_list d s = Ok gl ->
  (forall i g, nth_error gl i = Some g ->
     edge_index g = filter is_self_loop (edge_slice_of d s i)) /\
  (forall g, In g gl ->
     forall src dst, In (src, dst) (edge_index g) -> src = dst) /\
  (forall i g, nth_error gl i = Some g ->
     (forall src dst, In (src, dst) (edge_slice_of d s i) -> src <> dst) ->
     edge_index g = []).
Proof.
  intros H. split; [|split].
  - intros i g Hg. eapply graph_list_edges; eauto.
  - intros g Hin src dst Hedge.
    apply In_nth_error in Hin as [i Hg].
    rewrite (graph_list_edges _ _ _ H Hg) in Hedge.
    apply filter_In in Hedge as [_ Hloop].
    unfold is_self_loop in Hloop; simpl in Hloop. now apply Z.eqb_eq.
  - intros i g Hg Hnone.
    rewrite (graph_list_edges _ _ _ H Hg).
    revert Hnone. generalize (edge_slice_of d s i). intros l.
    induction l as [|[a b] l IH]; intros Hnone; simpl; [reflexivity|].
    unfold is_self_loop at 1; simpl.
    destruct (Z.eqb_spec a b) as [->|Hne].
    + exfalso. apply (Hnone b b); [now left | reflexivity].
    + apply IH. intros; apply Hnone; now right.
Qed.

End WithFeatures.
End SplitterFacts.

Module FloatFacts.
Import Float64.
Local Open Scope Z_scope.

Lemma digits2_size (p : positive) : digits2_pos p = Pos.size p.
Proof. induction p; simpl; congruence. Qed.

Lemma digits2_bounds (p : positive) :
  2 ^ (Zpos (digits2_pos p) - 1) <= Zpos p < 2 ^ Zpos (digits2_pos p).
Proof.
  induction p as [p IH|p IH|]; simpl digits2_pos.
  - rewrite Pos2Z.inj_succ.
    replace (Z.succ (Zpos (digits2_pos p)) - 1) with (Z.succ (Zpos (digits2_pos p) - 1)) by lia.
    rewrite !Z.pow_succ_r by lia. lia.
  - rewrite Pos2Z.inj_succ.
    replace (Z.succ (Zpos (digits2_pos p)) - 1) with (Z.succ (Zpos (digits2_pos p) - 1)) by lia.
    rewrite !Z.pow_succ_r by lia. lia.
  - simpl. lia.
Qed.

(** The number of binary digits is fixed by the powers of two around. *)
Lemma digits2_unique (p : positive) (d : Z) :
  2 ^ (d - 1) <= Zpos p < 2 ^ d -> 0 < d -> Zpos (digits2_pos p) = d.
Proof.
  intros [Hlo Hhi] Hd.
  pose proof (digits2_bounds p) as [Blo Bhi].
  assert (Hp : 0 < Zpos (digits2_pos p)) by lia.
  destruct (Z.lt_trichotomy (Zpos (digits2_pos p)) d) as [Hlt|[Heq|Hgt]]; [|assumption|].
  - exfalso.
    assert (2 ^ Zpos (digits2_pos p) <= 2 ^ (d - 1)) by (apply Z.pow_le_mono_r; lia). lia.
  - exfalso.
    assert (2 ^ d <= 2 ^ (Zpos (digits2_pos p) - 1)) by (apply Z.pow_le_mono_r; lia). lia.
Qed.

Lemma iter_pos_nat {A} (f : A -> A) (p : positive) (x : A) :
  SpecFloat.iter_pos f p x = Nat.iter (Pos.to_nat p) f x.
Proof.
  revert x; induction p as [p IH|p IH|]; intros x; cbn [SpecFloat.iter_pos].
  - rewrite !IH, Pos2Nat.inj_xI.
    replace (S (2 * Pos.to_nat p)) with (Pos.to_nat p + (Pos.to_nat p + 1))%nat by lia.
    rewrite !Nat.iter_add. reflexivity.
  - rewrite !IH, Pos2Nat.inj_xO.
    replace (2 * Pos.to_nat p)%nat with (Pos.to_nat p + Pos.to_nat p)%nat by lia.
    rewrite Nat.iter_add. reflexivity.
  - reflexivity.
Qed.

Lemma shr_1_nonneg (m : Z) (r s : bool) :
  0 <= m ->
  shr_1 {| shr_m := m; shr_r := r; shr_s := s |} =
  {| shr_m := m / 2; shr_r := Z.odd m; shr_s := r || s |}.
Proof.
  intros Hm. destruct m as [|p|p]; [reflexivity| |lia].
  destruct p as [p|p|]; [| |reflexivity].
  - assert (E : Z.pos p~1 / 2 = Z.pos p)
      by (symmetry; apply Z.div_unique with 1; lia).
    rewrite E. reflexivity.
  - assert (E : Z.pos p~0 / 2 = Z.pos p)
      by (symmetry; apply Z.div_unique with 0; lia).
    rewrite E. reflexivity.
Qed.

Lemma shifted_first (m0 : Z) :
  0 <= m0 ->
  shifted m0 0 (shr_1 {| shr_m := m0; shr_r := false; shr_s := false |}).
Proof.
  intros H. rewrite shr_1_nonneg by assumption.
  unfold shifted; cbn [shr_m shr_r shr_s orb].
  change (Z.of_nat 1) with 1. change (Z.of_nat 0) with 0.
  change (2 ^ 1) with 2. change (2 ^ 0) with 1.
  split.
  - apply Z.div_pos; lia.
  - exists 0. split; [lia|]. split.
    + rewrite (Z.div_mod m0 2) at 1 by lia.
      rewrite Zmod_odd. destruct (Z.odd m0); simpl b2z; lia.
    + split; [discriminate | congruence].
Qed.

Lemma shifted_next (m0 : Z) (k : nat) (r : shr_record) :
  shifted m0 k r -> shifted m0 (S k) (shr_1 r).
Proof.
  destruct r as [m r s]. unfold shifted; cbn [shr_m shr_r shr_s].
  intros [Hm (low & Hlow & Heq & Hs)].
  rewrite shr_1_nonneg by assumption. cbn [shr_m shr_r shr_s]. split.
  - apply Z.div_pos; lia.
  - exists (b2z r * 2 ^ Z.of_nat k + low).
    assert (Hp : 0 < 2 ^ Z.of_nat k) by (apply Z.pow_pos_nonneg; lia).
    assert (E1 : 2 ^ Z.of_nat (S k) = 2 * 2 ^ Z.of_nat k)
      by (rewrite Nat2Z.inj_succ, Z.pow_succ_r by lia; reflexivity).
    assert (E2 : 2 ^ Z.of_nat (S (S k)) = 4 * 2 ^ Z.of_nat k)
      by (rewrite !Nat2Z.inj_succ, !Z.pow_succ_r by lia; ring).
    rewrite E1, E2. rewrite E1 in Heq.
    split; [destruct r; simpl b2z; lia|]. split.
    + rewrite Heq.
      rewrite (Z.div_mod m 2) at 1 by lia. rewrite Zmod_odd.
      destruct (Z.odd m); simpl b2z; ring.
    + destruct Hs as [Hs1 Hs2].
      destruct r; simpl b2z; cbn [orb].
      * split; [intros _; lia | reflexivity].
      * split; [intros Hs; apply Hs1 in Hs; lia | intros Hl; apply Hs2; lia].
Qed.

Lemma shifted_iter (m0 : Z) (k : nat) :
  0 <= m0 ->
  shifted m0 k (Nat.iter (S k) shr_1 {| shr_m := m0; shr_r := false; shr_s := false |}).
Proof.
  intros H. induction k as [|k IH].
  - apply shifted_first; assumption.
  - change (Nat.iter (S (S k)) shr_1 ?x) with (shr_1 (Nat.iter (S k) shr_1 x)).
    apply shifted_next; assumption.
Qed.


Lemma shr_fexp_unfold (m : positive) (e : Z) :
  shr_fexp prec emax (Zpos m) e loc_Exact =
  shr {| shr_m := Zpos m; shr_r := false; shr_s := false |} e
      (Z.max (Zpos (digits2_pos m) + e - 53) (-1074) - e).
Proof. reflexivity. Qed.

(** A mantissa of at most 53 digits is kept as it is. *)
Lemma shr_fexp_keep (m : positive) (e : Z) :
  Zpos (digits2_pos m) <= 53 -> -1074 <= e ->
  shr_fexp prec emax (Zpos m) e loc_Exact =
  ({| shr_m := Zpos m; shr_r := false; shr_s := false |}, e).
Proof.
  intros Hd He. rewrite shr_fexp_unfold.
  destruct (Z.max (Zpos (digits2_pos m) + e - 53) (-1074) - e) eqn:E;
    try reflexivity. lia.
Qed.

(** A longer mantissa is shifted down to 53 digits. *)
Lemma shr_fexp_shift (m : positive) (e : Z) (n : positive) :
  Zpos (digits2_pos m) - 53 = Zpos n -> -1074 <= e + Zpos n ->
  shr_fexp prec emax (Zpos m) e loc_Exact =
  (Nat.iter (Pos.to_nat n) shr_1
     {| shr_m := Zpos m; shr_r := false; shr_s := false |}, e + Zpos n).
Proof.
  intros Hd He. rewrite shr_fexp_unfold.
  replace (Z.max (Zpos (digits2_pos m) + e - 53) (-1074) - e) with (Zpos n) by lia.
  unfold shr. now rewrite iter_pos_nat.
Qed.

Lemma round_nearest_even_cases (r : shr_record) :
  let m1 := round_nearest_even (shr_m r) (loc_of_shr_record r) in
  m1 = shr_m r \/ (m1 = shr_m r + 1 /\ shr_r r = true).
Proof.
  destruct r as [m [|] [|]]; simpl; auto.
  destruct (Z.even m); auto.
Qed.

(** Rounding a product of more than 53 digits: the result is the quotient
    by [2 ^ n], or one more when the remainder is at least a half. *)
Lemma binary_round_aux_shift (mx : positive) (ex : Z) (n : positive) :
  Zpos (digits2_pos mx) - 53 = Zpos n ->
  -1074 <= ex + Zpos n -> ex + Zpos n + 1 <= 971 ->
  exists (m2 : positive) (e2 m1 : Z),
    binary_round_aux prec emax false (Zpos mx) ex loc_Exact
      = S754_finite false m2 e2 /\
    ((e2 = ex + Zpos n /\ Zpos m2 = m1) \/
     (e2 = ex + Zpos n + 1 /\ 2 * Zpos m2 = m1)) /\
    (m1 = Zpos mx / 2 ^ Zpos n \/
     (m1 = Zpos mx / 2 ^ Zpos n + 1 /\
      2 ^ (Zpos n - 1) <= Zpos mx mod 2 ^ Zpos n)).
Proof.
  intros Hd Hlo Hhi.
  unfold binary_round_aux. rewrite (shr_fexp_shift mx ex Hd Hlo).
  destruct (Pos2Nat.is_succ n) as [k Hk]. rewrite Hk.
  pose proof (@shifted_iter (Zpos mx) k ltac:(lia)) as Hsh.
  set (rec := Nat.iter (S k) shr_1 _) in *.
  destruct Hsh as [Hm (low & Hlow & Heq & _)].
  assert (Hn : Zpos n = Z.of_nat (S k)) by lia.
  assert (Hn1 : Zpos n - 1 = Z.of_nat k) by lia.
  assert (Hpk : 0 < 2 ^ Z.of_nat k) by (apply Z.pow_pos_nonneg; lia).
  assert (E1 : 2 ^ Z.of_nat (S k) = 2 * 2 ^ Z.of_nat k)
    by (rewrite Nat2Z.inj_succ, Z.pow_succ_r by lia; reflexivity).
  assert (Hrem : 0 <= b2z (shr_r rec) * 2 ^ Z.of_nat k + low < 2 ^ Z.of_nat (S k))
    by (rewrite E1; destruct (shr_r rec); simpl b2z; lia).
  assert (Hq : Zpos mx / 2 ^ Zpos n = shr_m rec).
  { rewrite Hn. symmetry.
    apply Z.div_unique with (b2z (shr_r rec) * 2 ^ Z.of_nat k + low); [lia|].
    rewrite Heq. ring. }
  assert (Hmod : Zpos mx mod 2 ^ Zpos n = b2z (shr_r rec) * 2 ^ Z.of_nat k + low).
  { rewrite Hn. symmetry.
    apply Z.mod_unique with (shr_m rec); [lia|].
    rewrite Heq. ring. }
  pose proof (digits2_bounds mx) as [Dlo Dhi].
  assert (Hrange : 2 ^ 52 <= shr_m rec < 2 ^ 53).
  { replace (Zpos (digits2_pos mx)) with (53 + Z.of_nat (S k)) in Dhi by lia.
    replace (Zpos (digits2_pos mx) - 1) with (52 + Z.of_nat (S k)) in Dlo by lia.
    rewrite Z.pow_add_r in Dlo, Dhi by lia.
    assert (0 < 2 ^ Z.of_nat (S k)) by lia.
    split; [|nia].
    assert (~ shr_m rec < 2 ^ 52); [|lia].
    intros Hlt. assert (shr_m rec + 1 <= 2 ^ 52) by lia. nia. }
  pose proof (round_nearest_even_cases rec) as Hrne. cbv zeta in Hrne.
  set (m1 := round_nearest_even (shr_m rec) (loc_of_shr_record rec)) in *.
  assert (Hm1 : 2 ^ 52 <= m1 <= 2 ^ 53) by lia.
  assert (Hcase : m1 = Zpos mx / 2 ^ Zpos n \/
     (m1 = Zpos mx / 2 ^ Zpos n + 1 /\
      2 ^ (Zpos n - 1) <= Zpos mx mod 2 ^ Zpos n)).
  { rewrite Hq, Hmod, Hn1. destruct Hrne as [->|[-> Hr]]; [now left|right].
    split; [reflexivity|]. rewrite Hr; simpl b2z. lia. }
  destruct m1 as [|p1|p1] eqn:Ep1; [lia| |lia].
  destruct (Z.eq_dec (Zpos p1) (2 ^ 53)) as [Htop|Hntop].
  - (* the rounding carried into a 54th digit *)
    assert (Hp1 : p1 = 9007199254740992%positive) by (change (2 ^ 53) with 9007199254740992 in Htop; congruence).
    subst p1.
    exists 4503599627370496%positive, (ex + Zpos n + 1), (Zpos 9007199254740992).
    split; [|split; [right; split; reflexivity | exact Hcase]].
    rewrite (@shr_fexp_shift 9007199254740992 (ex + Zpos n) 1) by (simpl; lia).
    simpl. replace (ex + Z.pos n + 1 <=? 971) with true by (symmetry; apply Z.leb_le; lia).
    reflexivity.
  - assert (Hd1 : Zpos (digits2_pos p1) = 53)
      by (apply digits2_unique; [change (53 - 1) with 52; lia | lia]).
    exists p1, (ex + Zpos n), (Zpos p1).
    split; [|split; [left; split; reflexivity | exact Hcase]].
    rewrite shr_fexp_keep by lia. cbn [shr_m].
    replace (ex + Z.pos n <=? emax - prec) with true
      by (symmetry; apply Z.leb_le; unfold emax, prec; lia).
    reflexivity.
Qed.


Lemma iter_xO_pow (p d : positive) :
  Zpos (Pos.iter xO p d) = Zpos p * 2 ^ Zpos d.
Proof.
  rewrite <- Z.shiftl_mul_pow2 by lia. unfold Z.shiftl.
  apply (Pos.iter_swap_gen _ _ Zpos xO (Z.mul 2)). reflexivity.
Qed.

(** Below [2 ^ 53] the conversion of an integer is exact: the mantissa is
    the integer shifted up to 53 digits. *)
Lemma of_int_exact (N : Z) :
  0 < N < 2 ^ 53 ->
  exists (mN : positive) (sh : Z),
    of_int N = Ok (S754_finite false mN (- sh)) /\
    Zpos mN = N * 2 ^ sh /\ 0 <= sh /\ 2 ^ 52 <= Zpos mN < 2 ^ 53.
Proof.
  intros [Hpos Hlt]. destruct N as [|p|p]; [lia| |lia].
  pose proof (digits2_bounds p) as [Dlo Dhi].
  assert (Hd : Zpos (digits2_pos p) <= 53).
  { destruct (Z_le_gt_dec (Zpos (digits2_pos p)) 53) as [H|H]; [assumption|exfalso].
    assert (2 ^ 53 <= 2 ^ (Zpos (digits2_pos p) - 1)) by (apply Z.pow_le_mono_r; lia).
    lia. }
  unfold of_int, binary_normalize, binary_round, shl_align.
  replace (fexp prec emax (Zpos (digits2_pos p) + 0)) with (Zpos (digits2_pos p) - 53)
    by (unfold fexp, SpecFloat.emin, prec, emax; lia).
  destruct (Zpos (digits2_pos p) - 53 - 0) as [|d|d] eqn:Ed; [| lia |].
  - (* already 53 digits *)
    exists p, 0. unfold binary_round_aux.
    rewrite shr_fexp_keep by lia. cbn [shr_m loc_of_shr_record round_nearest_even].
    rewrite shr_fexp_keep by lia. cbn [shr_m].
    assert (Hd53 : Zpos (digits2_pos p) = 53) by lia.
    rewrite Hd53 in Dlo, Dhi.
    repeat split; try lia.
  - set (mz := Pos.iter xO p d).
    assert (Hmz : Zpos mz = Zpos p * 2 ^ Zpos d) by apply iter_xO_pow.
    assert (Hsum : Zpos (digits2_pos p) + Zpos d = 53) by lia.
    assert (Hb : 2 ^ 52 <= Zpos mz < 2 ^ 53).
    { rewrite Hmz.
      replace 53 with (Zpos (digits2_pos p) + Zpos d) by lia.
      replace 52 with ((Zpos (digits2_pos p) - 1) + Zpos d) by lia.
      rewrite !Z.pow_add_r by lia.
      assert (0 < 2 ^ Zpos d) by (apply Z.pow_pos_nonneg; lia). nia. }
    assert (Hdz : Zpos (digits2_pos mz) = 53)
      by (apply digits2_unique; [change (53 - 1) with 52; lia | lia]).
    exists mz, (Zpos d). unfold binary_round_aux.
    rewrite shr_fexp_keep by lia. cbn [shr_m loc_of_shr_record round_nearest_even].
    rewrite shr_fexp_keep by lia. cbn [shr_m].
    replace (Z.pos (digits2_pos p) - 53 <=? emax - prec) with true
      by (symmetry; apply Z.leb_le; unfold emax, prec; lia).
    replace (Z.pos (digits2_pos p) - 53) with (- Zpos d) by lia.
    repeat split; try lia.
Qed.


Section MulByLiteral.

(** A literal [c * 2 ^ (- E)] that is the double nearest to [1 / D]. *)
Variables (c : positive) (E D t : Z).
Hypothesis c_digits : 2 ^ 52 <= Zpos c < 2 ^ 53.
Hypothesis c_value : D * Zpos c = 2 ^ E + t.
Hypothesis E_range : 55 <= E <= 56.
Hypothesis D_pos : 0 < D.
Hypothesis t_range : 0 <= t.
Hypothesis margin : forall K, 8 <= K -> 2 ^ 53 * K * t < 2 ^ E * (2 * K - D).

Lemma to_int_mul_literal (N : Z) :
  0 <= N < 2 ^ 52 ->
  (n <- of_int N ;; to_int (mul n (S754_finite false c (- E)))) = Ok (N / D).
Proof.
  intros [HN0 HN].
  destruct (Z.eq_dec N 0) as [->|HNz].
  { simpl. now rewrite Z.div_0_l by lia. }
  destruct (@of_int_exact N ltac:(change (2 ^ 53) with (2 * 2 ^ 52); lia))
    as (mN & sh & -> & HmN & Hsh & HmNb).
  cbn [Py.bind]. unfold mul, SFmul. cbn [xorb].
  set (mx := (mN * c)%positive).
  assert (Hmx : Zpos mx = N * 2 ^ sh * Zpos c) by (unfold mx; rewrite Pos2Z.inj_mul; lia).
  assert (HS : 0 < 2 ^ sh) by (apply Z.pow_pos_nonneg; lia).
  assert (Hsh1 : 1 <= sh).
  { destruct (Z.eq_dec sh 0) as [->|]; [|lia]. change (2 ^ 0) with 1 in HmN. lia. }
  (* the product has 105 or 106 digits *)
  pose proof (digits2_bounds mx) as [Dlo Dhi].
  assert (Hmxb : 2 ^ 104 <= Zpos mx < 2 ^ 106).
  { unfold mx; rewrite Pos2Z.inj_mul.
    change (2 ^ 104) with (2 ^ 52 * 2 ^ 52). change (2 ^ 106) with (2 ^ 53 * 2 ^ 53).
    nia. }
  assert (Hd : 105 <= Zpos (digits2_pos mx) <= 106).
  { split.
    - destruct (Z_lt_ge_dec (Zpos (digits2_pos mx)) 105) as [H|H]; [exfalso|lia].
      assert (2 ^ Zpos (digits2_pos mx) <= 2 ^ 104) by (apply Z.pow_le_mono_r; lia). lia.
    - destruct (Z_le_gt_dec (Zpos (digits2_pos mx)) 106) as [H|H]; [lia|exfalso].
      assert (2 ^ 106 <= 2 ^ (Zpos (digits2_pos mx) - 1)) by (apply Z.pow_le_mono_r; lia). lia. }
  set (n := Z.to_pos (Zpos (digits2_pos mx) - 53)).
  assert (Hn : Zpos (digits2_pos mx) - 53 = Zpos n) by (unfold n; rewrite Z2Pos.id; lia).
  assert (Hnr : 52 <= Zpos n <= 53) by lia.
  assert (Hsh52 : sh <= 52).
  { destruct (Z_le_gt_dec sh 52) as [H|H]; [assumption|exfalso].
    assert (2 ^ 53 <= 2 ^ sh) by (apply Z.pow_le_mono_r; lia). nia. }
  destruct (@binary_round_aux_shift mx (- sh + - E) n Hn ltac:(lia) ltac:(lia))
    as (m2 & e2 & m1 & -> & He2 & Hm1).
  (* the integer part of the rounded product *)
  set (k := sh + E - Zpos n).
  assert (Hk : 3 <= k) by (unfold k; lia).
  set (K := 2 ^ k). set (P := 2 ^ Zpos n) in *.
  assert (HK8 : 8 <= K).
  { unfold K. change 8 with (2 ^ 3). apply Z.pow_le_mono_r; lia. }
  assert (HP : 0 < P) by (apply Z.pow_pos_nonneg; lia).
  assert (HKP : K * P = 2 ^ sh * 2 ^ E).
  { unfold K, P. rewrite <- !Z.pow_add_r by lia. f_equal. unfold k. lia. }
  assert (Hint : to_int (S754_finite false m2 e2) = Ok (m1 / K)).
  { unfold to_int. cbn [cond_Zopp].
    destruct He2 as [[-> <-]|[-> <-]].
    - replace (0 <=? - sh + - E + Zpos n) with false by (symmetry; apply Z.leb_gt; lia).
      replace (- (- sh + - E + Zpos n)) with k by (unfold k; lia). reflexivity.
    - replace (0 <=? - sh + - E + Zpos n + 1) with false by (symmetry; apply Z.leb_gt; lia).
      f_equal. unfold K.
      replace k with (1 + - (- sh + - E + Zpos n + 1)) by (unfold k; lia).
      rewrite Z.pow_add_r by lia. change (2 ^ 1) with 2.
      rewrite Z.div_mul_cancel_l; [reflexivity| |lia].
      apply Z.pow_nonzero; lia. }
  rewrite Hint. f_equal.
  (* both bounds, in integers *)
  pose proof (Z.div_mod N D ltac:(lia)) as HND.
  pose proof (Z.mod_pos_bound N D D_pos) as Hrho.
  set (Q := N / D) in *. set (rho := N mod D) in *.
  pose proof (Z.div_mod (Zpos mx) P ltac:(lia)) as HXP.
  pose proof (Z.mod_pos_bound (Zpos mx) P HP) as Hrem.
  set (q := Zpos mx / P) in *. set (rem := Zpos mx mod P) in *.
  assert (HE : 0 < 2 ^ E) by (apply Z.pow_pos_nonneg; lia).
  assert (HDX : D * (Zpos mx) = N * 2 ^ sh * 2 ^ E + N * 2 ^ sh * t).
  { rewrite Hmx.
    replace (D * (N * 2 ^ sh * Zpos c)) with (N * 2 ^ sh * (D * Zpos c)) by ring.
    rewrite c_value. ring. }
  assert (Hlow : Q * K <= q).
  { apply Z.div_le_lower_bound; [lia|].
    assert (HDQ : D * Q <= N) by lia.
    assert (HST : 0 <= 2 ^ sh * 2 ^ E) by (apply Z.mul_nonneg_nonneg; lia).
    assert (Ha : D * Q * (2 ^ sh * 2 ^ E) <= N * (2 ^ sh * 2 ^ E))
      by (apply Z.mul_le_mono_nonneg_r; assumption).
    assert (Hb : 0 <= N * 2 ^ sh * t)
      by (apply Z.mul_nonneg_nonneg; [apply Z.mul_nonneg_nonneg|]; lia).
    assert (Hc : D * (P * (Q * K)) <= D * Zpos mx).
    { rewrite HDX.
      replace (D * (P * (Q * K))) with (D * Q * (K * P)) by ring. rewrite HKP.
      lia. }
    apply Z.mul_le_mono_pos_l in Hc; [exact Hc | exact D_pos]. }
  assert (Hhalf : 2 * m1 * P <= 2 * Zpos mx + P).
  { destruct Hm1 as [->|[-> Hr]].
    - lia.
    - assert (2 * 2 ^ (Zpos n - 1) = P).
      { unfold P. replace (Zpos n) with (Z.succ (Zpos n - 1)) at 2 by lia.
        rewrite Z.pow_succ_r by lia. reflexivity. }
      lia. }
  assert (Hm1low : Q * K <= m1) by (destruct Hm1 as [->|[-> _]]; lia).
  assert (Hup : m1 < (Q + 1) * K).
  { destruct (Z_lt_ge_dec m1 ((Q + 1) * K)) as [H|H]; [assumption|exfalso].
    assert (HK0 : 0 < K) by lia.
    assert (H0 : (Q + 1) * K * P <= m1 * P)
      by (apply Z.mul_le_mono_nonneg_r; lia).
    assert (H1 : 2 * ((Q + 1) * K * P) <= 2 * Zpos mx + P) by lia.
    assert (H2 : (D * K) * (2 * ((Q + 1) * K * P)) <= (D * K) * (2 * Zpos mx + P)).
    { apply Z.mul_le_mono_nonneg_l; [|exact H1].
      apply Z.mul_nonneg_nonneg; lia. }
    replace (D * K * (2 * ((Q + 1) * K * P)))
      with (2 * (D * Q + D) * K * (K * P)) in H2 by ring.
    replace (D * K * (2 * Zpos mx + P))
      with (2 * K * (D * Zpos mx) + D * (K * P)) in H2 by ring.
    rewrite HDX, HKP in H2.
    set (S := 2 ^ sh) in *. set (T := 2 ^ E) in *.
    pose proof (margin HK8) as Hmar. fold T in Hmar.
    (* divide by S *)
    replace (2 * (D * Q + D) * K * (S * T))
      with ((2 * (D * Q + D) * K * T) * S) in H2 by ring.
    replace (2 * K * (N * S * T + N * S * t) + D * (S * T))
      with ((2 * K * (N * T + N * t) + D * T) * S) in H2 by ring.
    apply Z.mul_le_mono_pos_r in H2; [|assumption].
    assert (HW : 1 <= D * Q + D - N) by lia.
    assert (H4a : (2 * K) * 1 <= (2 * K) * (D * Q + D - N))
      by (apply Z.mul_le_mono_nonneg_l; lia).
    assert (H4 : T * (2 * K - D) <= T * (2 * K * (D * Q + D - N) - D))
      by (apply Z.mul_le_mono_nonneg_l; lia).
    assert (H5 : T * (2 * K * (D * Q + D - N) - D) = 
                 2 * (D * Q + D) * K * T - (2 * K * (N * T + N * t) + D * T)
                 + 2 * K * N * t) by ring.
    assert (H6 : (2 * (K * t)) * N <= (2 * (K * t)) * 2 ^ 52).
    { apply Z.mul_le_mono_nonneg_l; [|lia].
      apply Z.mul_nonneg_nonneg; [lia|]. apply Z.mul_nonneg_nonneg; lia. }
    assert (H7 : 2 * K * N * t = 2 * (K * t) * N) by ring.
    assert (H8 : 2 ^ 53 * K * t = 2 * (K * t) * 2 ^ 52)
      by (change (2 ^ 53) with (2 * 2 ^ 52); ring).
    lia. }
  symmetry. apply Z.div_unique with (m1 - Q * K); [|ring].
  left. lia.
Qed.

End MulByLiteral.

Lemma num_training_floor (N : Z) :
  0 <= N < 2 ^ 52 -> Partitioner.num_training N = Ok (N / 5).
Proof.
  intros H. unfold Partitioner.num_training, lit_0_2.
  apply (@to_int_mul_literal 7205759403792794 55 5 2).
  - split; [discriminate|reflexivity].
  - reflexivity.
  - lia.
  - lia.
  - lia.
  - intros K HK. change (2 ^ 53) with 9007199254740992.
    change (2 ^ 55) with 36028797018963968. lia.
  - exact H.
Qed.

Lemma num_val_floor (N : Z) :
  0 <= N < 2 ^ 52 -> Partitioner.num_val N = Ok (N / 10).
Proof.
  intros H. unfold Partitioner.num_val, lit_0_1.
  apply (@to_int_mul_literal 7205759403792794 56 10 4).
  - split; [discriminate|reflexivity].
  - reflexivity.
  - lia.
  - lia.
  - lia.
  - intros K HK. change (2 ^ 53) with 9007199254740992.
    change (2 ^ 56) with 72057594037927936. lia.
  - exact H.
Qed.

(** The literals are the doubles nearest to [1/5] and [1/10], and [1e10] is
    the integer [10 ^ 10]. *)
Lemma literals_correctly_rounded :
  SFdiv prec emax (S754_finite false 1 0) (S754_finite false 5 0) = lit_0_2 /\
  SFdiv prec emax (S754_finite false 1 0) (S754_finite false 10 0) = lit_0_1 /\
  of_int (10 ^ 10) = Ok lit_1e10.
Proof. repeat split; vm_compute; reflexivity. Qed.

(** Past the bound the rounded product can reach the next integer. *)
Lemma num_training_near_2_53 :
  Partitioner.num_training (2 ^ 53 - 3) = Ok ((2 ^ 53 - 3) / 5 + 1).
Proof. vm_compute. reflexivity. Qed.

End FloatFacts.

Module PartitionerFacts.
Import Partitioner.

Lemma slice_bound_nonneg (len : nat) (i : Z) :
  (0 <= i <= Z.of_nat len)%Z -> slice_bound len i = Z.to_nat i.
Proof.
  intros H. unfold slice_bound.
  destruct (Z.ltb_spec i 0); [lia|]. lia.
Qed.

(** A slice between two positions inside the list. *)
Lemma slice_inside {A} (l : list A) (a b : Z) :
  (0 <= a <= b)%Z -> (b <= Z.of_nat (length l))%Z ->
  slice a b l = firstn (Z.to_nat b - Z.to_nat a) (skipn (Z.to_nat a) l).
Proof.
  intros Ha Hb. unfold slice.
  rewrite !slice_bound_nonneg by lia. reflexivity.
Qed.

Lemma three_pieces {A} (l : list A) (a b : nat) :
  firstn a l ++ firstn b (skipn a l) ++ skipn (a + b) l = l.
Proof.
  rewrite <- (firstn_skipn a l) at 4. f_equal.
  rewrite <- (firstn_skipn b (skipn a l)) at 2. f_equal.
  rewrite skipn_skipn. f_equal. lia.
Qed.

Lemma NoDup_app_disjoint {A} (l1 l2 : list A) :
  NoDup (l1 ++ l2) -> forall i, In i l1 -> ~ In i l2.
Proof.
  induction l1 as [|u l1 IH]; intros Hnd i Hi Hin; [contradiction|].
  simpl in Hnd. inversion Hnd as [|? ? Hnot Hnd']; subst.
  destruct Hi as [->|Hi].
  - apply Hnot, in_or_app. now right.
  - exact (IH Hnd' i Hi Hin).
Qed.

Section WithGenerator.

Variable randperm : nat -> list nat.
Hypothesis randperm_perm : forall n, Permutation (randperm n) (seq 0 n).

Lemma random_split_three (n : nat) (a b c : Z) :
  (0 <= a)%Z -> (0 <= b)%Z -> (0 <= c)%Z -> (a + b + c = Z.of_nat n)%Z ->
  random_split randperm n [a; b; c] =
  Ok [ {| indices := firstn (Z.to_nat a) (randperm n) |};
       {| indices := firstn (Z.to_nat b) (skipn (Z.to_nat a) (randperm n)) |};
       {| indices := skipn (Z.to_nat a + Z.to_nat b) (randperm n) |} ].
Proof.
  intros Ha Hb Hc Hn. unfold random_split.
  assert (Hsum : sum [a; b; c] = Z.of_nat n) by (unfold sum; simpl; lia).
  rewrite Hsum, Z.eqb_refl, Nat2Z.id.
  assert (Hlen : length (randperm n) = n)
    by (rewrite (Permutation_length (randperm_perm n)); apply length_seq).
  set (p := randperm n) in *.
  assert (S1 : slice (0 + a - a) (0 + a) p = firstn (Z.to_nat a) p).
  { rewrite slice_inside by lia.
    replace (Z.to_nat (0 + a - a)) with 0 by lia.
    replace (Z.to_nat (0 + a) - 0) with (Z.to_nat a) by lia. reflexivity. }
  assert (S2 : slice (0 + a + b - b) (0 + a + b) p
               = firstn (Z.to_nat b) (skipn (Z.to_nat a) p)).
  { rewrite slice_inside by lia.
    replace (Z.to_nat (0 + a + b - b)) with (Z.to_nat a) by lia.
    replace (Z.to_nat (0 + a + b) - Z.to_nat a) with (Z.to_nat b) by lia.
    reflexivity. }
  assert (S3 : slice (0 + a + b + c - c) (0 + a + b + c) p
               = skipn (Z.to_nat a + Z.to_nat b) p).
  { rewrite slice_inside by lia.
    replace (Z.to_nat (0 + a + b + c - c)) with (Z.to_nat a + Z.to_nat b) by lia.
    apply firstn_all2. rewrite length_skipn, Hlen. lia. }
  unfold accumulate. cbn [accumulate_from combine map].
  rewrite S1, S2, S3. reflexivity.
Qed.

(** C3: for a dataset of [n] graphs, [n] below [2 ^ 52], the partitioner
    takes [floor(0.2 n)] positions for training, [floor(0.1 n)] for
    validation and the rest for test; the three lists of positions are
    pairwise disjoint and together are a permutation of [0 .. n-1]. *)
Theorem partition_sizes_and_cover (n : nat) :
  (Z.of_nat n < 2 ^ 52)%Z ->
  exists training_set validation_set test_set,
    partition randperm n = Ok (training_set, validation_set, test_set) /\
    Z.of_nat (length (indices training_set)) = (2 * Z.of_nat n / 10)%Z /\
    Z.of_nat (length (indices validation_set)) = (1 * Z.of_nat n / 10)%Z /\
    (Z.of_nat (length (indices test_set)) =
       Z.of_nat n - Z.of_nat (length (indices training_set))
                  - Z.of_nat (length (indices validation_set)))%Z /\
    Permutation (indices training_set ++ indices validation_set ++ indices test_set)
                (seq 0 n) /\
    NoDup (indices training_set ++ indices validation_set ++ indices test_set) /\
    (forall i, In i (indices training_set) -> ~ In i (indices validation_set)) /\
    (forall i, In i (indices training_set) -> ~ In i (indices test_set)) /\
    (forall i, In i (indices validation_set) -> ~ In i (indices test_set)).
Proof.
  intros Hn.
  set (N := Z.of_nat n) in *.
  assert (HN : (0 <= N < 2 ^ 52)%Z) by (unfold N; lia).
  assert (E5 : (2 * N / 10 = N / 5)%Z).
  { replace 10%Z with (2 * 5)%Z by reflexivity.
    rewrite Z.div_mul_cancel_l by lia. reflexivity. }
  assert (E10 : (1 * N / 10 = N / 10)%Z) by (rewrite Z.mul_1_l; reflexivity).
  assert (Hbounds : (0 <= N / 5 /\ 0 <= N / 10 /\ N / 5 + N / 10 <= N)%Z).
  { pose proof (Z.div_pos N 5). pose proof (Z.div_pos N 10).
    pose proof (Z.mul_div_le N 5). pose proof (Z.mul_div_le N 10). lia. }
  destruct Hbounds as (H5 & H10 & Hle).
  assert (Hlen : length (randperm n) = n)
    by (rewrite (Permutation_length (randperm_perm n)); apply length_seq).
  unfold partition. fold N.
  rewrite (FloatFacts.num_training_floor HN), (FloatFacts.num_val_floor HN).
  cbn [Py.bind]. unfold num_test.
  rewrite random_split_three by (unfold N in *; lia).
  cbn [Py.bind].
  do 3 eexists. split; [reflexivity|]. cbn [indices].
  set (a := Z.to_nat (N / 5)). set (b := Z.to_nat (N / 10)).
  set (p := randperm n) in *.
  assert (Ha : length (firstn a p) = a)
    by (rewrite length_firstn, Hlen; unfold a, N in *; lia).
  assert (Hb : length (firstn b (skipn a p)) = b)
    by (rewrite length_firstn, length_skipn, Hlen; unfold a, b, N in *; lia).
  assert (Hc : length (skipn (a + b) p) = n - (a + b))
    by (rewrite length_skipn, Hlen; reflexivity).
  assert (Hperm : Permutation (firstn a p ++ firstn b (skipn a p) ++ skipn (a + b) p)
                              (seq 0 n))
    by (rewrite three_pieces; apply randperm_perm).
  assert (Hnd : NoDup (firstn a p ++ firstn b (skipn a p) ++ skipn (a + b) p))
    by (apply (Permutation_NoDup (Permutation_sym Hperm)), seq_NoDup).
  rewrite Ha, Hb, Hc, E5, E10.
  repeat split; try (unfold a, b, N in *; lia); try assumption.
  - intros i Hi Hv.
    eapply NoDup_app_disjoint; [exact Hnd | exact Hi | apply in_or_app; now left].
  - intros i Hi Ht.
    eapply NoDup_app_disjoint; [exact Hnd | exact Hi | apply in_or_app; now right].
  - intros i Hi Ht. apply NoDup_app_remove_l in Hnd.
    eapply NoDup_app_disjoint; [exact Hnd | exact Hi | exact Ht].
Qed.

End WithGenerator.
End PartitionerFacts.

Module ScriptFacts.
Import PyFacts Script.

Section WithProvider.

Variable F : Type.
Variable one : F.
Variable transform : Splitter.Data F -> Splitter.Data F.
Variable randperm : nat -> list nat.

Lemma dataset_getitem_edges (ds : Dataset F) (i : nat) (g : Splitter.Data F) :
  dataset_getitem transform ds i = Ok g ->
  exists raw, g = transform raw /\
    Splitter.edge_index raw = Splitter.edge_slice_of (data ds) (slices ds) i.
Proof.
  unfold dataset_getitem, getitem. intros H.
  destruct (nth_error (Splitter.edge_slices (slices ds)) i) as [e0|] eqn:E0;
    cbn [Py.bind] in H; [|discriminate].
  destruct (nth_error (Splitter.edge_slices (slices ds)) (i + 1)) as [e1|] eqn:E1;
    cbn [Py.bind] in H; [|discriminate].
  destruct (nth_error (Splitter.node_slices (slices ds)) i);
    cbn [Py.bind] in H; [|discriminate].
  destruct (nth_error (Splitter.node_slices (slices ds)) (i + 1));
    cbn [Py.bind] in H; [|discriminate].
  destruct (nth_error (Splitter.c_y (data ds)) i);
    cbn [Py.bind] in H; [|discriminate].
  destruct (nth_error (Splitter.c_num_nodes (data ds)) i);
    cbn [Py.bind] in H; [|discriminate].
  inversion H; subst; clear H.
  eexists; split; [reflexivity|]. cbn [Splitter.edge_index].
  unfold Splitter.edge_slice_of.
  now rewrite (nth_error_nth _ _ 0%Z E0), (nth_error_nth _ _ 0%Z E1).
Qed.

(** C2, as the code has it: the splitter rewrites the edge index of the
    copies it collects in [graph_list] only; [dataset] is the same after the
    loop, line 121 partitions [dataset], and a record drawn from the
    training, validation or test subset is the provider's record for its
    position, built from the whole edge slice of that graph. *)
Theorem partitioner_splits_the_dataset (no_feature : bool) (ds : Dataset F)
    (l : Loaded F) :
  load one randperm no_feature ds = Ok l ->
  dataset l = apply_no_feature one no_feature ds /\
  (forall i g, nth_error (graph_list l) i = Some g ->
     Splitter.edge_index g =
     filter Splitter.is_self_loop
       (Splitter.edge_slice_of (data (dataset l)) (slices (dataset l)) i)) /\
  (forall sub rs,
     In sub [training_set l; validation_set l; test_set l] ->
     records transform l sub = Ok rs ->
     forall k g, nth_error rs k = Some g ->
     exists i raw,
       nth_error (Partitioner.indices sub) k = Some i /\
       dataset_getitem transform (dataset l) i = Ok g /\
       g = transform raw /\
       Splitter.edge_index raw =
       Splitter.edge_slice_of (data (dataset l)) (slices (dataset l)) i).
Proof.
  unfold load. intros H.
  apply bind_ok in H as (gl & Hgl & H).
  apply bind_ok in H as ([[tr va] te] & Hparts & H).
  inversion H; subst; clear H. cbn [dataset graph_list training_set validation_set test_set].
  split; [reflexivity|]. split.
  - intros i g Hg. eapply SplitterFacts.graph_list_edges; eassumption.
  - intros sub rs _ Hrs k g Hg.
    unfold records, subset_items in Hrs. cbn [dataset] in Hrs.
    destruct (mapM_nth _ _ Hrs _ Hg) as (i & Hi & Hget).
    destruct (dataset_getitem_edges _ _ Hget) as (raw & Hraw & Hedges).
    exists i, raw. auto.
Qed.

End WithProvider.

Lemma load_one_edge :
  exists l,
    load 1%Z (seq 0) false one_edge = Ok l /\
    map (@Splitter.edge_index Z) (graph_list l) = [[]] /\
    records (@symmetrise Z) l (test_set l)
    = Ok [ {| Splitter.x := [[1]; [2]]%Z;
              Splitter.edge_index := [(0, 1); (1, 0)]%Z;
              Splitter.y := 1%Z; Splitter.num_nodes := 2%Z |} ].
Proof. eexists. split; [vm_compute; reflexivity|]. split; vm_compute; reflexivity. Qed.

(** C2 fails as stated: on a dataset of one graph with the edge [0 -> 1],
    the record in the test subset still has that edge. *)
Lemma partitioned_records_keep_other_edges :
  ~ (forall l, load 1%Z (seq 0) false one_edge = Ok l ->
     forall sub rs g,
       In sub [training_set l; validation_set l; test_set l] ->
       records (@symmetrise Z) l sub = Ok rs ->
       In g rs -> only_self_loops g).
Proof.
  intros H. destruct load_one_edge as (l & Hl & _ & Hrec).
  specialize (H l Hl (test_set l) _ _ (or_intror (or_intror (or_introl eq_refl))) Hrec
                (or_introl eq_refl)).
  specialize (H 0%Z 1%Z (or_introl eq_refl)). discriminate.
Qed.

End ScriptFacts.

Module CliFacts.
Import Cli.
Local Open Scope string_scope.

Lemma py_bool_true (s : string) : py_bool s = true <-> s <> "".
Proof. destruct s; simpl; split; congruence. Qed.

Lemma py_bool_false (s : string) : py_bool s = false <-> s = "".
Proof. destruct s; simpl; split; congruence. Qed.

Lemma setattr_keys (ns : Namespace) name v :
  map fst (setattr ns name v) = map fst ns.
Proof.
  unfold setattr. induction ns as [|[k u] ns IH]; simpl; [reflexivity|].
  destruct (String.eqb k name); simpl; now rewrite IH.
Qed.

Lemma getattr_setattr (ns : Namespace) name v name' :
  getattr (setattr ns name v) name' =
  if String.eqb name' name
  then option_map (fun _ => v) (getattr ns name')
  else getattr ns name'.
Proof.
  unfold getattr, setattr. induction ns as [|[k u] ns IH]; cbn [map find fst].
  - now destruct (String.eqb name' name).
  - destruct (String.eqb k name) eqn:Ek; cbn [fst].
    + apply String.eqb_eq in Ek. subst k.
      rewrite (String.eqb_sym name' name).
      destruct (String.eqb name name') eqn:En; [reflexivity|].
      rewrite IH, (String.eqb_sym name' name), En. reflexivity.
    + destruct (String.eqb k name') eqn:En.
      * apply String.eqb_eq in En. subst k. now rewrite Ek.
      * apply IH.
Qed.

Lemma find_argument_dest name a : find_argument name = Some a -> dest a = name.
Proof.
  unfold find_argument. intros H. apply find_some in H as [_ H].
  now apply String.eqb_eq in H.
Qed.

Section WithConversions.

Variable py_int : string -> option Z.
Variable py_float : string -> option Float64.float.

Lemma parse_args_snoc occs occ :
  parse_args py_int py_float (occs ++ [occ]) =
  match parse_args py_int py_float occs, find_argument (fst occ) with
  | Some ns, Some a =>
      match convert py_int py_float (type a) (snd occ) with
      | Some v => Some (setattr ns (dest a) v)
      | None => None
      end
  | _, _ => None
  end.
Proof. unfold parse_args. now rewrite fold_left_app. Qed.

Lemma last_given_snoc occs occ name :
  last_given (occs ++ [occ]) name =
  if String.eqb (fst occ) name then Some (snd occ) else last_given occs name.
Proof.
  unfold last_given. rewrite rev_app_distr. simpl.
  now destruct (String.eqb (fst occ) name).
Qed.

Lemma parse_args_value occs :
  forall ns, parse_args py_int py_float occs = Some ns ->
  forall a, find_argument (dest a) = Some a ->
  exists v,
    getattr ns (dest a) = Some v /\
    match last_given occs (dest a) with
    | Some s => convert py_int py_float (type a) s = Some v
    | None => v = default a
    end.
Proof.
  induction occs as [|occ occs IH] using rev_ind; intros ns H a Ha.
  - inversion H; subst; clear H. cbn [last_given rev find option_map].
    exists (default a). split; [|reflexivity].
    unfold find_argument, parser in Ha.
    unfold getattr, parser. cbn [map dest default fst].
    cbn [find dest] in Ha.
    repeat (match type of Ha with
            | (if ?b then _ else _) = _ => destruct b eqn:?
            end;
            [cbn [find fst];
             repeat match goal with
                    | H : String.eqb ?x ?y = _ |- context [String.eqb ?x ?y] => rewrite H
                    end;
             inversion Ha; subst; reflexivity |]).
    discriminate.
  - rewrite parse_args_snoc in H.
    destruct (parse_args py_int py_float occs) as [ns0|] eqn:E0; [|discriminate].
    destruct (find_argument (fst occ)) as [b|] eqn:Eb; [|discriminate].
    destruct (convert py_int py_float (type b) (snd occ)) as [v|] eqn:Ev;
      [|discriminate].
    inversion H; subst; clear H.
    destruct (IH ns0 eq_refl a Ha) as (v0 & Hv0 & Hlast).
    rewrite getattr_setattr, last_given_snoc, Hv0.
    pose proof (find_argument_dest _ Eb) as Hb. rewrite Hb.
    rewrite (String.eqb_sym (dest a)).
    destruct (String.eqb_spec (fst occ) (dest a)) as [Heq|Hne].
    + rewrite Heq, Ha in Eb. inversion Eb; subst b.
      exists v. split; [reflexivity | exact Ev].
    + exists v0. split; [reflexivity | exact Hlast].
Qed.

(** What [parse_args] leaves in the namespace for an argument: the converted
    last string given for it, or else its default. *)
Lemma parse_args_getattr occs :
  forall ns, parse_args py_int py_float occs = Some ns ->
  forall a, find_argument (dest a) = Some a ->
  getattr ns (dest a) =
  match last_given occs (dest a) with
  | Some s => convert py_int py_float (type a) s
  | None => Some (default a)
  end.
Proof.
  intros ns H a Ha.
  destruct (@parse_args_value occs ns H a Ha) as (v & -> & Hlast).
  destruct (last_given occs (dest a)); congruence.
Qed.

Lemma bool_flag_argument name :
  In name bool_flags ->
  exists a, find_argument name = Some a /\ dest a = name /\ type a = TBool /\
            default a = VBool (negb (String.eqb name "no_feature")).
Proof.
  intros [<-|[<-|[<-|[]]]]; eexists; repeat split.
Qed.

(** C9, as the code has it: a non-empty string given for [--concat],
    [--no_feature] or [--multi_gpu] is parsed as [True]; the parsed value is
    [False] exactly when the last string given is empty, or when the flag is
    not given and is [--no_feature], the only one whose default is
    [False]. *)
Theorem bool_flag_parsing (occs : list occurrence) (ns : Namespace) (flag : string) :
  parse_args py_int py_float occs = Some ns ->
  In flag bool_flags ->
  (forall s, last_given occs flag = Some s -> s <> "" ->
             getattr ns flag = Some (VBool true)) /\
  (getattr ns flag = Some (VBool false) <->
   last_given occs flag = Some "" \/
   (last_given occs flag = None /\ flag = "no_feature")).
Proof.
  intros Hparse Hflag.
  destruct (bool_flag_argument Hflag) as (a & Ha & Hd & Ht & Hdef).
  subst flag. pose proof (@parse_args_getattr occs ns Hparse a Ha) as Hget.
  rewrite Ht, Hdef in Hget. rewrite Hget. clear Hget. split.
  - intros s -> Hs. cbn [convert]. apply py_bool_true in Hs. now rewrite Hs.
  - destruct (last_given occs (dest a)) as [s|]; cbn [convert]; split.
    + intros H. left. f_equal. apply py_bool_false. congruence.
    + intros [H|[H _]]; [|discriminate]. inversion H; reflexivity.
    + intros H. right. split; [reflexivity|].
      destruct (String.eqb_spec (dest a) "no_feature"); [assumption|discriminate].
    + intros [H|[_ H]]; [discriminate|]. now rewrite H.
Qed.

End WithConversions.

(** C9 fails as stated: [--concat=] gives [False] although the flag is
    passed. *)
Lemma empty_string_gives_false :
  ~ (exists py_int py_float,
       forall occs ns flag,
         parse_args py_int py_float occs = Some ns -> In flag bool_flags ->
         (forall s, last_given occs flag = Some s -> s <> "" ->
                    getattr ns flag = Some (VBool true)) /\
         (getattr ns flag = Some (VBool false) ->
          last_given occs flag = None /\ default_of flag = Some (VBool false))).
Proof.
  intros (py_int & py_float & H).
  destruct (H [("concat", "")] _ "concat" eq_refl (or_introl eq_refl))
    as [_ Hfalse].
  destruct (Hfalse eq_refl) as [Hlast _]. discriminate.
Qed.

(** The float defaults of lines 77-78 are the doubles nearest to 1/1000 and
    1/100. *)
Lemma float_defaults_correctly_rounded :
  SFdiv Float64.prec Float64.emax (S754_finite false 1 0) (S754_finite false 1000 0)
    = Float64.lit_0_001 /\
  SFdiv Float64.prec Float64.emax (S754_finite false 1 0) (S754_finite false 100 0)
    = Float64.lit_0_01.
Proof. split; vm_compute; reflexivity. Qed.

(** An invocation that also passes the integer options is parsed. *)
Lemma parse_with_integer_options :
  exists ns,
    parse_args decimal no_float
      [("epochs", "2"); ("concat", "False"); ("batch_size", "64")] = Some ns /\
    getattr ns "epochs" = Some (VInt 2) /\
    getattr ns "batch_size" = Some (VInt 64) /\
    getattr ns "concat" = Some (VBool true) /\
    getattr ns "nhid" = Some (VInt 128).
Proof. eexists. split; [vm_compute; reflexivity|]. repeat split. Qed.

End CliFacts.

Module NetFacts.
Import PyFacts Net.

Lemma mapM_all_ok {A B} (f : A -> result B) (xs : list A) (ys : list B) :
  mapM f xs = Ok ys -> forall x, In x xs -> exists y, f x = Ok y.
Proof.
  revert ys; induction xs as [|x0 xs IH]; intros ys H x Hx; [contradiction|].
  simpl in H. apply bind_ok in H as (y0 & Hy0 & H).
  apply bind_ok in H as (ys0 & Hys0 & _).
  destruct Hx as [<-|Hx]; eauto.
Qed.

Lemma positions_from_length (batch : list nat) (g i : nat) :
  length (positions_from i (eq_mask batch g)) = node_count batch g.
Proof.
  revert i; induction batch as [|b batch IH]; intros i; simpl; [reflexivity|].
  unfold node_count in *. simpl.
  destruct (Nat.eqb_spec b g) as [->|Hne].
  - destruct (Nat.eq_dec g g); [|contradiction]. simpl. now rewrite IH.
  - destruct (Nat.eq_dec b g); [contradiction|]. apply IH.
Qed.

(** Line 59 on a graph of exactly one node: [nonzero] is [1 x 1], [squeeze]
    leaves no dimension, and indexing the 0-dim tensor raises. *)
Lemma first_node_single (d : Batch) (g : nat) :
  node_count (batch d) g = 1 -> first_node_features d g = Raise IndexError.
Proof.
  intros H. unfold first_node_features, squeeze, nonzero. cbn [shape data].
  rewrite positions_from_length, H. reflexivity.
Qed.

Lemma first_node_ok (d : Batch) (g : nat) (row : list R) :
  first_node_features d g = Ok row -> 2 <= node_count (batch d) g.
Proof.
  unfold first_node_features, squeeze, nonzero. cbn [shape data].
  rewrite positions_from_length.
  destruct (node_count (batch d) g) as [|[|k]]; cbn; try discriminate. lia.
Qed.

(** C10: in concat mode, whenever [forward] returns, every graph of the
    batch has at least two nodes; on a batch with a graph of exactly one
    node it raises. *)
Theorem concat_needs_two_nodes (self : Model) (d : Batch) :
  concat self = true ->
  (forall out, forward self d = Ok out ->
     forall g, g < num_graphs d -> 2 <= node_count (batch d) g) /\
  ((exists g, g < num_graphs d /\ node_count (batch d) g = 1) ->
   exists e, forward self d = Raise e).
Proof.
  intros Hc.
  assert (Hok : forall out, forward self d = Ok out ->
     forall g, g < num_graphs d -> 2 <= node_count (batch d) g).
  { intros out H g Hg. unfold forward in H.
    apply bind_ok in H as (e & He & _). unfold embedding in He.
    apply bind_ok in He as (conv & _ & He).
    apply bind_ok in He as (h & _ & He).
    apply bind_ok in He as (pooled & _ & He).
    rewrite Hc in He.
    apply bind_ok in He as (rows & Hrows & _).
    destruct (mapM_all_ok _ _ Hrows g) as (row & Hrow).
    - apply in_seq. lia.
    - exact (first_node_ok _ _ Hrow). }
  split; [exact Hok|].
  intros (g & Hg & Hone).
  destruct (forward self d) as [out|e] eqn:E; [|eauto].
  specialize (Hok out eq_refl g Hg). lia.
Qed.

End NetFacts.

Module NetShapes.
Import PyFacts Net NetFacts.

Lemma has_shape_relu m r c : has_shape m r c -> has_shape (relu m) r c.
Proof.
  intros [Hr Hc]. split; unfold relu.
  - now rewrite length_map.
  - apply Forall_map. eapply Forall_impl; [|exact Hc].
    intros row Hrow. cbn. now rewrite length_map.
Qed.

Lemma mapM_forall2 {A B} (f : A -> result B) (P : B -> Prop) (Q : A -> Prop) :
  (forall a, Q a -> exists b, f a = Ok b /\ P b) ->
  forall xs, Forall Q xs ->
  exists ys, mapM f xs = Ok ys /\ length ys = length xs /\ Forall P ys.
Proof.
  intros Hf. induction xs as [|a xs IH]; intros HQ.
  - exists []. repeat split. constructor.
  - inversion HQ as [|? ? Ha Hxs]; subst.
    destruct (Hf a Ha) as (b & Hb & HP).
    destruct (IH Hxs) as (ys & Hys & Hlen & HPs).
    exists (b :: ys). simpl. rewrite Hb, Hys. simpl.
    repeat split; [congruence | now constructor].
Qed.

Lemma linear_shape (l : Linear) (m : Matrix) (r : nat) :
  has_shape m r (in_features l) ->
  exists z, linear l m = Ok z /\ has_shape z r (out_features l).
Proof.
  intros [Hr Hc]. unfold linear.
  destruct (@mapM_forall2 _ _ (linear_row l)
              (fun row => length row = out_features l)
              (fun row => length row = in_features l)) with (xs := m)
    as (z & Hz & Hlen & Hall).
  - intros row Hrow. unfold linear_row. rewrite Hrow, Nat.eqb_refl.
    eexists; split; [reflexivity|]. now rewrite length_map, length_seq.
  - exact Hc.
  - exists z. repeat split; [exact Hz | congruence | exact Hall].
Qed.

Lemma zip_max_length (a b : list R) :
  length a = length b -> length (zip_max a b) = length a.
Proof.
  revert b; induction a as [|u a IH]; intros [|v b] H; simpl in *; try lia.
  f_equal. apply IH. lia.
Qed.

Lemma fold_zip_max_length (c : nat) (rs : Matrix) :
  Forall (fun row => length row = c) rs ->
  forall r, length r = c -> length (fold_left zip_max rs r) = c.
Proof.
  induction rs as [|r' rs IH]; intros Hrs r Hr; simpl; [exact Hr|].
  inversion Hrs as [|? ? Hr' Hrs']; subst.
  apply IH; [assumption|]. rewrite zip_max_length; congruence.
Qed.

Lemma max_rows_length (c : nat) (rows : Matrix) :
  Forall (fun row => length row = c) rows -> length (max_rows c rows) = c.
Proof.
  unfold max_rows. destruct rows as [|r rs]; intros H.
  - apply repeat_length.
  - inversion H; subst. now apply fold_zip_max_length.
Qed.

Lemma group_rows_width (m : Matrix) (batch : list nat) (g c : nat) :
  Forall (fun row => length row = c) m ->
  Forall (fun row => length row = c) (group_rows m batch g).
Proof.
  intros H. unfold group_rows. apply Forall_forall. intros row Hin.
  apply in_map_iff in Hin as ([row' b] & <- & Hin).
  apply filter_In in Hin as [Hin _]. apply in_combine_l in Hin.
  simpl. rewrite Forall_forall in H. auto.
Qed.

Lemma list_max_bound (l : list nat) (n : nat) :
  (forall g, In g l -> g < S n) -> In n l -> list_max l = n.
Proof.
  intros Hlt Hin. unfold list_max.
  assert (Hle : fold_right Nat.max 0 l <= n).
  { clear Hin. induction l as [|a l IH]; simpl; [lia|].
    assert (a < S n) by (apply Hlt; now left).
    assert (fold_right Nat.max 0 l <= n) by (apply IH; intros; apply Hlt; now right).
    lia. }
  assert (Hge : n <= fold_right Nat.max 0 l).
  { clear Hlt Hle. induction l as [|a l IH]; [contradiction|].
    simpl. destruct Hin as [->|Hin]; [lia|]. specialize (IH Hin). lia. }
  lia.
Qed.

Lemma node_count_in (batch : list nat) (g : nat) :
  1 <= node_count batch g -> In g batch.
Proof.
  unfold node_count. intros H.
  apply (count_occ_In Nat.eq_dec). lia.
Qed.

Lemma broadcast_same (m : Matrix) (batch : list nat) :
  length m = length batch -> broadcast batch m = batch.
Proof.
  intros H. unfold broadcast. destruct batch as [|g [|g' batch]]; try reflexivity.
  rewrite H. reflexivity.
Qed.

Lemma gmp_shape (m : Matrix) (batch : list nat) (c G : nat) :
  has_shape m (length batch) c ->
  1 <= G ->
  (forall g, In g batch -> g < G) ->
  (forall g, g < G -> 1 <= node_count batch g) ->
  exists p, gmp m batch = Ok p /\ has_shape p G c.
Proof.
  intros [Hr Hc] HG Hlt Hcount. unfold gmp.
  rewrite (broadcast_same _ _ Hr), Hr, Nat.eqb_refl. cbn [negb].
  assert (Hlast : In (G - 1) batch) by (apply node_count_in, Hcount; lia).
  assert (Hmax : num_ids batch = G).
  { destruct batch as [|b batch]; [contradiction|]. unfold num_ids.
    rewrite (@list_max_bound _ (G - 1)); [lia| |exact Hlast].
    intros g Hg. specialize (Hlt g Hg). lia. }
  rewrite Hmax. eexists; split; [reflexivity|].
  destruct m as [|r0 m]; [destruct batch; [contradiction|discriminate]|].
  assert (Hw : length r0 = c) by (inversion Hc; assumption).
  rewrite Hw. split.
  - now rewrite length_map, length_seq.
  - apply Forall_map, Forall_forall. intros g _.
    apply max_rows_length, group_rows_width, Hc.
Qed.

Lemma positions_from_bound (mask : list bool) (i p : nat) :
  In p (positions_from i mask) -> i <= p < i + length mask.
Proof.
  revert i; induction mask as [|b mask IH]; intros i H; simpl in *; [contradiction|].
  destruct b.
  - destruct H as [<-|H]; [lia|]. apply IH in H. lia.
  - apply IH in H. lia.
Qed.

Lemma first_node_shape (d : Batch) (g c : nat) :
  has_shape (x d) (length (batch d)) c ->
  2 <= node_count (batch d) g ->
  exists row, first_node_features d g = Ok row /\ length row = c.
Proof.
  intros [Hr Hc] Hcount.
  unfold first_node_features, squeeze, nonzero. cbn [shape data].
  pose proof (positions_from_length (batch d) g 0) as Hlen.
  pose proof (@positions_from_bound (eq_mask (batch d) g) 0) as Hbound.
  destruct (positions_from 0 (eq_mask (batch d) g)) as [|p [|p' ps]];
    simpl in Hlen; try lia.
  cbn. unfold row_at. cbn [shape data firstn].
  specialize (Hbound p (or_introl eq_refl)).
  unfold eq_mask in Hbound. rewrite length_map in Hbound.
  unfold getitem.
  destruct (nth_error (x d) p) as [row|] eqn:E.
  - exists row. split; [reflexivity|].
    apply nth_error_In in E. rewrite Forall_forall in Hc. auto.
  - apply nth_error_None in E. lia.
Qed.

Lemma stack_shape (rows : list (list R)) (r c : nat) :
  1 <= r -> has_shape rows r c ->
  stack rows = Ok rows.
Proof.
  intros Hr [Hlen Hc]. unfold stack.
  destruct rows as [|r0 rs]; [simpl in Hlen; lia|].
  inversion Hc as [|? ? H0 Hrs]; subst.
  replace (forallb (fun r' => length r' =? length r0) rs) with true; [reflexivity|].
  symmetry. apply forallb_forall. intros r' Hin.
  rewrite Forall_forall in Hrs. rewrite (Hrs r' Hin). apply Nat.eqb_refl.
Qed.

Lemma cat1_shape (a b : Matrix) (r ca cb : nat) :
  has_shape a r ca -> has_shape b r cb ->
  exists m, cat1 a b = Ok m /\ has_shape m r (ca + cb).
Proof.
  intros [Ha Hca] [Hb Hcb]. unfold cat1.
  rewrite Ha, Hb, Nat.eqb_refl. eexists; split; [reflexivity|]. split.
  - rewrite length_map, length_combine. lia.
  - apply Forall_map, Forall_forall. intros [r1 r2] Hin.
    rewrite length_app.
    rewrite Forall_forall in Hca, Hcb.
    rewrite (Hca r1 (in_combine_l _ _ _ _ Hin)), (Hcb r2 (in_combine_r _ _ _ _ Hin)).
    reflexivity.
Qed.

Lemma has_shape_log_softmax m r c :
  has_shape m r c -> has_shape (log_softmax m) r c.
Proof.
  intros [Hr Hc]. split; unfold log_softmax.
  - now rewrite length_map.
  - apply Forall_map. eapply Forall_impl; [|exact Hc].
    intros row Hrow. cbn. now rewrite length_map.
Qed.

Local Open Scope R_scope.

Lemma sum_exp_pos (row : list R) : row <> [] -> 0 < sum_exp row.
Proof.
  unfold sum_exp. destruct row as [|v row]; [congruence|]. intros _. simpl.
  assert (H : 0 <= fold_right Rplus 0 (map exp row)).
  { induction row as [|u row IH]; simpl; [lra|].
    pose proof (exp_pos u). lra. }
  pose proof (exp_pos v). lra.
Qed.

Lemma sum_exp_shift (row : list R) (c : R) :
  sum_exp (map (fun v => v - c) row) = sum_exp row * exp (- c).
Proof.
  unfold sum_exp. induction row as [|v row IH]; simpl; [lra|].
  rewrite IH. unfold Rminus. rewrite exp_plus. lra.
Qed.

(** The log-softmax invariant. *)
Lemma log_softmax_normalised (m : Matrix) (row : list R) :
  Forall (fun r => r <> []) m ->
  In row (log_softmax m) -> sum_exp row = 1.
Proof.
  intros Hne Hin. unfold log_softmax in Hin.
  apply in_map_iff in Hin as (r & <- & Hr).
  rewrite Forall_forall in Hne. specialize (Hne r Hr).
  rewrite sum_exp_shift, exp_Ropp, exp_ln by (apply sum_exp_pos; assumption).
  apply Rinv_r. pose proof (sum_exp_pos Hne). lra.
Qed.

End NetShapes.

Module ForwardFacts.
Import PyFacts Net NetFacts NetShapes.

Lemma well_formed_weaken nf k k' d :
  k' <= k -> well_formed nf k d -> well_formed nf k' d.
Proof.
  unfold well_formed. intros Hk (H1 & H2 & H3 & H4 & H5).
  split; [exact H1|]. split; [exact H2|]. split; [exact H3|]. split; [exact H4|].
  intros g Hg. specialize (H5 g Hg). lia.
Qed.

Lemma first_nodes_shape (d : Batch) (c : nat) :
  has_shape (x d) (length (batch d)) c ->
  (forall g, g < num_graphs d -> 2 <= node_count (batch d) g) ->
  exists rows, mapM (first_node_features d) (seq 0 (num_graphs d)) = Ok rows /\
               has_shape rows (num_graphs d) c.
Proof.
  intros Hx Hcount.
  destruct (@mapM_forall2 _ _ (first_node_features d)
              (fun row => length row = c) (fun g => g < num_graphs d))
    with (xs := seq 0 (num_graphs d)) as (rows & Hrows & Hlen & Hall).
  - intros g Hg. apply first_node_shape; auto.
  - apply Forall_forall. intros g Hg. apply in_seq in Hg. lia.
  - exists rows. split; [exact Hrows|]. split; [|exact Hall].
    now rewrite Hlen, length_seq.
Qed.

Section WithLayers.

Variables GCNConv SAGEConv GATConv : nat -> nat -> ConvLayer.
Variable init_weight : string -> nat -> nat -> R.
Variable init_bias : string -> nat -> R.

Hypothesis GCNConv_contract : forall i o, conv_contract (GCNConv i o) i o.
Hypothesis SAGEConv_contract : forall i o, conv_contract (SAGEConv i o) i o.
Hypothesis GATConv_contract : forall i o, conv_contract (GATConv i o) i o.


Lemma init_conv1 (a : Args) (c : bool) :
  supported (a_model a) ->
  exists conv, conv1 (Net.init GCNConv SAGEConv GATConv init_weight init_bias a c) = Some conv /\
               conv_contract conv (a_num_features a) (a_nhid a).
Proof.
  unfold Net.init. cbn [conv1]. intros [H|[H|H]]; rewrite H; cbn; eauto.
Qed.

Lemma init_conv1_same (a : Args) : conv1 (Net.init GCNConv SAGEConv GATConv init_weight init_bias a true) = conv1 (Net.init GCNConv SAGEConv GATConv init_weight init_bias a false).
Proof. reflexivity. Qed.

Lemma init_concat (a : Args) (c : bool) :
  concat (Net.init GCNConv SAGEConv GATConv init_weight init_bias a c) = c.
Proof. reflexivity. Qed.

Lemma init_lin0 (a : Args) :
  lin0 (Net.init GCNConv SAGEConv GATConv init_weight init_bias a true) =
  Some (new_Linear init_weight init_bias "lin0" (a_num_features a) (a_nhid a)).
Proof. reflexivity. Qed.

Lemma pooled_shape (a : Args) (c : bool) (d : Batch) :
  supported (a_model a) ->
  well_formed (a_num_features a) 1 d ->
  exists conv h pooled,
    conv1 (Net.init GCNConv SAGEConv GATConv init_weight init_bias a c) = Some conv /\
    conv (x d) (edge_index d) None = Ok h /\
    gmp (relu h) (batch d) = Ok pooled /\
    has_shape pooled (num_graphs d) (a_nhid a).
Proof.
  unfold well_formed. intros Hs (Hx & He & HG & Hlt & Hcount).
  destruct (@init_conv1 a c Hs) as (conv & Hconv & Hcontract).
  destruct (Hcontract _ _ _ Hx He) as (h & Hh & Hhs).
  destruct (@gmp_shape (relu h) (batch d) (a_nhid a) (num_graphs d))
    as (pooled & Hp & Hps); auto using has_shape_relu.
  exists conv, h, pooled. auto.
Qed.

Lemma embedding_shape (a : Args) (c : bool) (d : Batch) :
  supported (a_model a) ->
  well_formed (a_num_features a) (if c then 2 else 1) d ->
  exists e, embedding (Net.init GCNConv SAGEConv GATConv init_weight init_bias a c) d = Ok e /\
            has_shape e (num_graphs d)
                      (if c then a_nhid a * 2 else a_nhid a).
Proof.
  intros Hs Hwf.
  assert (Hwf0 : well_formed (a_num_features a) 1 d)
    by (destruct c; [apply (@well_formed_weaken _ 2 1 _); [lia | assumption] | assumption]).
  destruct (@pooled_shape a c d Hs Hwf0) as (conv & h & pooled & Hconv & Hh & Hp & Hps).
  unfold embedding. rewrite Hconv. cbn [getattr Py.bind]. rewrite Hh. cbn [Py.bind].
  rewrite Hp. cbn [Py.bind].
  rewrite init_concat. destruct c.
  - unfold well_formed in Hwf. destruct Hwf as (Hx & He & HG & Hlt & Hcount).
    destruct (@first_nodes_shape d _ Hx Hcount) as (rows & Hrows & Hrs).
    rewrite Hrows. cbn [Py.bind].
    rewrite (@stack_shape _ _ _ HG Hrs). cbn [Py.bind].
    rewrite init_lin0. cbn [getattr Py.bind].
    destruct (@linear_shape (new_Linear init_weight init_bias "lin0"
                               (a_num_features a) (a_nhid a)) rows (num_graphs d) Hrs)
      as (news & Hnews & Hns).
    rewrite Hnews. cbn [Py.bind].
    cbn [out_features new_Linear] in Hns.
    destruct (@cat1_shape _ _ _ _ _ Hps (@has_shape_relu _ _ _ Hns)) as (m & Hm & Hms).
    exists m. split; [exact Hm|].
    replace (a_nhid a * 2) with (a_nhid a + a_nhid a) by lia. exact Hms.
  - exists pooled. split; [reflexivity | exact Hps].
Qed.

Lemma lin1_in_features (a : Args) (c : bool) :
  in_features (lin1 (Net.init GCNConv SAGEConv GATConv init_weight init_bias a c)) = if c then a_nhid a * 2 else a_nhid a.
Proof. destruct c; reflexivity. Qed.

Lemma lin1_out_features (a : Args) (c : bool) :
  out_features (lin1 (Net.init GCNConv SAGEConv GATConv init_weight init_bias a c)) = a_num_classes a.
Proof. destruct c; reflexivity. Qed.

Lemma forward_shape (a : Args) (c : bool) (d : Batch) :
  supported (a_model a) ->
  well_formed (a_num_features a) (if c then 2 else 1) d ->
  exists e out,
    embedding (Net.init GCNConv SAGEConv GATConv init_weight init_bias a c) d = Ok e /\
    has_shape e (num_graphs d) (if c then a_nhid a * 2 else a_nhid a) /\
    forward (Net.init GCNConv SAGEConv GATConv init_weight init_bias a c) d = Ok out /\
    has_shape out (num_graphs d) (a_num_classes a).
Proof.
  intros Hs Hwf.
  destruct (@embedding_shape a c d Hs Hwf) as (e & He & Hes).
  rewrite <- lin1_in_features in Hes.
  destruct (@linear_shape _ _ _ Hes) as (z & Hz & Hzs).
  rewrite lin1_out_features in Hzs. rewrite lin1_in_features in Hes.
  exists e, (log_softmax z).
  split; [exact He|]. split; [exact Hes|]. split.
  - unfold forward. rewrite He. cbn [Py.bind]. rewrite Hz. reflexivity.
  - apply has_shape_log_softmax, Hzs.
Qed.

(** Where every graph has the nodes its mode needs. *)
Lemma forward_output (a : Args) (c : bool) (d : Batch) :
  supported (a_model a) ->
  1 <= a_num_classes a ->
  well_formed (a_num_features a) (if c then 2 else 1) d ->
  exists out,
    forward (Net.init GCNConv SAGEConv GATConv init_weight init_bias a c) d = Ok out /\
    length out = num_graphs d /\
    (forall row, In row out ->
       length row = a_num_classes a /\ sum_exp row = 1%R).
Proof.
  intros Hs Hc Hwf.
  destruct (@embedding_shape a c d Hs Hwf) as (e & He & Hes).
  rewrite <- lin1_in_features in Hes.
  destruct (@linear_shape _ _ _ Hes) as (z & Hz & [Hzr Hzc]).
  rewrite lin1_out_features in Hzc.
  exists (log_softmax z). split; [|split].
  - unfold forward. rewrite He. cbn [Py.bind]. rewrite Hz. reflexivity.
  - unfold log_softmax. now rewrite length_map.
  - intros row Hrow. split.
    + pose proof (@has_shape_log_softmax _ _ _ (conj Hzr Hzc)) as [_ Hall].
      rewrite Forall_forall in Hall. auto.
    + apply (@log_softmax_normalised z); [|exact Hrow].
      eapply Forall_impl; [|exact Hzc].
      intros r Hr Hnil. subst r. simpl in Hr. lia.
Qed.

(** What [forward] computes from the embedding: [lin1], then
    [log_softmax]. *)
Lemma forward_layers (a : Args) (c : bool) (d : Batch) :
  supported (a_model a) ->
  well_formed (a_num_features a) (if c then 2 else 1) d ->
  exists e z out,
    embedding (Net.init GCNConv SAGEConv GATConv init_weight init_bias a c) d = Ok e /\
    has_shape e (num_graphs d) (if c then a_nhid a * 2 else a_nhid a) /\
    linear (lin1 (Net.init GCNConv SAGEConv GATConv init_weight init_bias a c)) e
      = Ok z /\
    forward (Net.init GCNConv SAGEConv GATConv init_weight init_bias a c) d = Ok out /\
    out = log_softmax z /\
    has_shape out (num_graphs d) (a_num_classes a).
Proof.
  intros Hs Hwf.
  destruct (@embedding_shape a c d Hs Hwf) as (e & He & Hes).
  rewrite <- lin1_in_features in Hes.
  destruct (@linear_shape _ _ _ Hes) as (z & Hz & Hzs).
  rewrite lin1_out_features in Hzs. rewrite lin1_in_features in Hes.
  exists e, z, (log_softmax z).
  split; [exact He|]. split; [exact Hes|]. split; [exact Hz|]. split.
  - unfold forward. rewrite He. cbn [Py.bind]. rewrite Hz. reflexivity.
  - split; [reflexivity|]. apply has_shape_log_softmax, Hzs.
Qed.

(** Line 59 raises nothing but IndexError. *)
Lemma first_node_raises (d : Batch) (g : nat) (e : exn) :
  first_node_features d g = Raise e -> e = IndexError.
Proof.
  unfold first_node_features, squeeze, nonzero, index0, row_at, getitem.
  cbn [shape data filter].
  destruct (length (positions_from 0 (eq_mask (batch d) g))) as [|[|k]];
    cbn [Nat.eqb negb filter Py.bind shape data fold_right firstn].
  - congruence.
  - congruence.
  - destruct (positions_from 0 (eq_mask (batch d) g)) as [|p rest];
      cbn [firstn]; [congruence|].
    destruct (nth_error (x d) p); congruence.
Qed.

(** On a batch with a graph of one node, concat mode stops at line 59. *)
Lemma embedding_raises_on_single_node (a : Args) (d : Batch) :
  supported (a_model a) ->
  well_formed (a_num_features a) 1 d ->
  (exists g, g < num_graphs d /\ node_count (batch d) g = 1) ->
  embedding (Net.init GCNConv SAGEConv GATConv init_weight init_bias a true) d
    = Raise IndexError.
Proof.
  intros Hs Hwf (g & Hg & Hone).
  destruct (@pooled_shape a true d Hs Hwf)
    as (conv & h & pooled & Hconv & Hh & Hp & _).
  unfold embedding. rewrite Hconv. cbn [getattr Py.bind]. rewrite Hh.
  cbn [Py.bind]. rewrite Hp. cbn [Py.bind]. rewrite init_concat.
  rewrite (@mapM_raise _ _ (first_node_features d) (seq 0 (num_graphs d)) IndexError);
    [reflexivity | |].
  - intros g' _ e' He'. exact (first_node_raises _ _ He').
  - exists g. split; [apply in_seq; lia|].
    exists IndexError. now apply first_node_single.
Qed.

(** C8: with the same convolution layer in both modes, on a batch in
    which every graph has a node: without concat the embedding handed to
    [lin1] is [nhid] wide and [forward] returns [log_softmax] of [lin1] of
    it, [num_graphs] rows of [num_classes] entries; with concat, where every
    graph has two nodes the embedding is [nhid * 2] wide and the output has
    the same shape, but where some graph has a single node line 59 raises
    IndexError and [forward] returns nothing. *)
Theorem concat_mode_raises_where_plain_mode_returns (a : Args) (d : Batch) :
  supported (a_model a) ->
  well_formed (a_num_features a) 1 d ->
  conv1 (Net.init GCNConv SAGEConv GATConv init_weight init_bias a true)
    = conv1 (Net.init GCNConv SAGEConv GATConv init_weight init_bias a false) /\
  (exists e0 z0 out0,
     embedding (Net.init GCNConv SAGEConv GATConv init_weight init_bias a false) d
       = Ok e0 /\
     has_shape e0 (num_graphs d) (a_nhid a) /\
     linear (lin1 (Net.init GCNConv SAGEConv GATConv init_weight init_bias a false)) e0
       = Ok z0 /\
     forward (Net.init GCNConv SAGEConv GATConv init_weight init_bias a false) d
       = Ok out0 /\
     out0 = log_softmax z0 /\
     has_shape out0 (num_graphs d) (a_num_classes a)) /\
  ((forall g, g < num_graphs d -> 2 <= node_count (batch d) g) ->
   exists e1 z1 out1,
     embedding (Net.init GCNConv SAGEConv GATConv init_weight init_bias a true) d
       = Ok e1 /\
     has_shape e1 (num_graphs d) (a_nhid a * 2) /\
     linear (lin1 (Net.init GCNConv SAGEConv GATConv init_weight init_bias a true)) e1
       = Ok z1 /\
     forward (Net.init GCNConv SAGEConv GATConv init_weight init_bias a true) d
       = Ok out1 /\
     out1 = log_softmax z1 /\
     has_shape out1 (num_graphs d) (a_num_classes a)) /\
  ((exists g, g < num_graphs d /\ node_count (batch d) g = 1) ->
   embedding (Net.init GCNConv SAGEConv GATConv init_weight init_bias a true) d
     = Raise IndexError /\
   forward (Net.init GCNConv SAGEConv GATConv init_weight init_bias a true) d
     = Raise IndexError).
Proof.
  intros Hs Hwf. split; [reflexivity|]. split; [|split].
  - exact (@forward_layers a false d Hs Hwf).
  - intros Htwo. apply (@forward_layers a true d Hs).
    unfold well_formed in *. destruct Hwf as (H1 & H2 & H3 & H4 & _).
    split; [exact H1|]. split; [exact H2|]. split; [exact H3|].
    split; [exact H4 | exact Htwo].
  - intros Hone.
    pose proof (@embedding_raises_on_single_node a d Hs Hwf Hone) as He.
    split; [exact He|]. unfold forward. rewrite He. reflexivity.
Qed.

End WithLayers.
End ForwardFacts.

Module ModelFacts.
Import PyFacts Net NetFacts NetShapes ForwardFacts.

Section WithLayers.

Variables GCNConv SAGEConv GATConv : nat -> nat -> ConvLayer.
Variable init_weight : string -> nat -> nat -> R.
Variable init_bias : string -> nat -> R.
Variable py_int : string -> option Z.
Variable py_float : string -> option Float64.float.

(** C6: a model type other than gcn, sage and gat is accepted by the
    argument parser as it is, and [Model.__init__] completes with [conv1]
    unset; [forward] on such a model raises an AttributeError. *)
Theorem unsupported_model_leaves_conv1_unset (a : Args) (c : bool) :
  a_model a <> "gcn"%string -> a_model a <> "sage"%string ->
  a_model a <> "gat"%string ->
  (exists ns, Cli.parse_args py_int py_float [("model"%string, a_model a)] = Some ns /\
              Cli.getattr ns "model" = Some (Cli.VStr (a_model a))) /\
  conv1 (init GCNConv SAGEConv GATConv init_weight init_bias a c) = None /\
  forall d, forward (init GCNConv SAGEConv GATConv init_weight init_bias a c) d
            = Raise AttributeError.
Proof.
  intros H1 H2 H3.
  assert (Hconv : conv1 (init GCNConv SAGEConv GATConv init_weight init_bias a c) = None).
  { unfold init. cbn [conv1].
    destruct (String.eqb_spec (a_model a) "gcn"); [contradiction|].
    destruct (String.eqb_spec (a_model a) "sage"); [contradiction|].
    destruct (String.eqb_spec (a_model a) "gat"); [contradiction|].
    reflexivity. }
  split; [|split; [exact Hconv|]].
  - eexists. split; reflexivity.
  - intros d. unfold forward, embedding. rewrite Hconv. reflexivity.
Qed.

End WithLayers.

Lemma sample_conv_contract (i o : nat) : conv_contract (sample_conv i o) i o.
Proof.
  intros m ei n Hm _. unfold sample_conv.
  exact (@linear_shape {| in_features := i; out_features := o;
                          weight := fun _ _ => 1%R; bias := fun _ => 0%R |} m n Hm).
Qed.

Lemma sample_batch_well_formed : well_formed 8 2 sample_batch.
Proof.
  unfold well_formed, sample_batch; cbn [x edge_index batch num_graphs].
  split; [|split; [|split; [|split]]].
  - split; [reflexivity|]. apply Forall_forall. intros row Hin.
    apply repeat_spec in Hin. subst row. reflexivity.
  - intros s t Hin. simpl in Hin.
    repeat (destruct Hin as [Hin|Hin]; [inversion Hin; subst; simpl; lia|]).
    contradiction.
  - lia.
  - intros g Hin. simpl in Hin.
    repeat (destruct Hin as [<-|Hin]; [lia|]). contradiction.
  - intros g Hg. destruct g as [|[|g]]; [cbn; lia | cbn; lia | lia].
Qed.

Lemma single_node_batch_well_formed : well_formed 8 1 single_node_batch.
Proof.
  unfold well_formed, single_node_batch; cbn [x edge_index batch num_graphs].
  split; [|split; [|split; [|split]]].
  - split; [reflexivity|]. repeat constructor.
  - intros s t [].
  - lia.
  - intros g [<-|[]]. lia.
  - intros g Hg. destruct g as [|g]; [cbn; lia | lia].
Qed.

(** C5: in concat mode [forward] raises on a well-formed batch whose only
    graph has a single node, where the mode without concat returns a
    [1 x 2] matrix. *)
Theorem forward_raises_on_single_node_graph :
  well_formed 8 1 single_node_batch /\
  forward (sample_model "sage" true) single_node_batch = Raise IndexError /\
  exists out, forward (sample_model "sage" false) single_node_batch = Ok out /\
              has_shape out 1 2.
Proof.
  split; [exact single_node_batch_well_formed|]. split.
  - unfold forward, embedding, sample_model.
    destruct (@pooled_shape sample_conv sample_conv sample_conv sample_weight
                sample_bias sample_conv_contract sample_conv_contract
                sample_conv_contract (sample_args "sage") true single_node_batch
                (or_intror (or_introl eq_refl)) single_node_batch_well_formed)
      as (conv & h & pooled & Hconv & Hh & Hp & _).
    rewrite Hconv. cbn [getattr Py.bind]. rewrite Hh. cbn [Py.bind].
    rewrite Hp. cbn [Py.bind]. rewrite init_concat.
    cbn [num_graphs single_node_batch seq mapM].
    rewrite (@first_node_single single_node_batch 0 eq_refl). reflexivity.
  - destruct (@forward_shape sample_conv sample_conv sample_conv sample_weight
                sample_bias sample_conv_contract sample_conv_contract
                sample_conv_contract (sample_args "sage") false single_node_batch
                (or_intror (or_introl eq_refl)) single_node_batch_well_formed)
      as (e & out & _ & _ & Hf & Ho).
    exists out. split; [exact Hf | exact Ho].
Qed.

End ModelFacts.

Module TrainFacts.
Import PyFacts Train.

Lemma foldM_app {A S} (body : S -> A -> result S) (xs ys : list A) (s : S) :
  foldM body (xs ++ ys) s = Py.bind (foldM body xs s) (foldM body ys).
Proof.
  revert s; induction xs as [|x xs IH]; intros s; simpl; [reflexivity|].
  destruct (body s x); simpl; auto.
Qed.

Section Loop.

Variables M Batch Out Label Metrics : Type.
Variable env : Env M Batch Out Label Metrics.

Lemma compute_test_frame (v v' : Vars M Out Label Metrics) loader r :
  compute_test env v loader = Ok (v', r) ->
  same_trackers v v' /\ stdout v' = stdout v /\ out_log v' = out_log v /\
  model v' = model v /\ loss_train v' = loss_train v.
Proof.
  unfold compute_test. intros H.
  apply bind_ok in H as (t & _ & H). apply bind_ok in H as (ms & _ & H).
  inversion H; subst. repeat split.
Qed.

Lemma train_batch_frame (v v' : Vars M Out Label Metrics) data :
  train_batch env v data = Ok v' ->
  same_trackers v v' /\ stdout v' = stdout v /\
  exists pair, out_log v' = out_log v ++ [pair].
Proof.
  unfold train_batch. intros H.
  apply bind_ok in H as (out & _ & H). apply bind_ok in H as (y & _ & H).
  apply bind_ok in H as (loss & _ & H).
  inversion H; subst. cbn. repeat split. eauto.
Qed.

Lemma train_batches_frame (bs : list Batch) :
  forall (v v' : Vars M Out Label Metrics), foldM (train_batch env) bs v = Ok v' ->
  same_trackers v v' /\ stdout v' = stdout v /\
  exists pairs, length pairs = length bs /\ out_log v' = out_log v ++ pairs.
Proof.
  induction bs as [|b bs IH]; intros v v' H; simpl in H.
  - inversion H; subst. repeat split. exists []. now rewrite app_nil_r.
  - apply bind_ok in H as (v1 & H1 & H).
    apply train_batch_frame in H1 as ((A1 & A2 & A3) & B1 & (pair & C1)).
    apply IH in H as ((D1 & D2 & D3) & E1 & (pairs & F1 & F2)).
    repeat split; try congruence.
    exists (pair :: pairs). split; [simpl; congruence|].
    rewrite F2, C1, <- app_assoc. reflexivity.
Qed.

Lemma epoch_tail_frame (v v' : Vars M Out Label Metrics) :
  epoch_tail env v = Ok v' ->
  same_trackers v v' /\ out_log v' = out_log v /\
  exists metrics loss_val val_metrics,
    eval_deep env (out_log v) = Ok metrics /\
    stdout v' = stdout v ++ [EpochLine (loss_train v) metrics loss_val val_metrics].
Proof.
  unfold epoch_tail. intros H.
  apply bind_ok in H as (metrics & Hm & H).
  apply bind_ok in H as ([v1 [vm lv]] & Hct & H).
  apply compute_test_frame in Hct as ((A1 & A2 & A3) & B1 & B2 & B3 & B4).
  inversion H; subst; clear H. cbn. repeat split; try assumption.
  exists metrics, lv, vm. split; [exact Hm|].
  now rewrite B1, B4.
Qed.


Lemma final_test_frame (v v' : Vars M Out Label Metrics) :
  final_test env v = Ok v' ->
  same_trackers v v' /\ out_log v' = out_log v /\
  exists metrics, stdout v' = stdout v ++ [TestLine metrics].
Proof.
  unfold final_test. intros H.
  apply bind_ok in H as ([v1 [tm tl]] & Hct & H).
  apply compute_test_frame in Hct as ((A1 & A2 & A3) & B1 & B2 & B3 & B4).
  inversion H; subst; clear H. cbn. repeat split; try assumption.
  exists tm. now rewrite B1.
Qed.

Lemma train_epoch_frame (v v' : Vars M Out Label Metrics) (e : nat) :
  train_epoch env v e = Ok v' ->
  same_trackers v v' /\
  exists pairs metrics loss_train loss_val val_metrics,
    length pairs = length (train_loader env e) /\
    out_log v' = out_log v ++ pairs /\
    eval_deep env (out_log v ++ pairs) = Ok metrics /\
    stdout v' = stdout v ++ [EpochLine loss_train metrics loss_val val_metrics].
Proof.
  unfold train_epoch. intros H.
  apply bind_ok in H as (v1 & Hb & Ht).
  apply train_batches_frame in Hb as ((A1 & A2 & A3) & B1 & (pairs & C1 & C2)).
  apply epoch_tail_frame in Ht as ((D1 & D2 & D3) & E1 & (ms & lv & vm & F1 & F2)).
  cbn in *. split; [repeat split; congruence|].
  exists pairs, ms, (loss_train v1), lv, vm.
  repeat split; try congruence.
Qed.

Lemma printed_snoc e (v v' : Vars M Out Label Metrics) a b c d :
  printed e v -> stdout v' = stdout v ++ [EpochLine a b c d] -> printed (S e) v'.
Proof.
  intros [Hl Ha] Hs. unfold printed. rewrite Hs, length_app, forallb_app, Ha, Hl.
  simpl. split; [lia | reflexivity].
Qed.

Lemma at_point_invariant (m : M) (p : point) (v : Vars M Out Label Metrics) :
  at_point env m p v ->
  trackers_initial v /\
  match p with
  | LoopHead e => e <= Z.to_nat (epochs env) /\ printed e v
  | InEpoch e _ => e < Z.to_nat (epochs env) /\ printed e v
  | Done =>
      exists lines test,
        stdout v = lines ++ [TestLine test] /\
        length lines = Z.to_nat (epochs env) /\
        forallb (@is_epoch_line Metrics) lines = true
  end.
Proof.
  induction 1 as [|e v Hat [IHt [IHe IHp]] Hin
                  |e i v data v' Hat [IHt [IHe IHp]] Hnth Hstep
                  |e v v' Hat [IHt [IHe IHp]] Hstep
                  |v v' Hat [IHt [IHe IHp]] Hstep].
  - repeat split; lia.
  - unfold epoch_range in Hin. apply in_seq in Hin.
    split; [exact IHt|]. split; [lia | exact IHp].
  - apply train_batch_frame in Hstep as ((A1 & A2 & A3) & B1 & _).
    destruct IHt as (T1 & T2 & T3).
    split; [repeat split; congruence|]. split; [exact IHe|].
    unfold printed in *. now rewrite B1.
  - apply epoch_tail_frame in Hstep as ((A1 & A2 & A3) & _ & (ms & lv & vm & _ & F2)).
    destruct IHt as (T1 & T2 & T3).
    split; [repeat split; congruence|]. split; [lia|].
    eapply printed_snoc; eassumption.
  - apply final_test_frame in Hstep as ((A1 & A2 & A3) & _ & (tm & F2)).
    destruct IHt as (T1 & T2 & T3).
    split; [repeat split; congruence|].
    destruct IHp as [Hl Ha]. exists (stdout v), tm. auto.
Qed.

Lemma batches_reach (m : M) (e : nat) (bs : list Batch) :
  forall i (v v' : Vars M Out Label Metrics),
    at_point env m (InEpoch e i) v ->
    skipn i (train_loader env e) = bs ->
    foldM (train_batch env) bs v = Ok v' ->
    at_point env m (InEpoch e (length (train_loader env e))) v'.
Proof.
  induction bs as [|b bs IH]; intros i v v' Hat Hskip H; simpl in H.
  - inversion H; subst.
    assert (Hi : length (train_loader env e) <= i).
    { destruct (Nat.le_gt_cases (length (train_loader env e)) i) as [Hle|Hgt]; [assumption|].
      assert (Hl : length (skipn i (train_loader env e)) = 0) by now rewrite Hskip.
      rewrite length_skipn in Hl. lia. }
    assert (Hi' : i <= length (train_loader env e)).
    { clear - Hat.
      remember (InEpoch e i) as p eqn:Ep. revert i Ep.
      induction Hat; intros j Ep; inversion Ep; subst; try lia.
      assert (Hlt : i < length (train_loader env e))
        by (apply nth_error_Some; congruence).
      lia. }
    replace (length (train_loader env e)) with i by lia. exact Hat.
  - apply bind_ok in H as (v1 & H1 & H).
    assert (Hnth : nth_error (train_loader env e) i = Some b).
    { rewrite <- (firstn_skipn i (train_loader env e)), Hskip.
      assert (Hlen : length (firstn i (train_loader env e)) = i).
      { apply firstn_length_le.
        destruct (Nat.le_gt_cases i (length (train_loader env e))) as [Hle|Hgt]; [assumption|].
        rewrite skipn_all2 in Hskip by lia. discriminate. }
      rewrite nth_error_app2 by lia. rewrite Hlen, Nat.sub_diag. reflexivity. }
    apply (IH (S i) v1 v'); [| |exact H].
    + eapply at_batch; eassumption.
    + replace (S i) with (1 + i) by reflexivity.
      rewrite <- skipn_skipn, Hskip. reflexivity.
Qed.

Lemma epoch_reach (m : M) (e : nat) (v v' : Vars M Out Label Metrics) :
  at_point env m (LoopHead e) v -> e < Z.to_nat (epochs env) ->
  train_epoch env v e = Ok v' -> at_point env m (LoopHead (S e)) v'.
Proof.
  intros Hat He H. unfold train_epoch in H.
  apply bind_ok in H as (v1 & Hb & Ht).
  eapply at_tail; [|exact Ht].
  eapply batches_reach; [| |exact Hb].
  - apply at_enter; [exact Hat|]. unfold epoch_range. apply in_seq. lia.
  - reflexivity.
Qed.

Lemma epochs_reach (m : M) (k : nat) (v : Vars M Out Label Metrics) :
  k <= Z.to_nat (epochs env) ->
  foldM (train_epoch env) (seq 0 k) (init_vars m) = Ok v ->
  at_point env m (LoopHead k) v.
Proof.
  revert v; induction k as [|k IH]; intros v Hk H.
  - inversion H; subst. constructor.
  - rewrite seq_S, foldM_app in H. simpl in H.
    apply bind_ok in H as (v0 & H0 & H).
    destruct (train_epoch env v0 k) as [v1|] eqn:E; simpl in H; [|discriminate].
    inversion H; subst.
    eapply epoch_reach; [apply IH| |]; [lia | exact H0 | lia | exact E].
Qed.

Lemma main_reaches_done (m : M) (v : Vars M Out Label Metrics) :
  main env m = Ok v -> at_point env m Done v.
Proof.
  unfold main, epoch_range. intros H.
  apply bind_ok in H as (v0 & H0 & H).
  eapply at_exit; [|exact H]. now apply epochs_reach.
Qed.

Section NoException.

Hypothesis no_raise : never_raises env.

Lemma call_ok m mode d : exists out, call env m mode d = Ok out.
Proof. apply no_raise. Qed.

Lemma nll_loss_ok out y : exists l, nll_loss env out y = Ok l.
Proof. apply no_raise. Qed.

Lemma eval_deep_ok log : exists ms, eval_deep env log = Ok ms.
Proof. apply no_raise. Qed.

Lemma labels_ok d out :
  exists y, labels env d out = Ok y.
Proof. unfold labels. destruct (multi_gpu env); apply no_raise. Qed.

Lemma train_batch_ok (v : Vars M Out Label Metrics) d : exists v', train_batch env v d = Ok v'.
Proof.
  unfold train_batch.
  destruct (call_ok (model v) (training v) (place env d)) as (out & ->).
  cbn [Py.bind].
  destruct (labels_ok (place env d) out) as (y & ->). cbn [Py.bind].
  destruct (nll_loss_ok out y) as (l & ->). cbn [Py.bind]. eauto.
Qed.

Lemma foldM_ok {A S} (body : S -> A -> result S) :
  (forall s a, exists s', body s a = Ok s') ->
  forall xs s, exists s', foldM body xs s = Ok s'.
Proof.
  intros Hb. induction xs as [|a xs IH]; intros s; simpl; [eauto|].
  destruct (Hb s a) as (s1 & ->). simpl. apply IH.
Qed.

Lemma compute_test_ok (v : Vars M Out Label Metrics) loader : exists r, compute_test env v loader = Ok r.
Proof.
  unfold compute_test.
  destruct (@foldM_ok _ _
              (test_batch env (model v))) with (xs := loader)
              (s := {| t_out_log := @nil (Out * Label); t_loss_test := Float64.lit_0_0 |})
    as (t & Ht).
  - intros t d. unfold test_batch.
    destruct (call_ok (model v) false (place env d)) as (out & ->).
    cbn [Py.bind].
    destruct (labels_ok (place env d) out) as (y & ->). cbn [Py.bind].
    destruct (nll_loss_ok out y) as (l & ->). cbn [Py.bind]. eauto.
  - cbn in Ht |- *. rewrite Ht. cbn [Py.bind].
    destruct (eval_deep_ok (t_out_log t)) as (ms & ->). cbn [Py.bind]. eauto.
Qed.

Lemma train_epoch_ok (v : Vars M Out Label Metrics) e : exists v', train_epoch env v e = Ok v'.
Proof.
  unfold train_epoch.
  destruct (foldM_ok (train_batch env) train_batch_ok (train_loader env e)
              (epoch_head v)) as (v1 & ->).
  cbn [Py.bind]. unfold epoch_tail.
  destruct (eval_deep_ok (out_log v1)) as (ms & ->). cbn [Py.bind].
  destruct (compute_test_ok v1 (val_loader env)) as ([v2 [vm lv]] & ->). cbn [Py.bind]. eauto.
Qed.

Lemma main_ok (m : M) : exists v, main env m = Ok v.
Proof.
  unfold main.
  destruct (foldM_ok (train_epoch env) train_epoch_ok (epoch_range env) (init_vars m))
    as (v & ->).
  cbn [Py.bind]. unfold final_test.
  destruct (compute_test_ok v (test_loader env)) as ([v2 [tm tl]] & ->). cbn [Py.bind]. eauto.
Qed.

End NoException.


Lemma pairs_before_S (e : nat) :
  pairs_before env (S e) = pairs_before env e + length (train_loader env e).
Proof.
  unfold pairs_before. rewrite seq_S, map_app, fold_right_app. simpl.
  generalize (map (fun i => length (train_loader env i)) (seq 0 e)).
  induction l as [|a l IH]; simpl; lia.
Qed.

Lemma at_point_log (m : M) (p : point) (v : Vars M Out Label Metrics) :
  at_point env m p v ->
  match p with
  | LoopHead e => length (out_log v) = pairs_before env e
  | InEpoch e i => length (out_log v) = pairs_before env e + i
  | Done => length (out_log v) = pairs_before env (Z.to_nat (epochs env))
  end.
Proof.
  induction 1 as [|e v Hat IH Hin
                  |e i v data v' Hat IH Hnth Hstep
                  |e v v' Hat IH Hstep
                  |v v' Hat IH Hstep].
  - reflexivity.
  - cbn. lia.
  - apply train_batch_frame in Hstep as (_ & _ & (pair & C1)).
    rewrite C1, length_app. simpl. lia.
  - apply epoch_tail_frame in Hstep as (_ & E1 & _).
    rewrite E1, pairs_before_S. exact IH.
  - apply final_test_frame in Hstep as (_ & E1 & _). now rewrite E1.
Qed.

Lemma test_batches_logged (mdl : M) (loader : list Batch) :
  forall t t', foldM (test_batch env mdl) loader t = Ok t' ->
  exists pairs, Forall2 (logged env mdl) loader pairs /\
                t_out_log t' = t_out_log t ++ pairs.
Proof.
  induction loader as [|d loader IH]; intros t t' H; simpl in H.
  - inversion H; subst. exists []. split; [constructor | now rewrite app_nil_r].
  - apply bind_ok in H as (t1 & H1 & H).
    apply IH in H as (pairs & Hall & Hlog).
    unfold test_batch in H1.
    apply bind_ok in H1 as (out & Hout & H1).
    apply bind_ok in H1 as (y & Hy & H1).
    apply bind_ok in H1 as (loss & _ & H1).
    inversion H1; subst; clear H1. cbn [t_out_log] in Hlog.
    exists ((softmax env out, y) :: pairs). split.
    + constructor; [|exact Hall]. exists out, y. auto.
    + rewrite Hlog, <- app_assoc. reflexivity.
Qed.

(** The final pass: one pair per batch of [test_loader], in order, from the
    model as training left it, and one line for their metrics. *)
Lemma final_test_logged (v v' : Vars M Out Label Metrics) :
  final_test env v = Ok v' ->
  exists test log,
    Forall2 (logged env (model v)) (test_loader env) log /\
    eval_deep env log = Ok test /\
    stdout v' = stdout v ++ [TestLine test] /\
    model v' = model v /\ out_log v' = out_log v.
Proof.
  unfold final_test. intros H.
  apply bind_ok in H as ([v1 [tm tl]] & Hct & H).
  unfold compute_test in Hct. cbn [model] in Hct.
  apply bind_ok in Hct as (t & Ht & Hct).
  apply bind_ok in Hct as (ms & Hms & Hct).
  inversion Hct; subst; clear Hct. inversion H; subst; clear H.
  cbn [model out_log stdout].
  destruct (test_batches_logged _ _ _ Ht) as (pairs & Hall & Hlog).
  cbn [t_out_log app] in Hlog. rewrite Hlog in Hms.
  exists tm, pairs. repeat split; assumption.
Qed.

Lemma done_after_last_epoch (m : M) (v : Vars M Out Label Metrics) :
  at_point env m Done v ->
  exists v0, at_point env m (LoopHead (Z.to_nat (epochs env))) v0 /\
             final_test env v0 = Ok v.
Proof.
  intros H. remember Done as p eqn:Ep.
  destruct H; try discriminate. eauto.
Qed.

(** C7: in every state the main block can reach, [min_loss], [best_epoch]
    and [val_loss_values] hold their initial values; an epoch is only
    entered inside [range(args.epochs)]; the block is done only after exactly
    that many epoch lines, with one pair logged per training batch of every
    epoch, followed by one test line, whose metrics are [eval_deep] of one
    pair per batch of [test_loader], each computed once and in order by the
    model as training left it, in evaluation mode; a completed run of
    [main] ends there, and [main] completes whenever no call raises. *)
Theorem training_loop_runs_every_epoch (m : M) :
  (forall p v, at_point env m p v -> trackers_initial v) /\
  (forall e i v, at_point env m (InEpoch e i) v -> e < Z.to_nat (epochs env)) /\
  (forall v, at_point env m Done v ->
     exists v0 lines test log,
       at_point env m (LoopHead (Z.to_nat (epochs env))) v0 /\
       stdout v0 = lines /\
       length lines = Z.to_nat (epochs env) /\
       forallb (@is_epoch_line Metrics) lines = true /\
       length (out_log v0) = pairs_before env (Z.to_nat (epochs env)) /\
       Forall2 (logged env (model v0)) (test_loader env) log /\
       eval_deep env log = Ok test /\
       stdout v = lines ++ [TestLine test] /\
       model v = model v0 /\ out_log v = out_log v0) /\
  (forall v, main env m = Ok v -> at_point env m Done v) /\
  (never_raises env -> exists v, main env m = Ok v).
Proof.
  split; [|split; [|split; [|split]]].
  - intros p v H. exact (proj1 (at_point_invariant H)).
  - intros e i v H. exact (proj1 (proj2 (at_point_invariant H))).
  - intros v H.
    destruct (done_after_last_epoch H) as (v0 & Hat & Hfinal).
    destruct (at_point_invariant Hat) as (_ & _ & Hlen & Hlines).
    pose proof (at_point_log Hat) as Hlog. cbn in Hlog.
    destruct (final_test_logged _ Hfinal)
      as (test & log & Hall & Heval & Hout & Hmodel & Holog).
    exists v0, (stdout v0), test, log. repeat split; assumption.
  - intros v H. now apply main_reaches_done.
  - intros H. now apply main_ok.
Qed.

(** C4: [out_log] is created once before the epoch loop and only appended
    to: when epoch [e] starts it already holds the pairs of all earlier
    epochs, and the training metrics printed for epoch [e] are [eval_deep]
    of that log extended by the pairs of epoch [e]. *)
Theorem training_log_is_never_reset (m : M) (e : nat)
    (v v' : Vars M Out Label Metrics) :
  at_point env m (LoopHead e) v ->
  train_epoch env v e = Ok v' ->
  length (out_log v) = pairs_before env e /\
  exists pairs metrics loss_train loss_val val_metrics,
    length pairs = length (train_loader env e) /\
    out_log v' = out_log v ++ pairs /\
    eval_deep env (out_log v ++ pairs) = Ok metrics /\
    stdout v' = stdout v ++ [EpochLine loss_train metrics loss_val val_metrics].
Proof.
  intros Hat Hstep. split.
  - exact (at_point_log Hat).
  - exact (proj2 (@train_epoch_frame v v' e Hstep)).
Qed.

End Loop.

(** On the sample instance, the metrics printed for the second epoch are
    computed on the pairs of both epochs. *)
Lemma sample_run :
  exists v,
    main sample_env 0 = Ok v /\
    stdout v =
      [ EpochLine Float64.lit_0_0 [(1, 1); (2, 2)] Float64.lit_0_0 [(3, 3)];
        EpochLine Float64.lit_0_0 [(1, 1); (2, 2); (11, 11); (12, 12)]
                  Float64.lit_0_0 [(3, 3)];
        TestLine [(4, 4)] ] /\
    min_loss v = Float64.lit_1e10 /\ best_epoch v = 0%Z.
Proof. eexists. split; [vm_compute; reflexivity|]. repeat split. Qed.

End TrainFacts.

Module Witnesses.

Lemma splitter_witness :
  exists gl,
    Splitter.graph_list Splitter.two_graphs Splitter.two_graphs_slices = Ok gl /\
    map (@Splitter.edge_index Z) gl = [[(2, 2)]; []]%Z /\
    forall g, In g gl ->
      forall src dst, In (src, dst) (Splitter.edge_index g) -> src = dst.
Proof.
  eexists. split; [reflexivity|]. split; [reflexivity|].
  apply (SplitterFacts.splitter_keeps_only_self_loops
           Splitter.two_graphs Splitter.two_graphs_slices).
  reflexivity.
Defined.

Lemma partitioner_input_witness :
  exists l,
    Script.load 1%Z (seq 0) false Script.one_edge = Ok l /\
    Script.dataset l = Script.one_edge.
Proof.
  eexists. split; [reflexivity|].
  apply (@ScriptFacts.partitioner_splits_the_dataset Z 1%Z
           (@Script.symmetrise Z) (seq 0) false Script.one_edge).
  reflexivity.
Defined.

Lemma reversed_perm (n : nat) : Permutation (Partitioner.reversed n) (seq 0 n).
Proof. symmetry. apply Permutation_rev. Qed.

Lemma partition_witness :
  (Z.of_nat 10 < 2 ^ 52)%Z /\
  exists training_set validation_set test_set,
    Partitioner.partition Partitioner.reversed 10
      = Ok (training_set, validation_set, test_set) /\
    Z.of_nat (length (Partitioner.indices training_set)) = 2%Z /\
    Z.of_nat (length (Partitioner.indices validation_set)) = 1%Z.
Proof.
  split; [reflexivity|].
  destruct (@PartitionerFacts.partition_sizes_and_cover
              Partitioner.reversed reversed_perm 10 eq_refl)
    as (tr & va & te & H & Htr & Hva & _).
  exists tr, va, te. split; [exact H|]. split; [exact Htr | exact Hva].
Defined.

Lemma training_log_witness :
  exists v1 v2,
    Train.at_point Train.sample_env 0 (Train.LoopHead 1) v1 /\
    Train.train_epoch Train.sample_env v1 1 = Ok v2 /\
    length (Train.out_log v1) = 2 /\
    exists pairs metrics loss_train loss_val val_metrics,
      length pairs = 2 /\
      Train.out_log v2 = Train.out_log v1 ++ pairs /\
      Train.eval_deep Train.sample_env (Train.out_log v1 ++ pairs) = Ok metrics /\
      Train.stdout v2 =
        Train.stdout v1 ++ [Train.EpochLine loss_train metrics loss_val val_metrics].
Proof.
  assert (H : exists v1,
             foldM (Train.train_epoch Train.sample_env) (seq 0 1) (Train.init_vars 0)
               = Ok v1 /\
             exists v2, Train.train_epoch Train.sample_env v1 1 = Ok v2)
    by (eexists; split; [vm_compute; reflexivity | eexists; vm_compute; reflexivity]).
  destruct H as (v1 & H1 & v2 & H2).
  assert (Hat : Train.at_point Train.sample_env 0 (Train.LoopHead 1) v1)
    by (apply TrainFacts.epochs_reach; [vm_compute; lia | exact H1]).
  exists v1, v2. split; [exact Hat|]. split; [exact H2|].
  exact (@TrainFacts.training_log_is_never_reset _ _ _ _ _ Train.sample_env 0 1 v1 v2
           Hat H2).
Defined.

Lemma unsupported_model_witness :
  Net.a_model (Net.sample_args "mlp") <> "gcn"%string /\
  Net.conv1 (Net.sample_model "mlp" true) = None.
Proof.
  split; [discriminate|].
  apply (@ModelFacts.unsupported_model_leaves_conv1_unset
           Net.sample_conv Net.sample_conv Net.sample_conv
           Net.sample_weight Net.sample_bias Cli.decimal Cli.no_float
           (Net.sample_args "mlp") true);
    discriminate.
Defined.

Lemma sample_env_never_raises : Train.never_raises Train.sample_env.
Proof. repeat split; intros; eexists; reflexivity. Qed.

Lemma training_loop_witness :
  Train.never_raises Train.sample_env /\
  exists v, Train.main Train.sample_env 0 = Ok v.
Proof.
  split; [exact sample_env_never_raises|].
  apply (TrainFacts.training_loop_runs_every_epoch Train.sample_env 0).
  exact sample_env_never_raises.
Defined.

Lemma concat_mode_witness :
  Net.supported (Net.a_model (Net.sample_args "sage")) /\
  Net.well_formed 8 1 Net.single_node_batch /\
  (exists g, g < Net.num_graphs Net.single_node_batch /\
             Net.node_count (Net.batch Net.single_node_batch) g = 1) /\
  Net.forward (Net.sample_model "sage" true) Net.single_node_batch
    = Raise IndexError /\
  exists e0 out0,
    Net.embedding (Net.sample_model "sage" false) Net.single_node_batch = Ok e0 /\
    Net.has_shape e0 1 4 /\
    Net.forward (Net.sample_model "sage" false) Net.single_node_batch = Ok out0 /\
    Net.has_shape out0 1 2.
Proof.
  assert (Hone : exists g, g < Net.num_graphs Net.single_node_batch /\
                           Net.node_count (Net.batch Net.single_node_batch) g = 1)
    by (exists 0; split; [cbn; lia | reflexivity]).
  destruct (@ForwardFacts.concat_mode_raises_where_plain_mode_returns
              Net.sample_conv Net.sample_conv Net.sample_conv
              Net.sample_weight Net.sample_bias
              ModelFacts.sample_conv_contract ModelFacts.sample_conv_contract
              ModelFacts.sample_conv_contract (Net.sample_args "sage")
              Net.single_node_batch (or_intror (or_introl eq_refl))
              ModelFacts.single_node_batch_well_formed)
    as (_ & (e0 & z0 & out0 & He & Hes & _ & Hf & _ & Hos) & _ & Hraise).
  split; [right; left; reflexivity|].
  split; [exact ModelFacts.single_node_batch_well_formed|].
  split; [exact Hone|].
  split; [exact (proj2 (Hraise Hone))|].
  exists e0, out0. auto.
Defined.

Lemma bool_flag_witness :
  exists ns,
    Cli.parse_args Cli.decimal Cli.no_float
      [("epochs", "2"); ("concat", "False"); ("no_feature", "0")]%string = Some ns /\
    Cli.getattr ns "concat" = Some (Cli.VBool true).
Proof.
  eexists. split; [vm_compute; reflexivity|].
  apply (@CliFacts.bool_flag_parsing Cli.decimal Cli.no_float
           [("epochs", "2"); ("concat", "False"); ("no_feature", "0")]%string _
           "concat"%string eq_refl (or_introl eq_refl)) with (s := "False"%string).
  - reflexivity.
  - discriminate.
Defined.

Lemma single_node_witness :
  Net.concat (Net.sample_model "sage" true) = true /\
  exists e, Net.forward (Net.sample_model "sage" true) Net.single_node_batch = Raise e.
Proof.
  split; [reflexivity|].
  apply (@NetFacts.concat_needs_two_nodes
           (Net.sample_model "sage" true) Net.single_node_batch eq_refl).
  exists 0. split; [cbn; lia | reflexivity].
Defined.

End Witnesses.

Module SplitterRecords.
Import PyFacts Splitter.

Lemma removelast_length {A} (l : list A) : length (removelast l) = length l - 1.
Proof.
  induction l as [|a l IH]; [reflexivity|].
  destruct l as [|b l]; [reflexivity|].
  change (removelast (a :: b :: l)) with (a :: removelast (b :: l)).
  cbn [length] in *. lia.
Qed.

Lemma enumerate_from_length {A} (xs : list A) k :
  length (enumerate_from k xs) = length xs.
Proof. revert k; induction xs; intros k; simpl; auto. Qed.

Lemma nth_error_removelast_lt {A} (l : list A) i :
  i < length l - 1 -> nth_error (removelast l) i = nth_error l i.
Proof.
  revert i; induction l as [|a l IH]; intros i Hi; [simpl in Hi; lia|].
  destruct l as [|b l]; [simpl in Hi; lia|].
  change (removelast (a :: b :: l)) with (a :: removelast (b :: l)).
  destruct i as [|i]; [reflexivity|]. cbn [nth_error].
  apply IH. cbn [length] in *. lia.
Qed.

Lemma nth_error_enumerate_from {A} (xs : list A) k i :
  nth_error (enumerate_from k xs) i =
  option_map (fun a => (k + i, a)) (nth_error xs i).
Proof.
  revert k i; induction xs as [|a xs IH]; intros k i; simpl.
  - now destruct i.
  - destruct i as [|i]; simpl; [now rewrite Nat.add_0_r|].
    rewrite IH. replace (S k + i) with (k + S i) by lia. reflexivity.
Qed.

Section WithFeatures.
Variable F : Type.

(** The loop passes over the positions [0 .. num_graphs - 1] with the
    boundaries found there. *)
Lemma loop_items (s : Slices) (i : nat) (p : nat * (Z * Z)) :
  nth_error (enumerate (combine (drop_last (edge_slices s))
                                (drop_last (node_slices s)))) i = Some p <->
  i < num_graphs s /\
  p = (i, (nth i (edge_slices s) 0%Z, nth i (node_slices s) 0%Z)).
Proof.
  unfold enumerate, drop_last, num_graphs.
  rewrite nth_error_enumerate_from. cbn [Nat.add].
  set (es := edge_slices s). set (ns := node_slices s).
  split.
  - intros H.
    destruct (nth_error (combine (removelast es) (removelast ns)) i) as [[a b]|] eqn:E;
      [|discriminate].
    inversion H; subst; clear H.
    assert (Hi : i < length (combine (removelast es) (removelast ns)))
      by (apply nth_error_Some; congruence).
    rewrite length_combine, !removelast_length in Hi.
    split; [exact Hi|].
    assert (Ha : nth_error (removelast es) i = Some a).
    { revert E. generalize (removelast es) (removelast ns) i.
      induction l as [|u l IH]; intros l' j; destruct l' as [|u' l']; destruct j;
        simpl; try discriminate; [intros Hq; inversion Hq; reflexivity | apply IH]. }
    assert (Hb : nth_error (removelast ns) i = Some b).
    { revert E. generalize (removelast es) (removelast ns) i.
      induction l as [|u l IH]; intros l' j; destruct l' as [|u' l']; destruct j;
        simpl; try discriminate; [intros Hq; inversion Hq; reflexivity | apply IH]. }
    rewrite nth_error_removelast_lt in Ha, Hb by lia.
    now rewrite (nth_error_nth _ _ 0%Z Ha), (nth_error_nth _ _ 0%Z Hb).
  - intros [Hi ->].
    assert (Ha : nth_error (removelast es) i = Some (nth i es 0%Z)).
    { rewrite nth_error_removelast_lt by lia. apply nth_error_nth'. lia. }
    assert (Hb : nth_error (removelast ns) i = Some (nth i ns 0%Z)).
    { rewrite nth_error_removelast_lt by lia. apply nth_error_nth'. lia. }
    assert (E : nth_error (combine (removelast es) (removelast ns)) i
                = Some (nth i es 0%Z, nth i ns 0%Z)).
    { revert Ha Hb. generalize (nth i es 0%Z) (nth i ns 0%Z).
      generalize (removelast es) (removelast ns) i.
      induction l as [|u l IH]; intros l' j a b; destruct l' as [|u' l']; destruct j;
        simpl; try discriminate; [congruence | apply IH]. }
    rewrite E. reflexivity.
Qed.

Lemma loop_length (s : Slices) :
  length (enumerate (combine (drop_last (edge_slices s))
                             (drop_last (node_slices s)))) = num_graphs s.
Proof.
  unfold enumerate, drop_last, num_graphs.
  now rewrite enumerate_from_length, length_combine, !removelast_length.
Qed.

(** One pass of the loop returns exactly when the label and the node count
    of its graph exist; nothing else in it can raise. *)
Lemma split_one_spec (d : Collated F) (s : Slices) (i : nat) :
  i < num_graphs s ->
  split_one d s i (nth i (edge_slices s) 0%Z) (nth i (node_slices s) 0%Z) =
  match nth_error (c_num_nodes d) i, nth_error (c_y d) i with
  | Some n, Some lbl =>
      Ok {| x := slice (nth i (node_slices s) 0%Z) (nth (i + 1) (node_slices s) 0%Z)
                       (c_x d);
            edge_index := filter is_self_loop (edge_slice_of d s i);
            y := lbl; num_nodes := n |}
  | _, _ => Raise IndexError
  end.
Proof.
  unfold num_graphs. intros Hi. unfold split_one, getitem, edge_slice_of.
  assert (He : nth_error (edge_slices s) (i + 1)
               = Some (nth (i + 1) (edge_slices s) 0%Z))
    by (apply nth_error_nth'; lia).
  assert (Hn : nth_error (node_slices s) (i + 1)
               = Some (nth (i + 1) (node_slices s) 0%Z))
    by (apply nth_error_nth'; lia).
  rewrite He. cbn [Py.bind].
  rewrite SplitterFacts.extract_self_loops_filter. cbn [Py.bind].
  destruct (nth_error (c_num_nodes d) i); cbn [Py.bind]; [|reflexivity].
  rewrite Hn. cbn [Py.bind].
  destruct (nth_error (c_y d) i); reflexivity.
Qed.

Lemma graph_list_length (d : Collated F) (s : Slices) (gl : list (Data F)) :
  graph_list d s = Ok gl -> length gl = num_graphs s.
Proof.
  intros H. unfold graph_list in H. rewrite (mapM_length _ _ H).
  apply loop_length.
Qed.

Lemma graph_list_item (d : Collated F) (s : Slices) (gl : list (Data F))
    (i : nat) (g : Data F) :
  graph_list d s = Ok gl -> nth_error gl i = Some g ->
  x g = slice (nth i (node_slices s) 0%Z) (nth (i + 1) (node_slices s) 0%Z)
              (c_x d) /\
  nth_error (c_y d) i = Some (y g) /\
  nth_error (c_num_nodes d) i = Some (num_nodes g).
Proof.
  intros H Hg. unfold graph_list in H.
  destruct (mapM_nth _ _ H _ Hg) as (p & Hp & Hf).
  apply loop_items in Hp as [Hi ->].
  rewrite (split_one_spec d s Hi) in Hf.
  destruct (nth_error (c_num_nodes d) i) as [n|]; [|discriminate].
  destruct (nth_error (c_y d) i) as [lbl|]; [|discriminate].
  inversion Hf; subst. auto.
Qed.

(** X1: when the splitter loop completes, [graph_list] has one record per
    pass of the loop (the shorter of the two boundary sequences, less one),
    and record [i] holds the rows of [dataset.data.x] between node
    boundaries [i] and [i + 1], the label [y[i]] and the count
    [num_nodes[i]]. *)
Theorem graph_list_records (d : Collated F) (s : Slices) (gl : list (Data F)) :
  graph_list d s = Ok gl ->
  length gl = num_graphs s /\
  forall i g, nth_error gl i = Some g ->
    x g = slice (nth i (node_slices s) 0%Z) (nth (i + 1) (node_slices s) 0%Z)
                (c_x d) /\
    nth_error (c_y d) i = Some (y g) /\
    nth_error (c_num_nodes d) i = Some (num_nodes g).
Proof.
  intros H. split.
  - exact (graph_list_length _ _ H).
  - intros i g Hg. exact (graph_list_item _ _ _ H Hg).
Qed.

Lemma graph_list_returns (d : Collated F) (s : Slices) :
  num_graphs s <= length (c_y d) -> num_graphs s <= length (c_num_nodes d) ->
  exists gl, graph_list d s = Ok gl.
Proof.
  intros Hy Hn. unfold graph_list. apply mapM_ok.
  intros p Hp. apply In_nth_error in Hp as (i & Hp).
  apply loop_items in Hp as [Hi ->].
  rewrite (split_one_spec d s Hi).
  destruct (nth_error (c_num_nodes d) i) eqn:E1;
    [|apply nth_error_None in E1; lia].
  destruct (nth_error (c_y d) i) eqn:E2;
    [|apply nth_error_None in E2; lia].
  eauto.
Qed.

Lemma graph_list_raises (d : Collated F) (s : Slices) :
  ~ (num_graphs s <= length (c_y d) /\ num_graphs s <= length (c_num_nodes d)) ->
  graph_list d s = Raise IndexError.
Proof.
  intros Hnot. unfold graph_list. apply mapM_raise.
  - intros p Hp e' He'. apply In_nth_error in Hp as (i & Hp).
    apply loop_items in Hp as [Hi ->].
    rewrite (split_one_spec d s Hi) in He'.
    destruct (nth_error (c_num_nodes d) i); [|congruence].
    destruct (nth_error (c_y d) i); congruence.
  - set (m := Nat.min (length (c_y d)) (length (c_num_nodes d))).
    assert (Hm : m < num_graphs s) by (unfold m; lia).
    exists (m, (nth m (edge_slices s) 0%Z, nth m (node_slices s) 0%Z)). split.
    + eapply nth_error_In. apply loop_items. split; [exact Hm | reflexivity].
    + rewrite (split_one_spec d s Hm).
      destruct (nth_error (c_num_nodes d) m) eqn:E1.
      * destruct (nth_error (c_y d) m) eqn:E2; [|eauto].
        assert (m < length (c_num_nodes d)) by (apply nth_error_Some; congruence).
        assert (m < length (c_y d)) by (apply nth_error_Some; congruence).
        unfold m in *. lia.
      * eauto.
Qed.

(** X2: the splitter loop completes exactly when the store has a label and
    a node count for every pass of the loop; otherwise indexing [y] or
    [num_nodes] at a missing position raises IndexError, and no other
    exception can come out of the loop. *)
Theorem graph_list_raises_without_labels (d : Collated F) (s : Slices) :
  (num_graphs s <= length (c_y d) /\ num_graphs s <= length (c_num_nodes d) ->
   exists gl, graph_list d s = Ok gl) /\
  (~ (num_graphs s <= length (c_y d) /\ num_graphs s <= length (c_num_nodes d)) ->
   graph_list d s = Raise IndexError).
Proof.
  split.
  - intros [Hy Hn]. now apply graph_list_returns.
  - apply graph_list_raises.
Qed.

(** The pieces that consecutive boundaries cut out of a list. *)
Lemma concat_pieces {A} (l : list A) (bounds : list Z) (from : Z) (k : nat) :
  (0 <= from)%Z ->
  consecutive from bounds (Z.of_nat (length l)) ->
  length bounds = k ->
  concat (map (fun i => slice (nth i (from :: bounds) 0%Z)
                              (nth (i + 1) (from :: bounds) 0%Z) l)
              (seq 0 k))
  = skipn (Z.to_nat from) l.
Proof.
  revert from k; induction bounds as [|b bounds IH]; intros from k H0 Hc Hk.
  - simpl in Hk. subst k. simpl in *. 
    symmetry. apply skipn_all2. lia.
  - simpl in Hk. subst k. destruct Hc as [Hfb Hc].
    assert (Hb : (b <= Z.of_nat (length l))%Z).
    { clear - Hc. revert b Hc. induction bounds as [|c bounds IHb]; intros b Hc.
      - simpl in Hc. lia.
      - destruct Hc as [Hbc Hc]. specialize (IHb _ Hc). lia. }
    cbn [seq map concat]. rewrite <- seq_shift, map_map.
    rewrite (map_ext _ (fun i => slice (nth i (b :: bounds) 0%Z)
                                       (nth (i + 1) (b :: bounds) 0%Z) l))
      by reflexivity.
    rewrite (IH b (length bounds)) by (auto; lia).
    cbn [nth Nat.add].
    rewrite PartitionerFacts.slice_inside by lia.
    rewrite <- (firstn_skipn (Z.to_nat b - Z.to_nat from) (skipn (Z.to_nat from) l))
      at 2.
    f_equal. rewrite skipn_skipn. f_equal. lia.
Qed.

(** X3: when the node boundaries start at 0, never decrease and end at the
    number of rows of [dataset.data.x], and there are at least as many edge
    boundaries, the feature matrices of the records of [graph_list], put
    one after the other, give back [dataset.data.x]: no row is lost,
    repeated or reordered. *)
Theorem graph_list_features_round_trip (d : Collated F) (s : Slices)
    (gl : list (Data F)) :
  graph_list d s = Ok gl ->
  cuts (node_slices s) (length (c_x d)) ->
  length (node_slices s) <= length (edge_slices s) ->
  concat (map (@x F) gl) = c_x d.
Proof.
  intros H Hcuts Hlen.
  pose proof (graph_list_length _ _ H) as Hn.
  pose proof (fun i g => @graph_list_item _ _ _ i g H) as Hrec.
  assert (Hmap : map (@x F) gl =
                 map (fun i => slice (nth i (node_slices s) 0%Z)
                                     (nth (i + 1) (node_slices s) 0%Z) (c_x d))
                     (seq 0 (num_graphs s))).
  { apply nth_error_ext. intros i.
    rewrite !nth_error_map.
    destruct (nth_error gl i) as [g|] eqn:Eg.
    - assert (Hi : i < num_graphs s)
        by (rewrite <- Hn; apply nth_error_Some; congruence).
      rewrite (nth_error_nth' _ 0 ) by (rewrite length_seq; exact Hi).
      rewrite seq_nth by exact Hi. cbn [option_map Nat.add].
      f_equal. apply (Hrec i g Eg).
    - apply nth_error_None in Eg.
      assert (E : nth_error (seq 0 (num_graphs s)) i = None)
        by (apply nth_error_None; rewrite length_seq; lia).
      rewrite E. reflexivity. }
  rewrite Hmap. unfold cuts in Hcuts.
  destruct (node_slices s) as [|b bounds] eqn:En; [contradiction|].
  destruct Hcuts as [-> Hc].
  assert (Hk : num_graphs s = length bounds).
  { unfold num_graphs. rewrite En. cbn [length] in *. lia. }
  rewrite Hk. rewrite (concat_pieces (c_x d) bounds (from := 0%Z) (k := length bounds))
    by (auto; lia).
  reflexivity.
Qed.

Lemma filter_concat {A} (f : A -> bool) (ls : list (list A)) :
  filter f (concat ls) = concat (map (filter f) ls).
Proof.
  induction ls as [|l ls IH]; [reflexivity|].
  cbn [concat map]. now rewrite filter_app, IH.
Qed.

(** X4: when the edge boundaries start at 0, never decrease and end at the
    number of columns of [dataset.data.edge_index], and there are at least
    as many node boundaries, the edge indices of the records of
    [graph_list], put one after the other, are exactly the self-loop
    columns of the whole store, in their original order. *)
Theorem graph_list_holds_the_self_loops_of_the_store (d : Collated F)
    (s : Slices) (gl : list (Data F)) :
  graph_list d s = Ok gl ->
  cuts (edge_slices s) (length (c_edge_index d)) ->
  length (edge_slices s) <= length (node_slices s) ->
  concat (map (@edge_index F) gl) = filter is_self_loop (c_edge_index d).
Proof.
  intros H Hcuts Hlen.
  pose proof (graph_list_length _ _ H) as Hn.
  assert (Hmap : map (@edge_index F) gl =
                 map (filter is_self_loop)
                     (map (fun i => slice (nth i (edge_slices s) 0%Z)
                                          (nth (i + 1) (edge_slices s) 0%Z)
                                          (c_edge_index d))
                          (seq 0 (num_graphs s)))).
  { apply nth_error_ext. intros i.
    rewrite !nth_error_map.
    destruct (nth_error gl i) as [g|] eqn:Eg.
    - assert (Hi : i < num_graphs s)
        by (rewrite <- Hn; apply nth_error_Some; congruence).
      rewrite (nth_error_nth' _ 0) by (rewrite length_seq; exact Hi).
      rewrite seq_nth by exact Hi. cbn [option_map Nat.add].
      f_equal. exact (SplitterFacts.graph_list_edges _ _ _ H Eg).
    - apply nth_error_None in Eg.
      assert (E : nth_error (seq 0 (num_graphs s)) i = None)
        by (apply nth_error_None; rewrite length_seq; lia).
      rewrite E. reflexivity. }
  rewrite Hmap, <- filter_concat. f_equal.
  unfold cuts in Hcuts.
  destruct (edge_slices s) as [|b bounds] eqn:En; [contradiction|].
  destruct Hcuts as [-> Hc].
  assert (Hk : num_graphs s = length bounds).
  { unfold num_graphs. rewrite En. cbn [length] in *. lia. }
  rewrite Hk.
  rewrite (concat_pieces (c_edge_index d) bounds (from := 0%Z) (k := length bounds))
    by (auto; lia).
  reflexivity.
Qed.

End WithFeatures.

Lemma slice_map {A B} (f : A -> B) (a b : Z) (l : list A) :
  slice a b (map f l) = map f (slice a b l).
Proof. unfold slice. now rewrite length_map, skipn_map, firstn_map. Qed.

Lemma mapM_map_result {A B C} (f : A -> result B) (g : B -> C) (xs : list A) :
  mapM (fun a => map_result g (f a)) xs = map_result (map g) (mapM f xs).
Proof.
  induction xs as [|a xs IH]; [reflexivity|].
  cbn [mapM]. rewrite IH.
  destruct (f a); cbn [map_result Py.bind]; [|reflexivity].
  destruct (mapM f xs); reflexivity.
Qed.

Section NoFeature.
Variable F : Type.
Variable one : F.

Lemma split_one_no_feature (ds : Script.Dataset F) i e n :
  split_one (Script.data (Script.apply_no_feature one true ds))
            (Script.slices (Script.apply_no_feature one true ds)) i e n =
  map_result (Script.featureless one)
             (split_one (Script.data ds) (Script.slices ds) i e n).
Proof.
  unfold split_one, Script.apply_no_feature.
  cbn [Script.data Script.slices c_x c_edge_index c_y c_num_nodes].
  destruct (getitem (edge_slices (Script.slices ds)) (i + 1)); [|reflexivity].
  cbn [Py.bind].
  destruct (extract_self_loops _); [|reflexivity]. cbn [Py.bind].
  destruct (getitem (c_num_nodes (Script.data ds)) i); [|reflexivity].
  cbn [Py.bind].
  destruct (getitem (node_slices (Script.slices ds)) (i + 1)); [|reflexivity].
  cbn [Py.bind].
  destruct (getitem (c_y (Script.data ds)) i); [|reflexivity].
  cbn [Py.bind map_result]. unfold Script.featureless.
  cbn [x edge_index y num_nodes]. now rewrite slice_map.
Qed.

(** X5: with [--no_feature] set, the splitter loop has the same outcome as
    without it (the same exception, or records with the same edges, labels
    and node counts), except that every entry of every feature matrix is
    the constant of [torch.ones]; with the flag unset the dataset is left
    as it is. *)
Theorem no_feature_commutes_with_splitting (ds : Script.Dataset F) :
  graph_list (Script.data (Script.apply_no_feature one true ds))
             (Script.slices (Script.apply_no_feature one true ds)) =
  map_result (map (Script.featureless one))
             (graph_list (Script.data ds) (Script.slices ds)) /\
  Script.apply_no_feature one false ds = ds /\
  forall g row v, In row (x (Script.featureless one g)) -> In v row -> v = one.
Proof.
  split; [|split].
  - unfold graph_list.
    replace (Script.slices (Script.apply_no_feature one true ds))
      with (Script.slices ds) by reflexivity.
    generalize (enumerate (combine (drop_last (edge_slices (Script.slices ds)))
                                   (drop_last (node_slices (Script.slices ds))))).
    intros l. induction l as [|[i [e n]] l IH]; [reflexivity|].
    cbn [mapM]. rewrite IH.
    change (Script.slices ds)
      with (Script.slices (Script.apply_no_feature one true ds)) at 1.
    rewrite split_one_no_feature.
    destruct (split_one (Script.data ds) (Script.slices ds) i e n);
      cbn [map_result Py.bind]; [|reflexivity].
    match goal with
    | |- context [map_result (map _) ?m] => destruct m
    end; reflexivity.
  - reflexivity.
  - intros g row v Hrow Hv. unfold Script.featureless in Hrow. cbn [x] in Hrow.
    apply in_map_iff in Hrow as (row0 & <- & _).
    apply in_map_iff in Hv as (v0 & <- & _). reflexivity.
Qed.

End NoFeature.
End SplitterRecords.

Module PartitionerEdges.
Import Partitioner PartitionerFacts.

Section WithGenerator.

Variable randperm : nat -> list nat.
Hypothesis randperm_perm : forall n, Permutation (randperm n) (seq 0 n).

(** Lines 118-121 below 2^52 graphs: the three subsets are consecutive
    pieces of the permutation. *)
Lemma partition_pieces (n : nat) :
  (Z.of_nat n < 2 ^ 52)%Z ->
  partition randperm n =
  Ok ({| indices := firstn (n / 5) (randperm n) |},
      {| indices := firstn (n / 10) (skipn (n / 5) (randperm n)) |},
      {| indices := skipn (n / 5 + n / 10) (randperm n) |}).
Proof.
  intros Hn.
  set (N := Z.of_nat n) in *.
  assert (HN : (0 <= N < 2 ^ 52)%Z) by (unfold N; lia).
  assert (Hbounds : (0 <= N / 5 /\ 0 <= N / 10 /\ N / 5 + N / 10 <= N)%Z).
  { pose proof (Z.div_pos N 5). pose proof (Z.div_pos N 10).
    pose proof (Z.mul_div_le N 5). pose proof (Z.mul_div_le N 10). lia. }
  destruct Hbounds as (H5 & H10 & Hle).
  unfold partition. fold N.
  rewrite (FloatFacts.num_training_floor HN), (FloatFacts.num_val_floor HN).
  cbn [Py.bind]. unfold num_test.
  rewrite (@random_split_three randperm randperm_perm) by (unfold N in *; lia).
  cbn [Py.bind].
  assert (E5 : Z.to_nat (N / 5) = n / 5).
  { unfold N. change 5%Z with (Z.of_nat 5). rewrite <- Nat2Z.inj_div.
    apply Nat2Z.id. }
  assert (E10 : Z.to_nat (N / 10) = n / 10).
  { unfold N. change 10%Z with (Z.of_nat 10). rewrite <- Nat2Z.inj_div.
    apply Nat2Z.id. }
  rewrite E5, E10. reflexivity.
Qed.

(** X6: for a dataset of [n] graphs, [n] below [2 ^ 52], lines 118-121
    return three subsets where the training subset is empty exactly when
    [n < 5], the validation subset is empty exactly when [n < 10], the test
    subset is empty only for the empty dataset and always holds at least
    70% of the graphs, and the validation subset has half the size of the
    training subset, rounded down. *)
Theorem partition_of_small_datasets (n : nat) :
  (Z.of_nat n < 2 ^ 52)%Z ->
  exists training_set validation_set test_set,
    partition randperm n = Ok (training_set, validation_set, test_set) /\
    (indices training_set = [] <-> n < 5) /\
    (indices validation_set = [] <-> n < 10) /\
    (indices test_set = [] <-> n = 0) /\
    7 * n <= 10 * length (indices test_set) /\
    length (indices validation_set) = length (indices training_set) / 2.
Proof.
  intros Hn. rewrite (@partition_pieces n Hn). do 3 eexists.
  split; [reflexivity|]. cbn [indices].
  assert (Hlen : length (randperm n) = n)
    by (rewrite (Permutation_length (randperm_perm n)); apply length_seq).
  set (p := randperm n) in *.
  pose proof (Nat.Div0.mul_div_le n 5) as L5.
  pose proof (Nat.Div0.mul_div_le n 10) as L10.
  assert (D5 : n < 5 * S (n / 5))
    by (apply Nat.mul_succ_div_gt; lia).
  assert (D10 : n < 10 * S (n / 10))
    by (apply Nat.mul_succ_div_gt; lia).
  assert (Ha : length (firstn (n / 5) p) = n / 5)
    by (rewrite length_firstn, Hlen; lia).
  assert (Hb : length (firstn (n / 10) (skipn (n / 5) p)) = n / 10)
    by (rewrite length_firstn, length_skipn, Hlen; lia).
  assert (Hc : length (skipn (n / 5 + n / 10) p) = n - (n / 5 + n / 10))
    by (rewrite length_skipn, Hlen; reflexivity).
  assert (Hnil : forall (l : list nat), l = [] <-> length l = 0)
    by (intros l; destruct l; simpl; split; (congruence || lia)).
  rewrite !Hnil, Ha, Hb, Hc.
  assert (Hhalf : n / 10 = n / 5 / 2)
    by (rewrite Nat.Div0.div_div; reflexivity).
  repeat split; lia.
Qed.

End WithGenerator.
End PartitionerEdges.

Module LoadFacts.
Import PyFacts Script.

Section WithProvider.

Variable F : Type.
Variable one : F.
Variable randperm : nat -> list nat.
Hypothesis randperm_perm : forall n, Permutation (randperm n) (seq 0 n).

Lemma apply_no_feature_frame (no_feature : bool) (ds : Dataset F) :
  slices (apply_no_feature one no_feature ds) = slices ds /\
  Splitter.c_y (data (apply_no_feature one no_feature ds))
    = Splitter.c_y (data ds) /\
  Splitter.c_num_nodes (data (apply_no_feature one no_feature ds))
    = Splitter.c_num_nodes (data ds).
Proof. destruct no_feature; repeat split. Qed.

(** X7: lines 93-121 on a dataset of fewer than [2 ^ 52] graphs, with a
    generator that returns permutations: if the store has a label and a
    node count for every pass of the splitter loop, the lines complete,
    [graph_list] has one record per pass and the sizes of the three subsets
    add up to [len(dataset)]; otherwise they raise IndexError inside the
    splitter loop, before anything is partitioned. *)
Theorem load_returns (no_feature : bool) (ds : Dataset F) :
  (Z.of_nat (dataset_len ds) < 2 ^ 52)%Z ->
  (Splitter.num_graphs (slices ds) <= length (Splitter.c_y (data ds)) /\
   Splitter.num_graphs (slices ds) <= length (Splitter.c_num_nodes (data ds)) ->
   exists l,
     load one randperm no_feature ds = Ok l /\
     length (graph_list l) = Splitter.num_graphs (slices ds) /\
     length (Partitioner.indices (training_set l))
     + length (Partitioner.indices (validation_set l))
     + length (Partitioner.indices (test_set l)) = dataset_len ds) /\
  (~ (Splitter.num_graphs (slices ds) <= length (Splitter.c_y (data ds)) /\
      Splitter.num_graphs (slices ds) <= length (Splitter.c_num_nodes (data ds))) ->
   load one randperm no_feature ds = Raise IndexError).
Proof.
  intros Hn.
  destruct (apply_no_feature_frame no_feature ds) as (Es & Ey & En).
  assert (El : dataset_len (apply_no_feature one no_feature ds) = dataset_len ds)
    by (unfold dataset_len; now rewrite Es).
  split.
  - intros [Hy Hnn].
    destruct (@SplitterRecords.graph_list_returns F
                (data (apply_no_feature one no_feature ds))
                (slices (apply_no_feature one no_feature ds))) as (gl & Hgl).
    + now rewrite Es, Ey.
    + now rewrite Es, En.
    + unfold load. rewrite Hgl. cbn [Py.bind]. rewrite El.
      rewrite (@PartitionerEdges.partition_pieces randperm randperm_perm _ Hn).
      cbn [Py.bind]. eexists. split; [reflexivity|].
      cbn [graph_list training_set validation_set test_set Partitioner.indices].
      split.
      * rewrite (SplitterRecords.graph_list_length _ _ Hgl). now rewrite Es.
      * rewrite <- !length_app, <- app_assoc, PartitionerFacts.three_pieces.
        rewrite (Permutation_length (randperm_perm _)). apply length_seq.
  - intros Hnot. unfold load.
    rewrite SplitterRecords.graph_list_raises; [reflexivity|].
    now rewrite Es, Ey, En.
Qed.

End WithProvider.
End LoadFacts.

Module ForwardEdges.
Import PyFacts Net NetFacts NetShapes ForwardFacts.

(** The first position that [nonzero] reports is the first one set. *)
Lemma positions_from_head (mask : list bool) (i p : nat) (rest : list nat) :
  positions_from i mask = p :: rest ->
  i <= p /\ nth_error mask (p - i) = Some true /\
  forall q, q < p - i -> nth_error mask q = Some false.
Proof.
  revert i; induction mask as [|b mask IH]; intros i H; simpl in H;
    [discriminate|].
  destruct b.
  - inversion H; subst. rewrite Nat.sub_diag. split; [lia|].
    split; [reflexivity|]. intros q Hq. lia.
  - apply IH in H as (Hle & Hp & Hq).
    split; [lia|].
    replace (p - i) with (S (p - S i)) by lia. split; [exact Hp|].
    intros [|q] Hlt; [reflexivity|]. simpl. apply Hq. lia.
Qed.

Lemma eq_mask_true (batch : list nat) (g p : nat) :
  nth_error (eq_mask batch g) p = Some true <-> nth_error batch p = Some g.
Proof.
  unfold eq_mask. rewrite nth_error_map.
  destruct (nth_error batch p) as [b|]; simpl; [|split; discriminate].
  destruct (Nat.eqb_spec b g); split; congruence.
Qed.

Lemma eq_mask_false (batch : list nat) (g p : nat) :
  nth_error (eq_mask batch g) p = Some false -> nth_error batch p <> Some g.
Proof.
  intros H Hg. apply eq_mask_true in Hg. congruence.
Qed.

(** Line 59 on a graph of two nodes or more. *)
Lemma first_node_value (d : Batch) (g n : nat) :
  node_count (batch d) g = S (S n) ->
  first_node_features d g =
  getitem (x d) (hd 0 (positions_from 0 (eq_mask (batch d) g))).
Proof.
  intros Hn. unfold first_node_features, squeeze, nonzero. cbn [shape data].
  pose proof (positions_from_length (batch d) g 0) as Hlen.
  rewrite Hn in Hlen. rewrite Hlen.
  destruct (positions_from 0 (eq_mask (batch d) g)) as [|p rest];
    [discriminate|].
  reflexivity.
Qed.

(** X8: line 59.  When the expression
    [data.x[(data.batch == idx).nonzero().squeeze()[0]]] returns a row, it
    is the feature row of the first node, in batch order, that is assigned
    to graph [idx]; and it does return one for every graph with at least
    two nodes when [data.x] has a row for every entry of [data.batch]. *)
Theorem first_node_is_first_in_batch_order (d : Batch) (g : nat) :
  (forall row, first_node_features d g = Ok row ->
     exists p, nth_error (batch d) p = Some g /\
               (forall q, q < p -> nth_error (batch d) q <> Some g) /\
               nth_error (x d) p = Some row) /\
  (2 <= node_count (batch d) g -> length (batch d) <= length (x d) ->
   exists row, first_node_features d g = Ok row).
Proof.
  split.
  - intros row H. pose proof (first_node_ok _ _ H) as Hc.
    destruct (node_count (batch d) g) as [|[|n]] eqn:En; try lia.
    rewrite (first_node_value _ _ En) in H.
    pose proof (positions_from_length (batch d) g 0) as Hlen.
    rewrite En in Hlen.
    destruct (positions_from 0 (eq_mask (batch d) g)) as [|p rest] eqn:Ep;
      [discriminate|].
    apply positions_from_head in Ep as (_ & Hp & Hq).
    rewrite Nat.sub_0_r in Hp, Hq. cbn [hd] in H.
    exists p. split; [now apply eq_mask_true|]. split.
    + intros q Hlt. apply eq_mask_false. auto.
    + unfold getitem in H. destruct (nth_error (x d) p); congruence.
  - intros Hc Hx.
    destruct (node_count (batch d) g) as [|[|n]] eqn:En; try lia.
    rewrite (first_node_value _ _ En).
    pose proof (positions_from_length (batch d) g 0) as Hlen.
    rewrite En in Hlen.
    destruct (positions_from 0 (eq_mask (batch d) g)) as [|p rest] eqn:Ep;
      [discriminate|].
    apply positions_from_head in Ep as (_ & Hp & _).
    rewrite Nat.sub_0_r in Hp. apply eq_mask_true in Hp. cbn [hd].
    assert (Hlt : p < length (batch d)) by (apply nth_error_Some; congruence).
    unfold getitem.
    destruct (nth_error (x d) p) as [row|] eqn:Er; [eauto|].
    apply nth_error_None in Er. lia.
Qed.

Lemma gmp_ok (m : Matrix) (batch : list nat) (pooled : Matrix) :
  gmp m batch = Ok pooled ->
  exists width,
    pooled = map (fun g => max_rows width (group_rows m (broadcast batch m) g))
                 (seq 0 (num_ids batch)).
Proof.
  unfold gmp. cbv zeta.
  destruct (negb (length m =? length (broadcast batch m))); [discriminate|].
  intros H. eexists. symmetry.
  exact (f_equal (fun r => match r with Ok a => a | Raise _ => [] end) H).
Qed.

Lemma gmp_rows (m : Matrix) (batch : list nat) (pooled : Matrix) :
  gmp m batch = Ok pooled -> length pooled = num_ids batch.
Proof.
  intros H. apply gmp_ok in H as (w & ->).
  now rewrite length_map, length_seq.
Qed.

Lemma stack_rows (rows : list (list R)) (m : Matrix) :
  stack rows = Ok m -> m = rows.
Proof.
  unfold stack. destruct rows as [|r rs]; [discriminate|].
  destruct (forallb _ rs); [|discriminate]. congruence.
Qed.

Lemma cat1_rows (a b e : Matrix) :
  cat1 a b = Ok e -> length a = length b /\ length e = length a.
Proof.
  unfold cat1. destruct (Nat.eqb_spec (length a) (length b)) as [E|E];
    [|discriminate].
  intros H. inversion H; subst. split; [exact E|].
  rewrite length_map, length_combine. lia.
Qed.

Lemma relu_rows (m : Matrix) : length (relu m) = length m.
Proof. unfold relu. apply length_map. Qed.

(** X9: whenever [forward] returns, its output has one row per graph id up
    to the largest id in [data.batch], and none for an empty batch; in
    concat mode it returns only if that number equals [data.num_graphs]. *)
Theorem forward_row_count (self : Model) (d : Batch) (out : Matrix) :
  forward self d = Ok out ->
  length out = num_ids (batch d) /\
  (concat self = true -> num_graphs d = num_ids (batch d)).
Proof.
  intros H. unfold forward in H.
  apply bind_ok in H as (e & He & H).
  apply bind_ok in H as (z & Hz & H). inversion H; subst; clear H.
  unfold log_softmax. rewrite length_map.
  unfold linear in Hz. rewrite (mapM_length _ _ Hz). clear Hz.
  unfold embedding in He.
  apply bind_ok in He as (conv & _ & He).
  apply bind_ok in He as (h & _ & He).
  apply bind_ok in He as (pooled & Hp & He).
  apply gmp_rows in Hp.
  destruct (concat self).
  - apply bind_ok in He as (rows & Hrows & He).
    apply bind_ok in He as (news & Hnews & He).
    apply bind_ok in He as (l0 & _ & He).
    apply bind_ok in He as (news' & Hlin & He).
    apply cat1_rows in He as [Hab He]. rewrite relu_rows in Hab.
    apply stack_rows in Hnews. subst news.
    unfold linear in Hlin. apply mapM_length in Hlin.
    apply mapM_length in Hrows. rewrite length_seq in Hrows.
    split; [lia|]. intros _. lia.
  - inversion He; subst. split; [exact Hp|]. discriminate.
Qed.

Local Open Scope R_scope.

Lemma relu_non_negative (m : Matrix) : non_negative (relu m).
Proof.
  intros row v Hrow Hv. unfold relu in Hrow.
  apply in_map_iff in Hrow as (r & <- & _).
  apply in_map_iff in Hv as (u & <- & _). apply Rmax_l.
Qed.

Lemma zip_max_non_negative (a b : list R) :
  (forall v, In v a -> 0 <= v) -> forall v, In v (zip_max a b) -> 0 <= v.
Proof.
  revert b; induction a as [|u a IH]; intros b Ha v Hv; [contradiction|].
  destruct b as [|w b]; [contradiction|]. simpl in Hv.
  destruct Hv as [<-|Hv].
  - eapply Rle_trans; [apply Ha; now left | apply Rmax_l].
  - apply (IH b); [intros; apply Ha; now right | exact Hv].
Qed.

Lemma max_rows_non_negative (width : nat) (rows : Matrix) :
  non_negative rows -> forall v, In v (max_rows width rows) -> 0 <= v.
Proof.
  intros Hrows v Hv. unfold max_rows in Hv.
  destruct rows as [|r rs].
  - apply repeat_spec in Hv. subst. apply Rle_refl.
  - assert (Hr : forall u, In u r -> 0 <= u)
      by (intros u Hu; apply (Hrows r u); [now left | exact Hu]).
    clear Hrows. revert r Hr Hv.
    induction rs as [|s rs IH]; intros r Hr Hv; simpl in Hv; [auto|].
    apply (IH (zip_max r s)); [|exact Hv].
    intros u Hu. exact (@zip_max_non_negative r s Hr u Hu).
Qed.

Lemma group_rows_incl (m : Matrix) (batch : list nat) (g : nat) (row : list R) :
  In row (group_rows m batch g) -> In row m.
Proof.
  unfold group_rows. intros H.
  apply in_map_iff in H as ([r b] & <- & H).
  apply filter_In in H as [H _]. exact (in_combine_l _ _ _ _ H).
Qed.

Lemma gmp_non_negative (m : Matrix) (batch : list nat) (pooled : Matrix) :
  non_negative m -> gmp m batch = Ok pooled -> non_negative pooled.
Proof.
  intros Hm H. apply gmp_ok in H as (w & ->).
  intros row v Hrow Hv. apply in_map_iff in Hrow as (g & <- & _).
  eapply max_rows_non_negative; [|exact Hv].
  intros r u Hr Hu. apply (Hm r u); [|exact Hu].
  exact (@group_rows_incl _ _ _ _ Hr).
Qed.

(** X10: no entry of the embedding handed to [lin1] is negative, in either
    mode: the pooled part is a maximum over rows that went through [relu]
    (zero for an id without nodes), and the source-node part goes through
    [relu] itself. *)
Theorem embedding_is_non_negative (self : Model) (d : Batch) (e : Matrix) :
  embedding self d = Ok e ->
  forall row v, In row e -> In v row -> 0 <= v.
Proof.
  intros He. unfold embedding in He.
  apply bind_ok in He as (conv & _ & He).
  apply bind_ok in He as (h & _ & He).
  apply bind_ok in He as (pooled & Hp & He).
  pose proof (@gmp_non_negative _ _ _ (relu_non_negative h) Hp) as Hpool.
  destruct (concat self).
  - apply bind_ok in He as (rows & _ & He).
    apply bind_ok in He as (news & _ & He).
    apply bind_ok in He as (l0 & _ & He).
    apply bind_ok in He as (news' & _ & He).
    unfold cat1 in He.
    destruct (length pooled =? length (relu news'))%nat; [|discriminate].
    inversion He; subst; clear He.
    intros row v Hrow Hv.
    apply in_map_iff in Hrow as ([r1 r2] & <- & Hin).
    apply in_app_or in Hv as [Hv|Hv].
    + exact (Hpool r1 v (in_combine_l _ _ _ _ Hin) Hv).
    + exact (@relu_non_negative news' r2 v (in_combine_r _ _ _ _ Hin) Hv).
  - inversion He; subst. exact Hpool.
Qed.

Lemma exp_le_sum_exp (row : list R) (v : R) : In v row -> exp v <= sum_exp row.
Proof.
  unfold sum_exp. induction row as [|u row IH]; intros H; [contradiction|].
  simpl.
  assert (Hpos : 0 <= fold_right Rplus 0 (map exp row)).
  { clear. induction row as [|w row IHr]; simpl; [lra|].
    pose proof (exp_pos w). lra. }
  destruct H as [->|H].
  - lra.
  - specialize (IH H). pose proof (exp_pos u). lra.
Qed.

Lemma log_softmax_non_positive (m : Matrix) (row : list R) (v : R) :
  In row (log_softmax m) -> In v row -> v <= 0.
Proof.
  unfold log_softmax. intros Hrow Hv.
  apply in_map_iff in Hrow as (r & <- & _).
  apply in_map_iff in Hv as (u & <- & Hu).
  assert (Hne : r <> []) by (intros ->; contradiction).
  pose proof (sum_exp_pos Hne) as Hpos.
  pose proof (@exp_le_sum_exp _ _ Hu) as Hle.
  assert (Hln : u <= ln (sum_exp r)).
  { rewrite <- (ln_exp u) at 1.
    destruct Hle as [Hlt|Heq].
    - left. apply ln_increasing; [apply exp_pos | exact Hlt].
    - right. now rewrite Heq. }
  lra.
Qed.

Section WithLayers.

Variables GCNConv SAGEConv GATConv : nat -> nat -> ConvLayer.
Variable init_weight : string -> nat -> nat -> R.
Variable init_bias : string -> nat -> R.

Hypothesis GCNConv_contract : forall i o, conv_contract (GCNConv i o) i o.
Hypothesis SAGEConv_contract : forall i o, conv_contract (SAGEConv i o) i o.
Hypothesis GATConv_contract : forall i o, conv_contract (GATConv i o) i o.

(** X11: for a supported model type, at least one class, and a batch in
    which every graph has the nodes its mode needs (two with concat, one
    without), [forward] returns [num_graphs] rows of [num_classes] entries;
    every entry is at most 0 and the exponentials of each row sum to 1
    (over the reals, with convolution layers that return one row of [nhid]
    entries per node). *)
Theorem forward_returns_log_probabilities (a : Args) (c : bool) (d : Batch) :
  supported (a_model a) ->
  (1 <= a_num_classes a)%nat ->
  well_formed (a_num_features a) (if c then 2 else 1)%nat d ->
  exists out,
    forward (Net.init GCNConv SAGEConv GATConv init_weight init_bias a c) d
      = Ok out /\
    length out = num_graphs d /\
    forall row, In row out ->
      length row = a_num_classes a /\
      sum_exp row = 1 /\
      forall v, In v row -> v <= 0.
Proof.
  intros Hs Hc Hwf.
  destruct (@forward_output GCNConv SAGEConv GATConv init_weight init_bias
              GCNConv_contract SAGEConv_contract GATConv_contract a c d Hs Hc Hwf)
    as (out & Hout & Hlen & Hrows).
  exists out. split; [exact Hout|]. split; [exact Hlen|].
  intros row Hrow. destruct (Hrows row Hrow) as [H1 H2].
  split; [exact H1|]. split; [exact H2|].
  intros v Hv. unfold forward in Hout.
  apply bind_ok in Hout as (e & _ & Hout).
  apply bind_ok in Hout as (z & _ & Hout). inversion Hout; subst.
  exact (@log_softmax_non_positive _ _ _ Hrow Hv).
Qed.

End WithLayers.
End ForwardEdges.

Module TrainEdges.
Import PyFacts Train TrainFacts.

Lemma firstn_S_nth {A} (l : list A) (i : nat) (a : A) :
  nth_error l i = Some a -> firstn (S i) l = firstn i l ++ [a].
Proof.
  revert i; induction l as [|b l IH]; intros i H.
  - destruct i; discriminate.
  - destruct i as [|i]; simpl in H.
    + inversion H; reflexivity.
    + cbn [firstn app]. f_equal. apply IH, H.
Qed.

Lemma split_at_nth {A} (l : list A) (i : nat) (a : A) :
  nth_error l i = Some a -> l = firstn i l ++ a :: skipn (S i) l.
Proof.
  revert i; induction l as [|b l IH]; intros i H.
  - destruct i; discriminate.
  - destruct i as [|i]; simpl in H.
    + inversion H; reflexivity.
    + cbn [firstn skipn app]. f_equal. apply IH, H.
Qed.

Section Loop.

Variables M Batch Out Label Metrics : Type.
Variable env : Env M Batch Out Label Metrics.

Lemma test_batches_log (m : M) (loader : list Batch) :
  forall t t', foldM (test_batch env m) loader t = Ok t' ->
  exists pairs, length pairs = length loader /\
                t_out_log t' = t_out_log t ++ pairs.
Proof.
  induction loader as [|d loader IH]; intros t t' H; simpl in H.
  - inversion H; subst. exists []. now rewrite app_nil_r.
  - apply bind_ok in H as (t1 & H1 & H).
    apply IH in H as (pairs & Hlen & Hlog).
    unfold test_batch in H1.
    apply bind_ok in H1 as (out & _ & H1).
    apply bind_ok in H1 as (y & _ & H1).
    apply bind_ok in H1 as (loss & _ & H1).
    inversion H1; subst; clear H1. cbn [t_out_log] in Hlog.
    exists ((softmax env out, y) :: pairs). split; [simpl; congruence|].
    rewrite Hlog, <- app_assoc. reflexivity.
Qed.

Lemma compute_test_state (v v' : Vars M Out Label Metrics)
    (loader : list Batch) (r : Metrics * Float64.float) :
  compute_test env v loader = Ok (v', r) ->
  model v' = model v /\ out_log v' = out_log v /\ stdout v' = stdout v /\
  training v' = false.
Proof.
  intros H. unfold compute_test in H.
  apply bind_ok in H as (t & _ & H). apply bind_ok in H as (ms & _ & H).
  inversion H; subst. repeat split.
Qed.

(** What [compute_test] returns depends on the model alone. *)
Lemma compute_test_same_model (v u v' : Vars M Out Label Metrics)
    (loader : list Batch) (r : Metrics * Float64.float) :
  model u = model v ->
  compute_test env v loader = Ok (v', r) ->
  exists u', compute_test env u loader = Ok (u', r).
Proof.
  intros Hu H. unfold compute_test in *. cbn [model] in *.
  apply bind_ok in H as (t & Ht & H). apply bind_ok in H as (ms & Hms & H).
  inversion H; subst; clear H.
  rewrite Hu, Ht. cbn [Py.bind]. rewrite Hms. cbn [Py.bind]. eauto.
Qed.

(** X12: [compute_test], lines 141-158.  The metrics it returns are
    [eval_deep] of a log with exactly one pair per batch of the loader it is
    given; the call leaves the model, the training log [out_log] of the main
    block and what has been printed as they were, leaves the model in
    evaluation mode, and its result depends on the state of the main block
    only through the model. *)
Theorem compute_test_starts_a_fresh_log (v v' : Vars M Out Label Metrics)
    (loader : list Batch) (metrics : Metrics) (loss : Float64.float) :
  compute_test env v loader = Ok (v', (metrics, loss)) ->
  (exists log, length log = length loader /\ eval_deep env log = Ok metrics) /\
  model v' = model v /\ out_log v' = out_log v /\ stdout v' = stdout v /\
  training v' = false /\
  forall u : Vars M Out Label Metrics, model u = model v ->
    exists u', compute_test env u loader = Ok (u', (metrics, loss)).
Proof.
  intros H. destruct (@compute_test_state _ _ _ _ H) as (A1 & A2 & A3 & A4).
  split; [|split; [exact A1|split; [exact A2|split; [exact A3|split; [exact A4|]]]]].
  - unfold compute_test in H. cbn [model] in H.
    apply bind_ok in H as (t & Ht & H).
    apply bind_ok in H as (ms & Hms & H).
    inversion H; subst; clear H.
    destruct (test_batches_log _ _ _ Ht) as (pairs & Hlen & Hlog).
    cbn [t_out_log app] in Hlog. exists (t_out_log t).
    split; [congruence | exact Hms].
  - intros u Hu. exact (@compute_test_same_model _ _ _ _ _ Hu H).
Qed.

Lemma train_batch_state (v v' : Vars M Out Label Metrics) (d : Batch) :
  train_batch env v d = Ok v' -> training v' = training v.
Proof.
  unfold train_batch. intros H.
  apply bind_ok in H as (out & _ & H). apply bind_ok in H as (y & _ & H).
  apply bind_ok in H as (loss & _ & H). inversion H; subst. reflexivity.
Qed.

Lemma epoch_tail_state (v v' : Vars M Out Label Metrics) :
  epoch_tail env v = Ok v' ->
  model v' = model v /\ training v' = false /\
  out_log v' = out_log v /\ loss_train v' = loss_train v.
Proof.
  unfold epoch_tail. intros H.
  apply bind_ok in H as (ms & _ & H).
  apply bind_ok in H as ([v1 [vm lv]] & Hct & H).
  unfold compute_test in Hct.
  apply bind_ok in Hct as (t & _ & Hct). apply bind_ok in Hct as (ms' & _ & Hct).
  inversion Hct; subst; clear Hct. inversion H; subst; clear H.
  repeat split.
Qed.

Lemma final_test_state (v v' : Vars M Out Label Metrics) :
  final_test env v = Ok v' ->
  model v' = model v /\ training v' = false /\ out_log v' = out_log v.
Proof.
  unfold final_test. intros H.
  apply bind_ok in H as ([v1 [tm tl]] & Hct & H).
  unfold compute_test in Hct.
  apply bind_ok in Hct as (t & _ & Hct). apply bind_ok in Hct as (ms' & _ & Hct).
  inversion Hct; subst; clear Hct. inversion H; subst; clear H.
  repeat split.
Qed.

(** X13: [model.train()] is called once, before the epoch loop, and
    [model.eval()] by every [compute_test]: the model is in training mode
    throughout epoch 0 and in evaluation mode at every later point of the
    main block, so the training steps of all epochs after the first call
    the model in evaluation mode. *)
Theorem evaluation_mode_after_first_epoch (m : M) (p : point)
    (v : Vars M Out Label Metrics) :
  at_point env m p v ->
  training v = match p with
               | LoopHead 0 | InEpoch 0 _ => true
               | _ => false
               end.
Proof.
  induction 1 as [|e v Hat IH Hin
                  |e i v data v' Hat IH Hnth Hstep
                  |e v v' Hat IH Hstep
                  |v v' Hat IH Hstep].
  - reflexivity.
  - cbn [epoch_head training]. rewrite IH. now destruct e.
  - rewrite (train_batch_state _ _ Hstep), IH. now destruct e.
  - apply epoch_tail_state in Hstep. tauto.
  - apply final_test_state in Hstep. tauto.
Qed.

(** The control points are the states that [main] passes through. *)
Lemma at_point_trace (m : M) (p : point) (v : Vars M Out Label Metrics) :
  at_point env m p v ->
  match p with
  | LoopHead e =>
      e <= Z.to_nat (epochs env) /\
      foldM (train_epoch env) (seq 0 e) (init_vars m) = Ok v
  | InEpoch e i =>
      e < Z.to_nat (epochs env) /\
      exists v0,
        foldM (train_epoch env) (seq 0 e) (init_vars m) = Ok v0 /\
        foldM (train_batch env) (firstn i (train_loader env e)) (epoch_head v0)
          = Ok v
  | Done => main env m = Ok v
  end.
Proof.
  induction 1 as [|e v Hat IH Hin
                  |e i v data v' Hat IH Hnth Hstep
                  |e v v' Hat IH Hstep
                  |v v' Hat IH Hstep].
  - split; [lia | reflexivity].
  - destruct IH as [Hle IH]. unfold epoch_range in Hin. apply in_seq in Hin.
    split; [lia|]. exists v. split; [exact IH | reflexivity].
  - destruct IH as (Hlt & v0 & H0 & Hb). split; [exact Hlt|].
    exists v0. split; [exact H0|].
    rewrite (firstn_S_nth _ _ Hnth), foldM_app, Hb. cbn [Py.bind foldM].
    rewrite Hstep. reflexivity.
  - destruct IH as (Hlt & v0 & H0 & Hb). split; [lia|].
    rewrite firstn_all in Hb.
    rewrite seq_S, foldM_app, H0. cbn [Py.bind foldM Nat.add].
    unfold train_epoch. rewrite Hb. cbn [Py.bind]. rewrite Hstep. reflexivity.
  - destruct IH as [_ IH]. unfold main, epoch_range. rewrite IH. exact Hstep.
Qed.

(** X14: no exception is caught anywhere in the main block: when a training
    step on some batch of some epoch raises, the whole run ends with that
    exception. *)
Theorem a_failing_batch_aborts_the_run (m : M) (e i : nat)
    (v : Vars M Out Label Metrics) (data : Batch) (x : exn) :
  at_point env m (InEpoch e i) v ->
  nth_error (train_loader env e) i = Some data ->
  train_batch env v data = Raise x ->
  main env m = Raise x.
Proof.
  intros Hat Hnth Hstep.
  destruct (at_point_trace Hat) as (Hlt & v0 & H0 & Hb).
  assert (He : train_epoch env v0 e = Raise x).
  { unfold train_epoch. rewrite (split_at_nth _ _ Hnth) at 1.
    rewrite foldM_app, Hb. cbn [Py.bind foldM]. rewrite Hstep. reflexivity. }
  unfold main, epoch_range.
  replace (Z.to_nat (epochs env)) with (e + S (Z.to_nat (epochs env) - S e)) by lia.
  rewrite seq_app, foldM_app, H0. cbn [Py.bind seq foldM Nat.add].
  rewrite He. reflexivity.
Qed.



End Loop.

Section Validation.

Variables M Batch Out Label Metrics : Type.
Variable env : Env M Batch Out Label Metrics.
Variable other : list Batch.

Lemma train_batches_same (bs : list Batch) :
  forall v1 v2 v1' v2' : Vars M Out Label Metrics,
    same_training_state v1 v2 ->
    foldM (train_batch env) bs v1 = Ok v1' ->
    foldM (train_batch env) bs v2 = Ok v2' ->
    same_training_state v1' v2'.
Proof.
  induction bs as [|b bs IH]; intros v1 v2 v1' v2' Hs H1 H2; simpl in H1, H2.
  - inversion H1; inversion H2; subst. exact Hs.
  - apply bind_ok in H1 as (u1 & Hu1 & H1).
    apply bind_ok in H2 as (u2 & Hu2 & H2).
    apply (IH u1 u2 v1' v2'); [|exact H1|exact H2].
    destruct Hs as (Sm & St & Sl & Sc).
    unfold train_batch in Hu1, Hu2. rewrite Sm, St in Hu2.
    apply bind_ok in Hu1 as (out & Hout & Hu1). rewrite Hout in Hu2.
    cbn [Py.bind] in Hu2.
    apply bind_ok in Hu1 as (y & Hy & Hu1). rewrite Hy in Hu2.
    cbn [Py.bind] in Hu2.
    apply bind_ok in Hu1 as (loss & Hloss & Hu1). rewrite Hloss in Hu2.
    cbn [Py.bind] in Hu2.
    inversion Hu1; inversion Hu2; subst; clear Hu1 Hu2.
    unfold same_training_state. cbn [model training out_log loss_train].
    rewrite Sl, Sc. repeat split.
Qed.

Lemma train_epoch_same (e : nat) (v1 v2 v1' v2' : Vars M Out Label Metrics) :
  same_training_state v1 v2 ->
  train_epoch env v1 e = Ok v1' ->
  train_epoch (with_val_loader env other) v2 e = Ok v2' ->
  same_training_state v1' v2'.
Proof.
  intros Hs H1 H2. unfold train_epoch in H1, H2.
  apply bind_ok in H1 as (u1 & Hb1 & Ht1).
  apply bind_ok in H2 as (u2 & Hb2 & Ht2).
  change (foldM (train_batch env) (train_loader env e) (epoch_head v2) = Ok u2)
    in Hb2.
  assert (Hh : same_training_state (epoch_head v1) (epoch_head v2)).
  { destruct Hs as (Sm & St & Sl & Sc). unfold same_training_state.
    cbn [epoch_head model training out_log loss_train]. auto. }
  pose proof (train_batches_same _ Hh Hb1 Hb2) as (Sm & St & Sl & Sc).
  apply epoch_tail_state in Ht1 as (A1 & A2 & A3 & A4).
  apply epoch_tail_state in Ht2 as (B1 & B2 & B3 & B4).
  unfold same_training_state. repeat split; congruence.
Qed.

Lemma epochs_same (es : list nat) :
  forall v1 v2 v1' v2' : Vars M Out Label Metrics,
    same_training_state v1 v2 ->
    foldM (train_epoch env) es v1 = Ok v1' ->
    foldM (train_epoch (with_val_loader env other)) es v2 = Ok v2' ->
    same_training_state v1' v2'.
Proof.
  induction es as [|e es IH]; intros v1 v2 v1' v2' Hs H1 H2; simpl in H1, H2.
  - inversion H1; inversion H2; subst. exact Hs.
  - apply bind_ok in H1 as (u1 & Hu1 & H1).
    apply bind_ok in H2 as (u2 & Hu2 & H2).
    apply (IH u1 u2 v1' v2'); [|exact H1|exact H2].
    eapply train_epoch_same; eassumption.
Qed.

(** X16: the validation pass never feeds back into training: two completed
    runs that differ only in the batches behind [val_loader] end with the
    same model and the same training log, and print the same test
    metrics. *)
Theorem validation_never_feeds_back (m : M) (v1 v2 : Vars M Out Label Metrics) :
  main env m = Ok v1 ->
  main (with_val_loader env other) m = Ok v2 ->
  model v2 = model v1 /\ out_log v2 = out_log v1 /\
  exists lines1 lines2 test,
    stdout v1 = lines1 ++ [TestLine test] /\
    stdout v2 = lines2 ++ [TestLine test].
Proof.
  intros H1 H2. unfold main in H1, H2.
  apply bind_ok in H1 as (u1 & He1 & Hf1).
  apply bind_ok in H2 as (u2 & He2 & Hf2).
  change (epoch_range (with_val_loader env other)) with (epoch_range env) in He2.
  assert (Hs : same_training_state u1 u2).
  { apply (epochs_same (epoch_range env) (v1 := init_vars m) (v2 := init_vars m));
      [repeat split | exact He1 | exact He2]. }
  destruct Hs as (Sm & St & Sl & Sc).
  unfold final_test in Hf1, Hf2.
  apply bind_ok in Hf1 as ([w1 [tm1 tl1]] & Hc1 & Hf1).
  apply bind_ok in Hf2 as ([w2 [tm2 tl2]] & Hc2 & Hf2).
  change (compute_test env u2 (test_loader env) = Ok (w2, (tm2, tl2))) in Hc2.
  destruct (@compute_test_state _ _ _ _ _ _ _ _ _ _ Hc1) as (A1 & A2 & A3 & _).
  destruct (@compute_test_same_model _ _ _ _ _ _ _ u2 _ _ _ Sm Hc1) as (w2' & Hc2').
  rewrite Hc2 in Hc2'. inversion Hc2'; subst tm2 tl2. clear Hc2'.
  destruct (@compute_test_state _ _ _ _ _ _ _ _ _ _ Hc2) as (B1 & B2 & B3 & _).
  inversion Hf1; inversion Hf2; subst v1 v2; clear Hf1 Hf2.
  cbn [model out_log stdout].
  split; [congruence|]. split; [congruence|].
  exists (stdout w1), (stdout w2), tm1. split; reflexivity.
Qed.

End Validation.
End TrainEdges.

Module CliStrings.
Import Cli CliFacts.
Local Open Scope string_scope.

Lemma str_flag_argument name :
  In name str_flags ->
  exists a d, find_argument name = Some a /\ dest a = name /\ type a = TStr /\
              default a = VStr d.
Proof.
  intros [<-|[<-|[<-|[<-|[]]]]]; do 2 eexists; repeat split.
Qed.

Section WithConversions.

Variable py_int : string -> option Z.
Variable py_float : string -> option Float64.float.

(** X17: the options declared with [type=str] ([--device], [--dataset],
    [--feature], [--model]) are stored as given, without any check against
    the values listed in their help text: the parsed value is the last
    string passed for the option, or its default when it is not
    passed. *)
Theorem str_flag_parsing (occs : list occurrence) (ns : Namespace)
    (flag : string) :
  parse_args py_int py_float occs = Some ns ->
  In flag str_flags ->
  exists d,
    default_of flag = Some (VStr d) /\
    getattr ns flag =
    Some (VStr match last_given occs flag with
               | Some s => s
               | None => d
               end).
Proof.
  intros Hparse Hflag.
  destruct (str_flag_argument Hflag) as (a & d & Ha & Hd & Ht & Hdef).
  subst flag. exists d. split.
  - unfold default_of. rewrite Ha. cbn [option_map]. now rewrite Hdef.
  - rewrite (@parse_args_getattr py_int py_float occs ns Hparse a Ha), Ht, Hdef.
    destruct (last_given occs (dest a)); reflexivity.
Qed.

End WithConversions.

End CliStrings.

Module Examples.

Lemma graph_list_records_witness :
  exists gl,
    Splitter.graph_list Splitter.two_graphs Splitter.two_graphs_slices = Ok gl /\
    length gl = Splitter.num_graphs Splitter.two_graphs_slices /\
    forall i g, nth_error gl i = Some g ->
      Splitter.x g =
        slice (nth i (Splitter.node_slices Splitter.two_graphs_slices) 0%Z)
              (nth (i + 1) (Splitter.node_slices Splitter.two_graphs_slices) 0%Z)
              (Splitter.c_x Splitter.two_graphs) /\
      nth_error (Splitter.c_y Splitter.two_graphs) i = Some (Splitter.y g) /\
      nth_error (Splitter.c_num_nodes Splitter.two_graphs) i
        = Some (Splitter.num_nodes g).
Proof.
  eexists. split; [reflexivity|].
  apply (@SplitterRecords.graph_list_records Z
           Splitter.two_graphs Splitter.two_graphs_slices).
  reflexivity.
Defined.

Lemma graph_list_error_witness :
  Splitter.graph_list
    {| Splitter.c_x := Splitter.c_x Splitter.two_graphs;
       Splitter.c_edge_index := Splitter.c_edge_index Splitter.two_graphs;
       Splitter.c_y := [0%Z];
       Splitter.c_num_nodes := Splitter.c_num_nodes Splitter.two_graphs |}
    Splitter.two_graphs_slices
  = Raise IndexError.
Proof.
  apply (SplitterRecords.graph_list_raises_without_labels
           {| Splitter.c_x := Splitter.c_x Splitter.two_graphs;
              Splitter.c_edge_index := Splitter.c_edge_index Splitter.two_graphs;
              Splitter.c_y := [0%Z];
              Splitter.c_num_nodes := Splitter.c_num_nodes Splitter.two_graphs |}
           Splitter.two_graphs_slices).
  vm_compute. lia.
Defined.

Lemma features_round_trip_witness :
  exists gl,
    Splitter.graph_list Splitter.two_graphs Splitter.two_graphs_slices = Ok gl /\
    concat (map (@Splitter.x Z) gl) = Splitter.c_x Splitter.two_graphs.
Proof.
  eexists. split; [reflexivity|].
  apply (@SplitterRecords.graph_list_features_round_trip Z
           Splitter.two_graphs Splitter.two_graphs_slices).
  - reflexivity.
  - simpl. lia.
  - simpl. lia.
Defined.

Lemma store_self_loops_witness :
  exists gl,
    Splitter.graph_list Splitter.two_graphs Splitter.two_graphs_slices = Ok gl /\
    concat (map (@Splitter.edge_index Z) gl)
    = filter Splitter.is_self_loop (Splitter.c_edge_index Splitter.two_graphs).
Proof.
  eexists. split; [reflexivity|].
  apply (@SplitterRecords.graph_list_holds_the_self_loops_of_the_store Z
           Splitter.two_graphs Splitter.two_graphs_slices).
  - reflexivity.
  - simpl. lia.
  - simpl. lia.
Defined.

Lemma small_dataset_witness :
  (Z.of_nat 4 < 2 ^ 52)%Z /\
  exists training_set validation_set test_set,
    Partitioner.partition Partitioner.reversed 4
      = Ok (training_set, validation_set, test_set) /\
    (Partitioner.indices training_set = [] <-> 4 < 5) /\
    (Partitioner.indices validation_set = [] <-> 4 < 10) /\
    (Partitioner.indices test_set = [] <-> 4 = 0) /\
    7 * 4 <= 10 * length (Partitioner.indices test_set) /\
    length (Partitioner.indices validation_set)
      = length (Partitioner.indices training_set) / 2.
Proof.
  split; [reflexivity|].
  apply (@PartitionerEdges.partition_of_small_datasets
           Partitioner.reversed Witnesses.reversed_perm 4).
  reflexivity.
Defined.

Lemma load_witness :
  (Z.of_nat (Script.dataset_len Script.one_edge) < 2 ^ 52)%Z /\
  exists l,
    Script.load 1%Z Partitioner.reversed false Script.one_edge = Ok l /\
    length (Script.graph_list l) = Splitter.num_graphs (Script.slices Script.one_edge) /\
    length (Partitioner.indices (Script.training_set l))
    + length (Partitioner.indices (Script.validation_set l))
    + length (Partitioner.indices (Script.test_set l))
    = Script.dataset_len Script.one_edge.
Proof.
  split; [reflexivity|].
  apply (@LoadFacts.load_returns Z 1%Z Partitioner.reversed
           Witnesses.reversed_perm false Script.one_edge eq_refl).
  vm_compute. lia.
Defined.

Lemma first_node_witness :
  exists row, Net.first_node_features Net.sample_batch 1 = Ok row.
Proof.
  apply (ForwardEdges.first_node_is_first_in_batch_order Net.sample_batch 1).
  - cbn. lia.
  - cbn. lia.
Defined.

Lemma forward_row_count_witness :
  exists out,
    Net.forward (Net.sample_model "sage" true) Net.sample_batch = Ok out /\
    length out = Net.num_ids (Net.batch Net.sample_batch) /\
    (Net.concat (Net.sample_model "sage" true) = true ->
     Net.num_graphs Net.sample_batch = Net.num_ids (Net.batch Net.sample_batch)).
Proof.
  destruct (@ForwardFacts.forward_shape
              Net.sample_conv Net.sample_conv Net.sample_conv
              Net.sample_weight Net.sample_bias
              ModelFacts.sample_conv_contract ModelFacts.sample_conv_contract
              ModelFacts.sample_conv_contract (Net.sample_args "sage") true
              Net.sample_batch (or_intror (or_introl eq_refl))
              ModelFacts.sample_batch_well_formed)
    as (e & out & _ & _ & Hout & _).
  exists out. split; [exact Hout|].
  exact (@ForwardEdges.forward_row_count
           (Net.sample_model "sage" true) Net.sample_batch out Hout).
Defined.

Lemma embedding_witness :
  exists e,
    Net.embedding (Net.sample_model "sage" true) Net.sample_batch = Ok e /\
    forall row v, In row e -> In v row -> (0 <= v)%R.
Proof.
  destruct (@ForwardFacts.forward_shape
              Net.sample_conv Net.sample_conv Net.sample_conv
              Net.sample_weight Net.sample_bias
              ModelFacts.sample_conv_contract ModelFacts.sample_conv_contract
              ModelFacts.sample_conv_contract (Net.sample_args "sage") true
              Net.sample_batch (or_intror (or_introl eq_refl))
              ModelFacts.sample_batch_well_formed)
    as (e & out & He & _).
  exists e. split; [exact He|].
  exact (@ForwardEdges.embedding_is_non_negative
           (Net.sample_model "sage" true) Net.sample_batch e He).
Defined.

Lemma log_probabilities_witness :
  Net.supported (Net.a_model (Net.sample_args "sage")) /\
  1 <= Net.a_num_classes (Net.sample_args "sage") /\
  Net.well_formed 8 2 Net.sample_batch /\
  exists out,
    Net.forward (Net.sample_model "sage" true) Net.sample_batch = Ok out /\
    length out = 2 /\
    forall row, In row out ->
      length row = 2 /\ Net.sum_exp row = 1%R /\
      forall v, In v row -> (v <= 0)%R.
Proof.
  split; [right; left; reflexivity|].
  split; [cbn; lia|].
  split; [exact ModelFacts.sample_batch_well_formed|].
  apply (@ForwardEdges.forward_returns_log_probabilities
           Net.sample_conv Net.sample_conv Net.sample_conv
           Net.sample_weight Net.sample_bias
           ModelFacts.sample_conv_contract ModelFacts.sample_conv_contract
           ModelFacts.sample_conv_contract (Net.sample_args "sage") true
           Net.sample_batch).
  - right; left; reflexivity.
  - cbn; lia.
  - exact ModelFacts.sample_batch_well_formed.
Defined.

Lemma compute_test_witness :
  exists v' metrics loss,
    Train.compute_test Train.sample_env (Train.init_vars 0)
      (Train.val_loader Train.sample_env) = Ok (v', (metrics, loss)) /\
    (exists log, length log = 1 /\
                 Train.eval_deep Train.sample_env log = Ok metrics) /\
    Train.out_log v' = [] /\
    Train.training v' = false.
Proof.
  assert (H : exists r,
             Train.compute_test Train.sample_env (Train.init_vars 0)
               (Train.val_loader Train.sample_env) = Ok r)
    by (eexists; vm_compute; reflexivity).
  destruct H as ([v' [metrics loss]] & H).
  exists v', metrics, loss. split; [exact H|].
  destruct (@TrainEdges.compute_test_starts_a_fresh_log _ _ _ _ _
              Train.sample_env _ _ _ _ _ H) as (Hlog & _ & Hout & _ & Hmode & _).
  split; [exact Hlog|]. split; [exact Hout | exact Hmode].
Defined.

Lemma evaluation_mode_witness :
  exists v,
    Train.at_point Train.sample_env 0 (Train.LoopHead 1) v /\
    Train.training v = false.
Proof.
  assert (H : exists v,
             foldM (Train.train_epoch Train.sample_env) (seq 0 1) (Train.init_vars 0)
               = Ok v)
    by (eexists; vm_compute; reflexivity).
  destruct H as (v & H).
  assert (Hat : Train.at_point Train.sample_env 0 (Train.LoopHead 1) v)
    by (apply TrainFacts.epochs_reach; [vm_compute; lia | exact H]).
  exists v. split; [exact Hat|].
  exact (@TrainEdges.evaluation_mode_after_first_epoch _ _ _ _ _
           Train.sample_env 0 (Train.LoopHead 1) v Hat).
Defined.

Lemma failing_batch_witness :
  nth_error (Train.train_loader Train.failing_env 1) 0 = Some 11 /\
  Train.main Train.failing_env 0 = Raise RuntimeError.
Proof.
  split; [reflexivity|].
  assert (H : exists v,
             foldM (Train.train_epoch Train.failing_env) (seq 0 1) (Train.init_vars 0)
               = Ok v)
    by (eexists; vm_compute; reflexivity).
  destruct H as (v & H).
  assert (Hat : Train.at_point Train.failing_env 0 (Train.InEpoch 1 0)
                  (Train.epoch_head v)).
  { apply Train.at_enter.
    - apply TrainFacts.epochs_reach; [vm_compute; lia | exact H].
    - vm_compute. auto. }
  apply (@TrainEdges.a_failing_batch_aborts_the_run _ _ _ _ _
           Train.failing_env 0 1 0 (Train.epoch_head v) 11 RuntimeError Hat).
  - reflexivity.
  - reflexivity.
Defined.

Lemma validation_witness :
  exists v1 v2,
    Train.main Train.sample_env 0 = Ok v1 /\
    Train.main (Train.with_val_loader Train.sample_env [5; 6]) 0 = Ok v2 /\
    Train.model v2 = Train.model v1 /\ Train.out_log v2 = Train.out_log v1 /\
    exists lines1 lines2 test,
      Train.stdout v1 = lines1 ++ [Train.TestLine test] /\
      Train.stdout v2 = lines2 ++ [Train.TestLine test].
Proof.
  assert (H1 : exists v1, Train.main Train.sample_env 0 = Ok v1)
    by (eexists; vm_compute; reflexivity).
  assert (H2 : exists v2,
             Train.main (Train.with_val_loader Train.sample_env [5; 6]) 0 = Ok v2)
    by (eexists; vm_compute; reflexivity).
  destruct H1 as (v1 & H1). destruct H2 as (v2 & H2).
  exists v1, v2. split; [exact H1|]. split; [exact H2|].
  exact (@TrainEdges.validation_never_feeds_back _ _ _ _ _
           Train.sample_env [5; 6] 0 v1 v2 H1 H2).
Defined.


Lemma str_flag_witness :
  exists ns,
    Cli.parse_args Cli.decimal Cli.no_float
      [("nhid", "64"); ("model", "gcn"); ("model", "mlp")]%string = Some ns /\
    exists d,
      Cli.default_of "model" = Some (Cli.VStr d) /\
      Cli.getattr ns "model" =
      Some (Cli.VStr match Cli.last_given
                             [("nhid", "64"); ("model", "gcn"); ("model", "mlp")]%string
                             "model" with
                     | Some s => s
                     | None => d
                     end).
Proof.
  eexists. split; [vm_compute; reflexivity|].
  apply (@CliStrings.str_flag_parsing Cli.decimal Cli.no_float
           [("nhid", "64"); ("model", "gcn"); ("model", "mlp")]%string _
           "model"%string eq_refl).
  vm_compute. tauto.
Defined.

End Examples.
